(** * Streaming ingestion and artifact resolution of the Veo3 video generator

    A shallow embedding of [app.py]: the pure helpers
    ([normalize_stream_text], [extract_first_url]), the two branches of
    [main] that consume the HTTP response (the streaming decoder of lines
    200-257 and the single-JSON resolver of lines 266-292), and the parts of
    the Python runtime these lean on (text methods, the latin-1 and UTF-8
    codecs, [json.loads], dynamic attribute access on decoded values).

    Python text is a sequence of Unicode code points; it is modelled as a
    list of [N].  Exceptions are values of [exn]; a computation that can
    raise returns a [result].  Widgets written to the page are a state that
    survives an exception, as they do in the running application. *)

From Stdlib Require Import String Ascii.
From Stdlib Require Import List NArith ZArith Bool Lia Zify.
From Stdlib Require Import Strings.Byte.
Import ListNotations.

Set Implicit Arguments.

(** ** Text *)

Definition codepoint := N.
Definition str := list codepoint.

(** Code points of an ASCII literal. *)
Definition py (s : string) : str := map N_of_ascii (list_ascii_of_string s).

Fixpoint str_eqb (a b : str) : bool :=
  match a, b with
  | [], [] => true
  | x :: a', y :: b' => N.eqb x y && str_eqb a' b'
  | _, _ => false
  end.

(** ** Exceptions and fallible results *)

Inductive exn :=
| JSONDecodeError
| AttributeError
| TypeError
| KeyError
| IndexError
| UnicodeEncodeError
| UnicodeDecodeError
| ChunkedEncodingError.   (* requests' failure of a body read in progress *)

Inductive result (A : Type) :=
| Ok (a : A)
| Raise (e : exn).
Arguments Raise {A} e.

Definition rbind {A B} (r : result A) (k : A -> result B) : result B :=
  match r with
  | Ok a => k a
  | Raise e => Raise e
  end.

(** ** Methods of [str] *)

Module Str.

(** [str.isspace] on one character, the set CPython uses for [strip()]
    and for the class [\s] of a text pattern. *)
Definition isspace (c : codepoint) : bool :=
  ((9 <=? c) && (c <=? 13) || (28 <=? c) && (c <=? 32)
   || (c =? 133) || (c =? 160) || (c =? 5760)
   || (8192 <=? c) && (c <=? 8202)
   || (c =? 8232) || (c =? 8233) || (c =? 8239) || (c =? 8287)
   || (c =? 12288))%N.

Fixpoint lstrip (s : str) : str :=
  match s with
  | c :: tl => if isspace c then lstrip tl else s
  | [] => []
  end.

Definition rstrip (s : str) : str := rev (lstrip (rev s)).

Definition strip (s : str) : str := rstrip (lstrip s).

(** [s.startswith(p)]: the rest after [p], when [p] leads [s]. *)
Fixpoint after_prefix (p s : str) : option str :=
  match p, s with
  | [], _ => Some s
  | x :: p', y :: s' => if N.eqb x y then after_prefix p' s' else None
  | _ :: _, [] => None
  end.

Definition startswith (p s : str) : bool :=
  match after_prefix p s with Some _ => true | None => false end.

Definition endswith (suffix s : str) : bool :=
  startswith (rev suffix) (rev s).

(** [s.endswith((a, b, ...))] *)
Definition endswith_any (suffixes : list str) (s : str) : bool :=
  existsb (fun suffix => endswith suffix s) suffixes.

(** [s.split(sep, 1)] for a non-empty separator: cut at the leftmost
    occurrence, or the whole text in a one-element list. *)
Fixpoint split_once (sep s : str) : option (str * str) :=
  match after_prefix sep s with
  | Some r => Some ([], r)
  | None =>
      match s with
      | [] => None
      | c :: tl =>
          match split_once sep tl with
          | Some (before, r) => Some (c :: before, r)
          | None => None
          end
      end
  end.

Definition split1 (sep s : str) : list str :=
  match split_once sep s with
  | Some (before, r) => [before; r]
  | None => [s]
  end.

(** [sep.join(parts)] *)
Fixpoint join (sep : str) (parts : list str) : str :=
  match parts with
  | [] => []
  | [p] => p
  | p :: rest => p ++ sep ++ join sep rest
  end.

(** [str.lower()] as far as it can matter for a comparison with ASCII
    text: the ASCII and Latin-1 capitals, U+212A KELVIN SIGN (whose lower
    case is the ASCII k) and U+0130 (lower case i followed by U+0307).
    Every other cased character lowers to non-ASCII text and is left in
    place. *)
Definition lower_char (c : codepoint) : str :=
  (if (65 <=? c) && (c <=? 90) then [c + 32]
   else if (192 <=? c) && (c <=? 222) && negb (c =? 215) then [c + 32]
   else if c =? 8490 then [107]
   else if c =? 304 then [105; 775]
   else [c])%N.

Definition lower (s : str) : str := flat_map lower_char s.

End Str.

(** [xs[i]] on a list *)
Definition list_item {A} (xs : list A) (i : nat) : result A :=
  match nth_error xs i with
  | Some x => Ok x
  | None => Raise IndexError
  end.

(** [xs[-n:]] *)
Definition last_n {A} (n : nat) (xs : list A) : list A :=
  skipn (List.length xs - n) xs.

(** ** Codecs *)

Module Codec.

(** [text.encode("latin1")]: one byte per character, and
    [UnicodeEncodeError] at a character above U+00FF. *)
Fixpoint encode_latin1 (s : str) : result (list byte) :=
  match s with
  | [] => Ok []
  | c :: tl =>
      match Byte.of_N c with
      | Some b => rbind (encode_latin1 tl) (fun bs => Ok (b :: bs))
      | None => Raise UnicodeEncodeError
      end
  end.

Definition cont (b : byte) : bool :=
  let n := Byte.to_N b in ((128 <=? n) && (n <=? 191))%N.

Definition between (lo hi : N) (b : byte) : bool :=
  let n := Byte.to_N b in ((lo <=? n) && (n <=? hi))%N.

Definition low6 (b : byte) : N := (Byte.to_N b - 128)%N.

(** [data.decode("utf-8")], strict: the well-formed byte sequences of the
    Unicode standard (no overlong form, no surrogate, nothing above
    U+10FFFF), [UnicodeDecodeError] otherwise. *)
Fixpoint decode_utf8 (bs : list byte) : result str :=
  match bs with
  | [] => Ok []
  | b0 :: r0 =>
      let n0 := Byte.to_N b0 in
      if (n0 <=? 127)%N then
        rbind (decode_utf8 r0) (fun s => Ok (n0 :: s))
      else if between 194 223 b0 then
        match r0 with
        | b1 :: r1 =>
            if cont b1 then
              rbind (decode_utf8 r1)
                (fun s => Ok (((n0 - 192) * 64 + low6 b1)%N :: s))
            else Raise UnicodeDecodeError
        | _ => Raise UnicodeDecodeError
        end
      else if between 224 239 b0 then
        match r0 with
        | b1 :: b2 :: r2 =>
            if (if (n0 =? 224)%N then between 160 191 b1
                else if (n0 =? 237)%N then between 128 159 b1
                else cont b1) && cont b2
            then
              rbind (decode_utf8 r2)
                (fun s =>
                   Ok (((n0 - 224) * 4096 + low6 b1 * 64 + low6 b2)%N :: s))
            else Raise UnicodeDecodeError
        | _ => Raise UnicodeDecodeError
        end
      else if between 240 244 b0 then
        match r0 with
        | b1 :: b2 :: b3 :: r3 =>
            if (if (n0 =? 240)%N then between 144 191 b1
                else if (n0 =? 244)%N then between 128 143 b1
                else cont b1) && cont b2 && cont b3
            then
              rbind (decode_utf8 r3)
                (fun s =>
                   Ok (((n0 - 240) * 262144 + low6 b1 * 4096
                        + low6 b2 * 64 + low6 b3)%N :: s))
            else Raise UnicodeDecodeError
        | _ => Raise UnicodeDecodeError
        end
      else Raise UnicodeDecodeError
  end.

End Codec.

(** ** [normalize_stream_text] (lines 104-108)

    The handler names [UnicodeDecodeError] only: a failure of [encode]
    is a [UnicodeEncodeError] and leaves the function as an exception. *)
Definition normalize_stream_text (text : str) : result str :=
  match Codec.encode_latin1 text with
  | Raise e => Raise e
  | Ok data =>
      match Codec.decode_utf8 data with
      | Ok decoded => Ok decoded
      | Raise UnicodeDecodeError => Ok text
      | Raise e => Raise e
      end
  end.

(** ** [extract_first_url] (lines 111-113) *)

Module Re.

Fixpoint take_nonspace (s : str) : str :=
  match s with
  | c :: tl => if Str.isspace c then [] else c :: take_nonspace tl
  | [] => []
  end.

(** [://[^\s]+] after a scheme already matched; the class is greedy and
    last in the pattern, so the match takes the whole run. *)
Definition match_rest (scheme s : str) : option str :=
  match Str.after_prefix (py "://") s with
  | Some r =>
      match take_nonspace r with
      | [] => None
      | run => Some (scheme ++ py "://" ++ run)
      end
  | None => None
  end.

(** [https?://[^\s]+] anchored at the head of [s]: the optional [s] is
    tried first and given back when the rest fails. *)
Definition match_here (s : str) : option str :=
  match Str.after_prefix (py "http") s with
  | None => None
  | Some r =>
      match
        match Str.after_prefix (py "s") r with
        | Some r' => match_rest (py "https") r'
        | None => None
        end
      with
      | Some m => Some m
      | None => match_rest (py "http") r
      end
  end.

(** [re.findall]: matches from left to right, none overlapping.  [skip]
    counts the characters still covered by the previous match. *)
Fixpoint findall_from (skip : nat) (s : str) : list str :=
  match s with
  | [] => []
  | _ :: tl =>
      match skip with
      | S k => findall_from k tl
      | O =>
          match match_here s with
          | Some m => m :: findall_from (List.length m - 1) tl
          | None => findall_from 0 tl
          end
      end
  end.

Definition findall_url (text : str) : list str := findall_from 0 text.

End Re.

Definition extract_first_url (text : str) : option str :=
  match Re.findall_url text with
  | u :: _ => Some u
  | [] => None
  end.

(** ** Decoded JSON as Python objects *)

(** A float is kept as the decimal numeral it was read from, [m * 10^e];
    only whether it is zero is ever observed. *)
Inductive pyfloat :=
| FDec (m e : Z)
| FNan
| FInf (negative : bool).

#[warnings="-register-all"]
Inductive value :=
| VNone
| VBool (b : bool)
| VInt (n : Z)
| VFloat (f : pyfloat)
| VStr (s : str)
| VList (items : list value)
| VDict (pairs : list (str * value)).

(** The numeral rounds to zero as a double: it is zero, or at most half of
    the least subnormal [2^-1074]. *)
Definition float_is_zero (f : pyfloat) : bool :=
  match f with
  | FDec m e =>
      ((m =? 0) || (e <? 0) && (Z.abs m * 2 ^ 1075 <=? 10 ^ (- e)))%Z
  | _ => false
  end.

(** [bool(v)] *)
Definition truthy (v : value) : bool :=
  match v with
  | VNone => false
  | VBool b => b
  | VInt n => negb (n =? 0)%Z
  | VFloat f => negb (float_is_zero f)
  | VStr s => match s with [] => false | _ => true end
  | VList items => match items with [] => false | _ => true end
  | VDict pairs => match pairs with [] => false | _ => true end
  end.

(** A [dict] built from the pairs of a document: a repeated key keeps its
    last value. *)
Fixpoint dict_lookup (key : str) (pairs : list (str * value)) : option value :=
  match pairs with
  | [] => None
  | (k, v) :: rest =>
      match dict_lookup key rest with
      | Some later => Some later
      | None => if str_eqb k key then Some v else None
      end
  end.

(** [obj.get(key, default)]: only a [dict] has the method. *)
Definition py_get (obj : value) (key : str) (default : value) : result value :=
  match obj with
  | VDict pairs =>
      Ok (match dict_lookup key pairs with Some v => v | None => default end)
  | _ => Raise AttributeError
  end.

(** [obj[0]] *)
Definition py_first (obj : value) : result value :=
  match obj with
  | VList items => list_item items 0
  | VStr s => match s with c :: _ => Ok (VStr [c]) | [] => Raise IndexError end
  | VDict _ => Raise KeyError        (* the keys of a document are text *)
  | _ => Raise TypeError
  end.

(** [a or b] *)
Definition py_or (a b : value) : value := if truthy a then a else b.

(** ** [json.loads] *)

Module Json.

Inductive parsed (A : Type) :=
| Done (a : A) (rest : str)
| Invalid
| Starved.                (* the fuel ran out; see [Json.loads] *)
Arguments Invalid {A}.
Arguments Starved {A}.

Definition pmap {A B} (f : A -> B) (p : parsed A) : parsed B :=
  match p with
  | Done a rest => Done (f a) rest
  | Invalid => Invalid
  | Starved => Starved
  end.

Definition is_ws (c : codepoint) : bool :=
  ((c =? 32) || (c =? 9) || (c =? 10) || (c =? 13))%N.

Fixpoint skip_ws (s : str) : str :=
  match s with
  | c :: tl => if is_ws c then skip_ws tl else s
  | [] => []
  end.

Definition is_digit (c : codepoint) : bool := ((48 <=? c) && (c <=? 57))%N.

Definition hex_digit (c : codepoint) : option N :=
  (if (48 <=? c) && (c <=? 57) then Some (c - 48)
   else if (97 <=? c) && (c <=? 102) then Some (c - 87)
   else if (65 <=? c) && (c <=? 70) then Some (c - 55)
   else None)%N.

Definition hex4 (a b c d : codepoint) : option N :=
  match hex_digit a, hex_digit b, hex_digit c, hex_digit d with
  | Some x, Some y, Some z, Some w => Some (((x * 16 + y) * 16 + z) * 16 + w)%N
  | _, _, _, _ => None
  end.

Definition high_surrogate (u : N) : bool := ((55296 <=? u) && (u <=? 56319))%N.
Definition low_surrogate (u : N) : bool := ((56320 <=? u) && (u <=? 57343))%N.
Definition join_surrogates (hi lo : N) : N :=
  (65536 + (hi - 55296) * 1024 + (lo - 56320))%N.

(** The one-letter escapes. *)
Definition unescape (c : codepoint) : option codepoint :=
  (if (c =? 34) || (c =? 92) || (c =? 47) then Some c
   else if c =? 98 then Some 8
   else if c =? 102 then Some 12
   else if c =? 110 then Some 10
   else if c =? 114 then Some 13
   else if c =? 116 then Some 9
   else None)%N.

Definition push (c : codepoint) (p : parsed str) : parsed str :=
  pmap (cons c) p.

(** The body of a string, after its opening quote (strict mode: a raw
    control character is refused). *)
Fixpoint scanstring (s : str) : parsed str :=
  match s with
  | [] => Invalid
  | c :: tl =>
      if (c =? 34)%N then Done [] tl
      else if (c =? 92)%N then
        match tl with
        | [] => Invalid
        | e :: tl2 =>
            if (e =? 117)%N then
              match tl2 with
              | h1 :: h2 :: h3 :: h4 :: tl6 =>
                  match hex4 h1 h2 h3 h4 with
                  | None => Invalid
                  | Some u =>
                      if high_surrogate u then
                        match tl6 with
                        | b :: u' :: k1 :: k2 :: k3 :: k4 :: tl12 =>
                            if ((b =? 92) && (u' =? 117))%N then
                              match hex4 k1 k2 k3 k4 with
                              | None => Invalid
                              | Some u2 =>
                                  if low_surrogate u2
                                  then push (join_surrogates u u2) (scanstring tl12)
                                  else push u (scanstring tl6)
                              end
                            else push u (scanstring tl6)
                        | _ => push u (scanstring tl6)
                        end
                      else push u (scanstring tl6)
                  end
              | _ => Invalid
              end
            else
              match unescape e with
              | Some x => push x (scanstring tl2)
              | None => Invalid
              end
        end
      else if (c <? 32)%N then Invalid
      else push c (scanstring tl)
  end.

Fixpoint take_digits (s : str) : str * str :=
  match s with
  | c :: tl =>
      if is_digit c then let '(ds, r) := take_digits tl in (c :: ds, r)
      else ([], s)
  | [] => ([], [])
  end.

Definition digits_value (ds : str) : Z :=
  fold_left (fun acc d => (acc * 10 + (Z.of_N d - 48))%Z) ds 0%Z.

Definition signed (negative : bool) (z : Z) : Z :=
  if negative then (- z)%Z else z.

(** A number: an optional minus, then 0 or a run of digits that does not
    start with 0, then an optional fraction (a point and digits) and an
    optional exponent (e or E, an optional sign, digits).  It is an [int]
    when it has neither fraction nor exponent. *)
Definition match_number (s : str) : option (value * str) :=
  let '(negative, s1) :=
    match s with
    | c :: tl => if (c =? 45)%N then (true, tl) else (false, s)
    | [] => (false, s)
    end in
  match s1 with
  | [] => None
  | c :: tl =>
      match
        (if ((49 <=? c) && (c <=? 57))%N then Some (take_digits s1)
         else if (c =? 48)%N then Some ([c], tl)
         else None)
      with
      | None => None
      | Some (int_digits, r1) =>
          let '(frac, r2) :=
            match r1 with
            | dot :: (d :: _) as more =>
                if ((dot =? 46)%N && is_digit d)
                then let '(ds, r) := take_digits more in (Some ds, r)
                else (None, r1)
            | _ => (None, r1)
            end in
          let '(expo, r3) :=
            match r2 with
            | e :: after =>
                if ((e =? 101) || (e =? 69))%N then
                  let '(minus, digits_at) :=
                    match after with
                    | sg :: more =>
                        if (sg =? 45)%N then (true, more)
                        else if (sg =? 43)%N then (false, more)
                        else (false, after)
                    | [] => (false, after)
                    end in
                  match take_digits digits_at with
                  | ([], _) => (None, r2)
                  | (ds, r) => (Some (signed minus (digits_value ds)), r)
                  end
                else (None, r2)
            | [] => (None, r2)
            end in
          match frac, expo with
          | None, None =>
              Some (VInt (signed negative (digits_value int_digits)), r3)
          | _, _ =>
              let fd := match frac with Some ds => ds | None => [] end in
              let ex := match expo with Some x => x | None => 0%Z end in
              Some (VFloat
                      (FDec (signed negative (digits_value (int_digits ++ fd)))
                            (ex - Z.of_nat (List.length fd))), r3)
          end
      end
  end.

Definition literal (word : str) (v : value) (s : str) : option (value * str) :=
  match Str.after_prefix word s with
  | Some r => Some (v, r)
  | None => None
  end.

(** What is neither string, object nor array: the three names, then a
    number, then the constants the decoder accepts beyond the standard. *)
Definition scan_atom (s : str) : parsed value :=
  let first_of (alts : list (option (value * str))) :=
    fold_right (fun o acc => match o with Some x => Some x | None => acc end)
               None alts in
  match
    first_of [ literal (py "null") VNone s;
               literal (py "true") (VBool true) s;
               literal (py "false") (VBool false) s;
               match_number s;
               literal (py "NaN") (VFloat FNan) s;
               literal (py "Infinity") (VFloat (FInf false)) s;
               literal (py "-Infinity") (VFloat (FInf true)) s ]
  with
  | Some (v, r) => Done v r
  | None => Invalid
  end.

(** [scan_once] and the loops of arrays and objects.  [parse_items] and
    [parse_members] start at the first character of an element, with the
    white space before it already skipped. *)
Fixpoint scan_once (fuel : nat) (s : str) : parsed value :=
  match fuel with
  | O => Starved
  | S fuel' =>
      match s with
      | [] => Invalid
      | c :: tl =>
          if (c =? 34)%N then pmap VStr (scanstring tl)
          else if (c =? 123)%N then
            match skip_ws tl with
            | d :: r =>
                if (d =? 125)%N then Done (VDict []) r
                else pmap VDict (parse_members fuel' (d :: r))
            | [] => Invalid
            end
          else if (c =? 91)%N then
            match skip_ws tl with
            | d :: r =>
                if (d =? 93)%N then Done (VList []) r
                else pmap VList (parse_items fuel' (d :: r))
            | [] => Invalid
            end
          else scan_atom s
      end
  end

with parse_items (fuel : nat) (s : str) : parsed (list value) :=
  match fuel with
  | O => Starved
  | S fuel' =>
      match scan_once fuel' s with
      | Done v r =>
          match skip_ws r with
          | d :: r' =>
              if (d =? 93)%N then Done [v] r'
              else if (d =? 44)%N
              then pmap (cons v) (parse_items fuel' (skip_ws r'))
              else Invalid
          | [] => Invalid
          end
      | Invalid => Invalid
      | Starved => Starved
      end
  end

with parse_members (fuel : nat) (s : str) : parsed (list (str * value)) :=
  match fuel with
  | O => Starved
  | S fuel' =>
      match s with
      | q :: tl =>
          if (q =? 34)%N then
            match scanstring tl with
            | Done key r =>
                match skip_ws r with
                | colon :: r1 =>
                    if (colon =? 58)%N then
                      match scan_once fuel' (skip_ws r1) with
                      | Done v r2 =>
                          match skip_ws r2 with
                          | d :: r3 =>
                              if (d =? 125)%N then Done [(key, v)] r3
                              else if (d =? 44)%N
                              then pmap (cons (key, v))
                                        (parse_members fuel' (skip_ws r3))
                              else Invalid
                          | [] => Invalid
                          end
                      | Invalid => Invalid
                      | Starved => Starved
                      end
                    else Invalid
                | [] => Invalid
                end
            | Invalid => Invalid
            | Starved => Starved
            end
          else Invalid
      | [] => Invalid
      end
  end.

(** [json.loads(s)] for text: no byte-order mark, one value, nothing but
    white space around it.  The fuel is enough for every text
    ([scan_once_fed] below), so the last case never runs.  Two limits of
    the interpreter are left out: the depth of recursion and the number of
    digits it converts to an [int].  Beyond them the interpreter raises
    [RecursionError] or [ValueError] where this function returns, and
    line 223 catches neither: the function is [json.loads] on the texts
    that [within_limits] names, and a statement that promises a return
    carries that condition. *)
Definition loads (s : str) : result value :=
  if Str.startswith [65279%N] s then Raise JSONDecodeError
  else
    match scan_once (2 * List.length s + 1) (skip_ws s) with
    | Done v rest =>
        match skip_ws rest with
        | [] => Ok v
        | _ :: _ => Raise JSONDecodeError
        end
    | Invalid => Raise JSONDecodeError
    | Starved => Raise JSONDecodeError
    end.

End Json.

(** ** The page and the effects of [main] *)

Inductive notice :=
| StreamConnected        (* line 201 *)
| NoLinkInStream         (* line 255 *)
| NoTextInStream         (* line 257 *)
| CallSucceeded.         (* line 266 *)

Inductive element :=
| Success (n : notice)
| Info (n : notice)
| Markdown (body : str)
| DownloadLink (url : str)
| Video (url : str)
| Warning (url : str)
| JsonView (data : value).

(** What has been written so far: the body of the log placeholder, which
    each call of its [code] method replaces, and the elements added below
    it, oldest first. *)
Record page := mkPage {
  log_placeholder : option str;
  elements : list element
}.

Definition blank : page := mkPage None [].

(** A step of [main]: it may write to the page and may raise; what was
    written before an exception stays written. *)
Definition M (A : Type) := page -> result A * page.

Definition ret {A} (a : A) : M A := fun p => (Ok a, p).

Definition raise {A} (e : exn) : M A := fun p => (Raise e, p).

Definition bind {A B} (m : M A) (k : A -> M B) : M B :=
  fun p =>
    match m p with
    | (Ok a, p') => k a p'
    | (Raise e, p') => (Raise e, p')
    end.

Definition lift {A} (r : result A) : M A :=
  match r with
  | Ok a => ret a
  | Raise e => raise e
  end.

Declare Scope py_scope.
Delimit Scope py_scope with py.
Notation "x <- m ;; k" := (bind m (fun x => k))
  (at level 61, m at next level, right associativity) : py_scope.
Notation "m ;; k" := (bind m (fun _ => k))
  (at level 61, right associativity) : py_scope.
Open Scope py_scope.

Definition st_add (e : element) : M unit :=
  fun p => (Ok tt, mkPage (log_placeholder p) (elements p ++ [e])).

Definition st_empty : M unit :=
  fun p => (Ok tt, mkPage None (elements p)).

Definition log_placeholder_code (body : str) : M unit :=
  fun p => (Ok tt, mkPage (Some body) (elements p)).

(** ** The streaming branch (lines 200-257) *)

(** [response.iter_lines(decode_unicode=True)]: the lines still to come,
    ending with the end of the body or with a failed read. *)
Inductive line_source :=
| Exhausted
| Yield (raw_line : str) (more : line_source)
| Broken.

Record locals := mkLocals {
  text_buffer : list str;
  raw_lines : list str
}.

Inductive flow := Continue | Break.

Definition EMPTY_LOG : str := [40; 31354; 41]%N.     (* "(空)" *)

Definition MEDIA_SUFFIXES : list str :=
  [py ".mp4"; py ".mov"; py ".webm"; py ".mkv"].

Definition nonempty (s : str) : bool :=
  match s with [] => false | _ :: _ => true end.

(** [normalize_stream_text(content_piece)] on whatever the document held:
    only text has [encode]. *)
Definition normalize_piece (content_piece : value) : result str :=
  match content_piece with
  | VStr text => normalize_stream_text text
  | _ => Raise AttributeError
  end.

(** Lines 207-233, one round of the loop. *)
Definition loop_body (raw_line : str) (l : locals) : M (flow * locals) :=
  if negb (nonempty raw_line) then ret (Continue, l)
  else
    raw_line <-
      (if Str.startswith (py "data:") raw_line
       then rest <- lift (list_item (Str.split1 (py "data:") raw_line) 1) ;;
            ret (Str.strip rest)
       else ret raw_line) ;;
    if str_eqb raw_line (py "[DONE]") then ret (Break, l)
    else
      let l := mkLocals (text_buffer l) (raw_lines l ++ [raw_line]) in
      let shown := Str.join [10%N] (last_n 40 (raw_lines l)) in
      log_placeholder_code (if nonempty shown then shown else EMPTY_LOG) ;;
      match Json.loads raw_line with
      | Raise JSONDecodeError => ret (Continue, l)
      | Raise e => raise e
      | Ok chunk =>
          choices <- lift (py_get chunk (py "choices") (VList [])) ;;
          if negb (truthy choices) then ret (Continue, l)
          else
            first <- lift (py_first choices) ;;
            found <- lift (py_get first (py "delta") VNone) ;;
            let delta := py_or found (VDict []) in
            content_piece <- lift (py_get delta (py "content") VNone) ;;
            if truthy content_piece then
              piece <- lift (normalize_piece content_piece) ;;
              ret (Continue, mkLocals (text_buffer l ++ [piece]) (raw_lines l))
            else ret (Continue, l)
      end.

(** Lines 206-233: the loop, which returns the locals and what it left
    unread. *)
Fixpoint for_lines (src : line_source) (l : locals) : M (locals * line_source) :=
  match src with
  | Exhausted => ret (l, Exhausted)
  | Broken => raise ChunkedEncodingError
  | Yield raw_line more =>
      r <- loop_body raw_line l ;;
      match r with
      | (Continue, l') => for_lines more l'
      | (Break, l') => ret (l', more)
      end
  end.

Record decoded := mkDecoded {
  final_text : str;
  log : list str;
  unread : line_source
}.

(** Lines 201-235. *)
Definition decode_stream (src : line_source) : M decoded :=
  st_add (Success StreamConnected) ;;
  st_empty ;;
  r <- for_lines src (mkLocals [] []) ;;
  let '(l, rest) := r in
  ret (mkDecoded (Str.strip (Str.join [] (text_buffer l))) (raw_lines l) rest).

(** Lines 236-257. *)
Definition present_stream (final_text : str) : M unit :=
  if nonempty final_text then
    st_add (Markdown final_text) ;;
    let candidate_url := extract_first_url final_text in
    let video_url :=
      match candidate_url with
      | Some url =>
          if nonempty url && Str.endswith_any MEDIA_SUFFIXES (Str.lower url)
          then Some url else None
      | None => None
      end in
    match video_url with
    | Some url => st_add (Video url) ;; st_add (DownloadLink url)
    | None =>
        match candidate_url with
        | Some url =>
            if nonempty url then st_add (Warning url)
            else st_add (Info NoLinkInStream)
        | None => st_add (Info NoLinkInStream)
        end
    end
  else st_add (Info NoTextInStream).

Definition stream_branch (src : line_source) : M unit :=
  d <- decode_stream src ;;
  present_stream (final_text d).

(** ** The single-response branch (lines 266-292) *)

(** Lines 269-280: the value bound to [video_url]. *)
Definition find_video_url (data : value) : result value :=
  match data with
  | VDict _ =>
      rbind (py_get data (py "choices") (VList [])) (fun choices =>
      if truthy choices then
        rbind (py_first choices) (fun first =>
        rbind (py_get first (py "message") (VDict [])) (fun message =>
        rbind (py_get message (py "content") (VList [])) (fun contents =>
        if truthy contents then
          rbind (py_first contents) (fun first_item =>
          match first_item with
          | VDict _ =>
              rbind (py_get first_item (py "url") VNone) (fun url =>
              rbind (py_get first_item (py "text") VNone) (fun text =>
              Ok (py_or url text)))
          | VStr _ => Ok first_item
          | _ => Ok VNone
          end)
        else Ok VNone)))
      else Ok VNone)
  | _ => Ok VNone
  end.

(** [video_url.lower().endswith((...))]: only text has [lower]. *)
Definition has_media_suffix (video_url : value) : result bool :=
  match video_url with
  | VStr url => Ok (Str.endswith_any MEDIA_SUFFIXES (Str.lower url))
  | _ => Raise AttributeError
  end.

(** The text shown for [video_url] once it is known to be text. *)
Definition shown_url (video_url : value) : str :=
  match video_url with
  | VStr url => url
  | _ => []
  end.

Definition json_branch (data : value) : M unit :=
  st_add (Success CallSucceeded) ;;
  st_add (JsonView data) ;;
  video_url <- lift (find_video_url data) ;;
  recognized <-
    (if truthy video_url then lift (has_media_suffix video_url)
     else ret false) ;;
  if recognized then
    st_add (Video (shown_url video_url)) ;;
    st_add (DownloadLink (shown_url video_url))
  else if truthy video_url then st_add (Warning (shown_url video_url))
  else ret tt.

(** ** The vocabulary of the specification, read off the page *)

Inductive Classification := RecognizedMedia | UnrecognizedLink | NoLink.

(** The link the page plays or warns about, if any. *)
Fixpoint candidate_of (es : list element) : option str :=
  match es with
  | [] => None
  | Video url :: _ => Some url
  | Warning url :: _ => Some url
  | _ :: rest => candidate_of rest
  end.

Fixpoint classification_of (es : list element) : Classification :=
  match es with
  | [] => NoLink
  | Video _ :: _ => RecognizedMedia
  | Warning _ :: _ => UnrecognizedLink
  | _ :: rest => classification_of rest
  end.

(** The text the page shows as the result of a streaming session. *)
Fixpoint shown_text (es : list element) : option str :=
  match es with
  | [] => None
  | Markdown body :: _ => Some body
  | _ :: rest => shown_text rest
  end.

Definition run {A} (m : M A) : result A * page := m blank.


(** * The request: payload, validation, call and the handler of the button *)

(** Text of a literal written in UTF-8. *)
Definition utf8 (s : string) : str :=
  match Codec.decode_utf8 (list_byte_of_string s) with
  | Ok text => text
  | Raise _ => []
  end.

Definition API_HOST : str := py "https://api.apicore.ai".
Definition API_PATH : str := py "/v1/chat/completions".

(** [bool(x)] for an optional text: [None] and the empty text are false. *)
Definition given (x : option str) : bool :=
  match x with
  | Some s => nonempty s
  | None => false
  end.

Definition stripped (x : option str) : str :=
  match x with
  | Some s => Str.strip s
  | None => []
  end.

(** ** [build_payload] (lines 23-68) *)

Definition text_item (text : str) : value :=
  VDict [(py "type", VStr (py "text")); (py "text", VStr text)].

Definition image_item (url : str) : value :=
  VDict [(py "type", VStr (py "image_url"));
         (py "image_url", VDict [(py "url", VStr url)]);
         (py "name", VStr (py "start_frame"))].

Definition DEFAULT_PROMPT : str := utf8 "请生成视频".

Definition build_payload
    (model text_prompt : str) (start_image_url extra_instructions : option str)
    (stream : bool) : value :=
  let content := [] in
  let content :=
    if nonempty text_prompt
    then content ++ [text_item (Str.strip text_prompt)] else content in
  let content :=
    if given start_image_url
    then content ++ [image_item (stripped start_image_url)] else content in
  let content :=
    if given extra_instructions
    then content ++ [text_item (stripped extra_instructions)] else content in
  VDict [(py "model", VStr model);
         (py "messages",
          VList [VDict [(py "role", VStr (py "user"));
                        (py "content",
                         VList match content with
                               | [] => [text_item DEFAULT_PROMPT]
                               | _ :: _ => content
                               end)]]);
         (py "stream", VBool stream)].

(** ** [json.dumps] *)

(** [repr] of an [int]. *)
Fixpoint digits_fuel (fuel : nat) (n : N) : str :=
  match fuel with
  | O => []
  | S fuel' =>
      if (n <? 10)%N then [(48 + n)%N]
      else digits_fuel fuel' (n / 10)%N ++ [(48 + n mod 10)%N]
  end.

Definition digits (n : N) : str := digits_fuel (S (N.size_nat n)) n.

Definition int_repr (z : Z) : str :=
  match z with
  | Zneg p => 45%N :: digits (Npos p)
  | _ => digits (Z.to_N z)
  end.

Module Encoder.
Section Options.

(** [repr] of the double nearest to [m * 10^e], which the model of floats
    does not compute. *)
Variable float_repr : Z -> Z -> str.

(** The keyword arguments [ensure_ascii] and [indent]. *)
Variable ensure_ascii : bool.
Variable indent : option nat.

Definition hex_char (d : N) : codepoint :=
  (if d <? 10 then 48 + d else 87 + d)%N.

(** [\uXXXX], in lower case. *)
Definition u_escape (n : N) : str :=
  [92; 117; hex_char (n / 4096); hex_char ((n / 256) mod 16);
   hex_char ((n / 16) mod 16); hex_char (n mod 16)]%N.

Definition escape_char (c : codepoint) : str :=
  (if c =? 34 then [92; 34]
   else if c =? 92 then [92; 92]
   else if c =? 10 then [92; 110]
   else if c =? 13 then [92; 114]
   else if c =? 9 then [92; 116]
   else if c =? 8 then [92; 98]
   else if c =? 12 then [92; 102]
   else if c <? 32 then u_escape c
   else if ensure_ascii && (126 <? c) then
     if c <? 65536 then u_escape c
     else u_escape (55296 + ((c - 65536) / 1024) mod 1024)
          ++ u_escape (56320 + (c - 65536) mod 1024)
   else [c])%N.

Definition encode_string (s : str) : str :=
  34%N :: flat_map escape_char s ++ [34%N].

(** The line break and indentation before an element at [level], when
    [indent] is given. *)
Definition newline_indent (level : nat) : str :=
  match indent with
  | Some width => 10%N :: repeat 32%N (width * level)
  | None => []
  end.

Definition item_separator : str :=
  match indent with
  | Some _ => py ","
  | None => py ", "
  end.

Definition key_separator : str := py ": ".

Definition encode_float (f : pyfloat) : str :=
  match f with
  | FDec m e => float_repr m e
  | FNan => py "NaN"
  | FInf false => py "Infinity"
  | FInf true => py "-Infinity"
  end.

Fixpoint encode (level : nat) (v : value) {struct v} : str :=
  match v with
  | VNone => py "null"
  | VBool true => py "true"
  | VBool false => py "false"
  | VInt n => int_repr n
  | VFloat f => encode_float f
  | VStr s => encode_string s
  | VList [] => py "[]"
  | VList (first :: others) =>
      py "[" ++ newline_indent (S level) ++ encode (S level) first
      ++ (fix rest (items : list value) : str :=
            match items with
            | [] => []
            | item :: items' =>
                item_separator ++ newline_indent (S level)
                ++ encode (S level) item ++ rest items'
            end) others
      ++ newline_indent level ++ py "]"
  | VDict [] => py "{}"
  | VDict ((key, first) :: others) =>
      py "{" ++ newline_indent (S level)
      ++ encode_string key ++ key_separator ++ encode (S level) first
      ++ (fix rest (pairs : list (str * value)) : str :=
            match pairs with
            | [] => []
            | (k, item) :: pairs' =>
                item_separator ++ newline_indent (S level)
                ++ encode_string k ++ key_separator
                ++ encode (S level) item ++ rest pairs'
            end) others
      ++ newline_indent level ++ py "}"
  end.

End Options.
End Encoder.

(** [json.dumps(obj)] and [json.dumps(obj, ensure_ascii=False, indent=4)] *)
Definition dumps (float_repr : Z -> Z -> str) (obj : value) : str :=
  Encoder.encode float_repr true None 0 obj.

Definition dumps_indented (float_repr : Z -> Z -> str) (obj : value) : str :=
  Encoder.encode float_repr false (Some 4) 0 obj.

(** ** The network, as [requests] shows it *)

(** A call of [requests] returns or raises a [RequestException], whose
    text is kept. *)
Inductive reply (A : Type) :=
| Returned (a : A)
| RequestException (message : str).
Arguments RequestException {A} message.

Record Response := mkResponse {
  status_code : Z;
  text : str;
  iter_lines : line_source;
  json : result value                 (* what [response.json()] does *)
}.

(** [response.ok]: the status is no client or server error. *)
Definition ok (response : Response) : bool :=
  negb ((400 <=? status_code response) && (status_code response <? 600))%Z.

Record request := mkRequest {
  url : str;
  headers : list (str * str);
  data : str;
  stream_mode : bool;
  timeout : Z
}.

(** What the servers answer: to a [HEAD] of a URL, the [Content-Type] of
    the reply if it has one; to a [POST], the response. *)
Record world := mkWorld {
  head : str -> reply (option str);
  post : request -> reply Response
}.

Inductive call :=
| Head (image_url : str)
| Post (r : request).

(** What the handler writes before either branch starts. *)
Inductive notice_box :=
| ErrorBox (message : str)
| CodeBlock (body : str)
| Written (body : str).

Record session := mkSession {
  calls : list call;
  boxes : list notice_box;
  shown : page
}.

(** How a run of the script ends: at its end, at [st.stop()], or with an
    exception. *)
Inductive ending :=
| Finished
| Halted
| Failed (e : exn).

Section Handler.

Variable float_repr : Z -> Z -> str.
Variable w : world.

(** ** [validate_image_url] (lines 85-101) *)

Definition validate_image_url (image_url label : str) : option str :=
  match head w image_url with
  | RequestException exc => Some (utf8 "无法访问首帧图片：" ++ exc)
  | Returned header =>
      let content_type := match header with Some v => v | None => [] end in
      if negb (Str.startswith (py "image/") content_type) then
        Some (label ++ utf8 "地址返回的 Content-Type 不是 image/*，"
              ++ utf8 "当前为 `"
              ++ (if nonempty content_type then content_type else utf8 "未知")
              ++ utf8 "`。请使用真实图片直链，比如 GitHub 原图 `raw.githubusercontent.com` 地址。")
      else None
  end.

(** ** [send_request] (lines 71-82) *)

Definition request_of (token : str) (payload : value) (stream_mode : bool)
  : request :=
  mkRequest (API_HOST ++ API_PATH)
    [(py "Authorization", py "Bearer " ++ token);
     (py "Content-Type", py "application/json")]
    (dumps float_repr payload) stream_mode 120.

Definition send_request (token : str) (payload : value) (stream_mode : bool)
  : reply Response :=
  post w (request_of token payload stream_mode).

(** ** The handler of the button (lines 167-292) *)

Definition stop_with (calls : list call) (boxes : list notice_box)
  : ending * session :=
  (Halted, mkSession calls boxes blank).

Definition finish (calls : list call) (boxes : list notice_box)
    (branch : M unit) : ending * session :=
  match run branch with
  | (Ok _, p) => (Finished, mkSession calls boxes p)
  | (Raise e, p) => (Failed e, mkSession calls boxes p)
  end.

Definition on_click
    (token selected_model : str) (stream : bool)
    (text_prompt image_url extra_instructions : str) : ending * session :=
  if negb (nonempty token) then
    stop_with [] [ErrorBox (utf8 "请先在侧边栏填写 API Token。")]
  else
    let image_err :=
      if nonempty image_url
      then validate_image_url image_url (utf8 "首帧图片") else None in
    let calls := if nonempty image_url then [Head image_url] else [] in
    if given image_err then stop_with calls [ErrorBox (match image_err with Some m => m | None => [] end)]
    else
      let payload :=
        build_payload selected_model text_prompt (Some image_url)
          (Some extra_instructions) stream in
      let calls := calls ++ [Post (request_of token payload stream)] in
      match send_request token payload stream with
      | RequestException err =>
          stop_with calls [ErrorBox (utf8 "调用失败：" ++ err)]
      | Returned response =>
          let boxes := [CodeBlock (dumps_indented float_repr payload)] in
          if negb (ok response) then
            stop_with calls
              (boxes ++ [ErrorBox (utf8 "接口返回错误：HTTP "
                                   ++ int_repr (status_code response));
                         Written (text response)])
          else if stream then
            finish calls boxes (stream_branch (iter_lines response))
          else
            match json response with
            | Raise JSONDecodeError =>
                stop_with calls
                  (boxes ++ [ErrorBox (utf8 "接口返回不是有效的 JSON，请检查响应。");
                             Written (text response)])
            | Raise e => (Failed e, mkSession calls boxes blank)
            | Ok data => finish calls boxes (json_branch data)
            end
      end.

End Handler.
(** * Vocabulary of the statements *)

(** A parser outcome that consumed input and did not run out of fuel. *)
Definition fed {A} (p : Json.parsed A) (s : str) : Prop :=
  match p with
  | Json.Done _ r => List.length r < List.length s
  | Json.Invalid => True
  | Json.Starved => False
  end.

Fixpoint of_lines (lines : list str) (ending : line_source) : line_source :=
  match lines with
  | [] => ending
  | raw_line :: rest => Yield raw_line (of_lines rest ending)
  end.

(** The frame of a line: what follows an optional [data:] prefix, trimmed
    when the prefix was there, and the line itself otherwise. *)
Definition frame_of (raw_line : str) : str :=
  match Str.after_prefix (py "data:") raw_line with
  | Some rest => Str.strip rest
  | None => raw_line
  end.

(** The line ends the session. *)
Definition done_line (raw_line : str) : bool :=
  str_eqb (frame_of raw_line) (py "[DONE]").

(** What the placeholder shows for a log. *)
Definition display (raw_lines : list str) : str :=
  let shown := Str.join [10%N] (last_n 40 raw_lines) in
  if nonempty shown then shown else EMPTY_LOG.

(** Lines 226-233 as a function of the decoded chunk: the piece appended to
    the text buffer, if any. *)
Definition piece_of (chunk : value) : result (option str) :=
  rbind (py_get chunk (py "choices") (VList [])) (fun choices =>
  if negb (truthy choices) then Ok None
  else
    rbind (py_first choices) (fun first =>
    rbind (py_get first (py "delta") VNone) (fun found =>
    rbind (py_get (py_or found (VDict [])) (py "content") VNone)
      (fun content_piece =>
    if truthy content_piece
    then rbind (normalize_piece content_piece) (fun piece => Ok (Some piece))
    else Ok None)))).

(** One round of the loop, seen from outside. *)
Inductive round :=
| Skipped
| Stopped
| Logged (frame : str) (appended : result (option str)).

Definition round_of (raw_line : str) : round :=
  match raw_line with
  | [] => Skipped
  | _ :: _ =>
      let frame := frame_of raw_line in
      if str_eqb frame (py "[DONE]") then Stopped
      else Logged frame
             match Json.loads frame with
             | Ok chunk => piece_of chunk
             | Raise _ => Ok None
             end
  end.

(** [delta.content] of the first choice, for a chunk of the shape
    [{"choices": [{"delta": {"content": text}}, ...]}] with text that is
    not empty. *)
Definition content_of (chunk : value) : option str :=
  match chunk with
  | VDict top =>
      match dict_lookup (py "choices") top with
      | Some (VList (VDict choice :: _)) =>
          match dict_lookup (py "delta") choice with
          | Some (VDict delta) =>
              match dict_lookup (py "content") delta with
              | Some (VStr (c :: s)) => Some (c :: s)
              | _ => None
              end
          | _ => None
          end
      | _ => None
      end
  | _ => None
  end.

(** The normalized fragment a line contributes, as a list of zero or one
    text. *)
Definition fragment_of (raw_line : str) : list str :=
  match Json.loads (frame_of raw_line) with
  | Ok chunk =>
      match content_of chunk with
      | Some piece =>
          match normalize_stream_text piece with
          | Ok text => [text]
          | Raise _ => []
          end
      | None => []
      end
  | Raise _ => []
  end.

(** The lines read before the session stops, the stopping line excluded. *)
Fixpoint heard (src : line_source) : list str :=
  match src with
  | Yield raw_line more =>
      if done_line raw_line then [] else raw_line :: heard more
  | _ => []
  end.

(** The frames that reach the log. *)
Definition frames (lines : list str) : list str :=
  map frame_of (filter nonempty lines).

(** A chunk with no content to take: an object whose [choices] is missing
    or false as a condition, or a list that starts with an object whose
    [delta] is missing, false as a condition, or an object whose [content]
    is missing or false as a condition. *)
Definition no_content (delta : value) : bool :=
  match delta with
  | VDict fields =>
      match dict_lookup (py "content") fields with
      | Some c => negb (truthy c)
      | None => true
      end
  | other => negb (truthy other)
  end.

Definition no_delta_content (choice : value) : bool :=
  match choice with
  | VDict fields =>
      match dict_lookup (py "delta") fields with
      | Some delta => no_content delta
      | None => true
      end
  | _ => false
  end.

Definition absorbed_chunk (chunk : value) : bool :=
  match chunk with
  | VDict top =>
      match dict_lookup (py "choices") top with
      | None => true
      | Some (VList (choice :: _)) => no_delta_content choice
      | Some other => negb (truthy other)
      end
  | _ => false
  end.

(** ASCII text in which every apostrophe stands for a quotation mark, to
    write JSON documents down. *)
Definition quoted (s : string) : str :=
  map (fun c => if (c =? 39)%N then 34%N else c) (py s).

(** The frames of the round-trip scenario. *)
Definition frame_A : str := quoted "data: {'choices':[{'delta':{'content':'A'}}]}".
Definition frame_B : str := quoted "data: {'choices':[{'delta':{'content':'B'}}]}".
Definition frame_DONE : str := py "data: [DONE]".

Definition roundtrip : line_source :=
  of_lines [frame_A; frame_B; frame_DONE] Exhausted.

(** The lines that end a session: [[DONE]] as it stands, or [data:]
    followed by [[DONE]] with any white space around it. *)
Definition DoneLine (raw_line : str) : Prop :=
  raw_line = py "[DONE]"
  \/ exists ws1 ws2,
       forallb Str.isspace ws1 = true /\ forallb Str.isspace ws2 = true
       /\ raw_line = py "data:" ++ ws1 ++ py "[DONE]" ++ ws2.

(** The source fails before any line ends the session. *)
Fixpoint fails_midstream (src : line_source) : bool :=
  match src with
  | Exhausted => false
  | Broken => true
  | Yield raw_line more =>
      if done_line raw_line then false else fails_midstream more
  end.

(** The round of the line does not raise. *)
Definition quiet (raw_line : str) : bool :=
  match round_of raw_line with
  | Logged _ (Raise _) => false
  | _ => true
  end.

(** A match of the URL pattern starts at the head of [s]: a scheme,
    [://], and at least one character that is not white space. *)
Definition url_start (s : str) : Prop :=
  exists scheme c rest,
    (scheme = py "http" \/ scheme = py "https")
    /\ Str.isspace c = false
    /\ s = scheme ++ py "://" ++ c :: rest.

(** [u] is a run of characters other than white space, and [post], the
    text after it, is empty or starts with white space. *)
Definition run_to_space (u post : str) : Prop :=
  forallb (fun c => negb (Str.isspace c)) u = true
  /\ match post with
     | [] => True
     | c :: _ => Str.isspace c = true
     end.

(** [u] is a word of [text] that begins with a scheme and [://]: a run of
    characters other than white space, bounded by white space or the ends
    of the text on both sides. *)
Definition scheme_run (text u : str) : Prop :=
  exists pre post,
    text = pre ++ u ++ post
    /\ (Str.startswith (py "http://") u = true
        \/ Str.startswith (py "https://") u = true)
    /\ run_to_space u post
    /\ match rev pre with
       | [] => True
       | c :: _ => Str.isspace c = true
       end.

(** The link has one of the media suffixes, whatever the case of its
    letters. *)
Definition media_link (url : str) : Prop :=
  exists suffix stem tail,
    In suffix MEDIA_SUFFIXES
    /\ url = stem ++ tail
    /\ Str.lower tail = Str.lower suffix.

(** The value at [choices[0].message.content[0]] of a response in which
    [choices] and [content] are lists and the first choice and its
    [message] are objects. *)
Definition first_content_item (data : value) : option value :=
  match data with
  | VDict top =>
      match dict_lookup (py "choices") top with
      | Some (VList (VDict choice :: _)) =>
          match dict_lookup (py "message") choice with
          | Some (VDict message) =>
              match dict_lookup (py "content") message with
              | Some (VList (item :: _)) => Some item
              | _ => None
              end
          | _ => None
          end
      | _ => None
      end
  | _ => None
  end.

Definition field (name : str) (fields : list (str * value)) : value :=
  match dict_lookup name fields with
  | Some v => v
  | None => VNone
  end.

(** What is taken from the item: a text as it is; of an object its [url],
    or its [text] when [url] is missing or false as a condition; nothing
    of anything else. *)
Definition extracted_field (item : value) : value :=
  match item with
  | VStr _ => item
  | VDict fields =>
      if truthy (field (py "url") fields) then field (py "url") fields
      else field (py "text") fields
  | _ => VNone
  end.

(** A response of the single-response shape with one content item. *)
Definition response_with (item : value) : value :=
  VDict [(py "choices",
          VList [VDict [(py "message",
                         VDict [(py "content", VList [item])])]])].

(** ** The limits of the interpreter *)

(** The longest run of decimal digits in a text; [run] is the length of
    the run that ends here, [longest] that of the longest run so far. *)
Fixpoint digit_run (run longest : N) (s : str) : N :=
  match s with
  | [] => N.max run longest
  | c :: tl =>
      if Json.is_digit c then digit_run (run + 1) longest tl
      else digit_run 0 (N.max run longest) tl
  end.

Definition longest_digit_run (s : str) : N := digit_run 0 0 s.

(** The opening brackets and braces of a text: no value in it is nested
    deeper. *)
Definition brackets (s : str) : N :=
  N.of_nat (List.length (filter (fun c => (c =? 91) || (c =? 123))%N s)).

(** The digits the interpreter converts to an [int] by default
    ([sys.int_info.default_max_str_digits]), and a depth of nesting that
    its default limit of recursion leaves to the decoder under the frames
    of the script. *)
Definition MAX_STR_DIGITS : N := 4300.
Definition NESTING_ROOM : N := 200.

(** A text on which [Json.loads] is [json.loads]: no number in it has more
    digits than the interpreter converts, and nothing in it is nested
    deeper than the interpreter descends. *)
Definition within_limits (s : str) : bool :=
  ((longest_digit_run s <=? MAX_STR_DIGITS)
   && (brackets s <=? NESTING_ROOM))%N.

(** The frame of the line is within the limits. *)
Definition modest (raw_line : str) : bool := within_limits (frame_of raw_line).

(** Frames with white space around the content, the first with text that
    was written in UTF-8 and read as Latin-1. *)
Definition frame_cafe : str :=
  quoted "data: {'choices':[{'delta':{'content':' caf\u00c3\u00a9'}}]}".
Definition frame_padded_B : str :=
  quoted "data: {'choices':[{'delta':{'content':' B '}}]}".

(** ** Vocabulary for the request *)

(** The content list of the one message of a payload. *)
Definition message_content (payload : value) : list value :=
  match payload with
  | VDict top =>
      match dict_lookup (py "messages") top with
      | Some (VList (VDict message :: _)) =>
          match dict_lookup (py "content") message with
          | Some (VList items) => items
          | _ => []
          end
      | _ => []
      end
  | _ => []
  end.

(** How many of the three inputs are given. *)
Definition inputs_given
    (text_prompt : str) (start_image_url extra_instructions : option str)
  : nat :=
  (if nonempty text_prompt then 1 else 0)
  + (if given start_image_url then 1 else 0)
  + (if given extra_instructions then 1 else 0).

(** The text an item carries: the text of a text item, the URL of an image
    item. *)
Definition item_text (item : value) : option str :=
  match item with
  | VDict fields =>
      match dict_lookup (py "text") fields with
      | Some (VStr t) => Some t
      | _ =>
          match dict_lookup (py "image_url") fields with
          | Some (VDict inner) =>
              match dict_lookup (py "url") inner with
              | Some (VStr u) => Some u
              | _ => None
              end
          | _ => None
          end
      end
  | _ => None
  end.

(** A Unicode scalar value: a code point that is no surrogate. *)
Definition scalar (c : codepoint) : bool :=
  ((c <? 55296) || (57343 <? c) && (c <=? 1114111))%N.

(** Text the encoder writes so that it reads back: any text when
    characters are written as they are, text of scalar values when
    [ensure_ascii] turns them into escapes. *)
Definition plain_text (ensure_ascii : bool) (s : str) : bool :=
  negb ensure_ascii || forallb scalar s.

(** A document without a float numeral, whose text is [plain_text]. *)
Fixpoint encodable (ensure_ascii : bool) (v : value) {struct v} : bool :=
  match v with
  | VFloat (FDec _ _) => false
  | VStr s => plain_text ensure_ascii s
  | VList items => forallb (encodable ensure_ascii) items
  | VDict pairs =>
      forallb (fun kv : str * value =>
                 let '(k, item) := kv in
                 plain_text ensure_ascii k && encodable ensure_ascii item)
              pairs
  | _ => true
  end.

(** What [encode] writes after the first element of a list, and after the
    first pair of a dict. *)
Definition items_tail (float_repr : Z -> Z -> str) (ensure_ascii : bool)
    (indent : option nat) (level : nat) (others : list value) : str :=
  flat_map (fun item =>
              Encoder.item_separator indent
              ++ Encoder.newline_indent indent level
              ++ Encoder.encode float_repr ensure_ascii indent level item)
           others.

Definition pairs_tail (float_repr : Z -> Z -> str) (ensure_ascii : bool)
    (indent : option nat) (level : nat) (others : list (str * value)) : str :=
  flat_map (fun kv : str * value =>
              let '(k, item) := kv in
              Encoder.item_separator indent
              ++ Encoder.newline_indent indent level
              ++ Encoder.encode_string ensure_ascii k
              ++ Encoder.key_separator
              ++ Encoder.encode float_repr ensure_ascii indent level item)
           others.

(** The text after a document ends it: the end of input, a comma, a
    closing bracket or brace, or a line break. *)
Definition closes (rest : str) : bool :=
  match rest with
  | [] => true
  | c :: _ => ((c =? 44) || (c =? 93) || (c =? 125) || (c =? 10))%N
  end.

(** An optional text of scalar values. *)
Definition scalar_text (x : option str) : bool :=
  match x with
  | Some s => forallb scalar s
  | None => true
  end.

(** ** The ways through the handler of the button *)

Section Ways.

Variable float_repr : Z -> Z -> str.
Variable w : world.

Variables token selected_model text_prompt image_url extra_instructions : str.
Variable stream : bool.

Let payload : value :=
  build_payload selected_model text_prompt (Some image_url)
    (Some extra_instructions) stream.
Let the_request : request := request_of float_repr token payload stream.
Let heads : list call := if nonempty image_url then [Head image_url] else [].
Let outcome : ending * session :=
  on_click float_repr w token selected_model stream text_prompt image_url extra_instructions.

(** The address is empty or passes the check. *)
Let passes : Prop :=
  nonempty image_url = true ->
  validate_image_url w image_url (utf8 "首帧图片") = None.

(** The ways through the handler. *)
Inductive way : Prop :=
| NoToken
    (Htoken : nonempty token = false)
    (Hout : outcome
            = stop_with [] [ErrorBox (utf8 "请先在侧边栏填写 API Token。")])
| BadImage (message : str)
    (Htoken : nonempty token = true)
    (Himage : nonempty image_url = true)
    (Hcheck : validate_image_url w image_url (utf8 "首帧图片") = Some message)
    (Hout : outcome = stop_with [Head image_url] [ErrorBox message])
| CallFailed (err : str)
    (Htoken : nonempty token = true)
    (Hpass : passes)
    (Hpost : post w the_request = RequestException err)
    (Hout : outcome
            = stop_with (heads ++ [Post the_request])
                [ErrorBox (utf8 "调用失败：" ++ err)])
| ErrorStatus (response : Response)
    (Htoken : nonempty token = true)
    (Hpass : passes)
    (Hpost : post w the_request = Returned response)
    (Hok : ok response = false)
    (Hout : outcome
            = stop_with (heads ++ [Post the_request])
                [CodeBlock (dumps_indented float_repr payload);
                 ErrorBox (utf8 "接口返回错误：HTTP "
                           ++ int_repr (status_code response));
                 Written (text response)])
| Streamed (response : Response)
    (Htoken : nonempty token = true)
    (Hpass : passes)
    (Hpost : post w the_request = Returned response)
    (Hok : ok response = true)
    (Hstream : stream = true)
    (Hout : outcome
            = finish (heads ++ [Post the_request])
                [CodeBlock (dumps_indented float_repr payload)]
                (stream_branch (iter_lines response)))
| NotJson (response : Response)
    (Htoken : nonempty token = true)
    (Hpass : passes)
    (Hpost : post w the_request = Returned response)
    (Hok : ok response = true)
    (Hstream : stream = false)
    (Hjson : json response = Raise JSONDecodeError)
    (Hout : outcome
            = stop_with (heads ++ [Post the_request])
                [CodeBlock (dumps_indented float_repr payload);
                 ErrorBox (utf8 "接口返回不是有效的 JSON，请检查响应。");
                 Written (text response)])
| JsonRaised (response : Response) (e : exn)
    (Htoken : nonempty token = true)
    (Hpass : passes)
    (Hpost : post w the_request = Returned response)
    (Hok : ok response = true)
    (Hstream : stream = false)
    (Hjson : json response = Raise e)
    (Hother : e <> JSONDecodeError)
    (Hout : outcome
            = (Failed e,
               mkSession (heads ++ [Post the_request])
                 [CodeBlock (dumps_indented float_repr payload)] blank))
| Answered (response : Response) (data : value)
    (Htoken : nonempty token = true)
    (Hpass : passes)
    (Hpost : post w the_request = Returned response)
    (Hok : ok response = true)
    (Hstream : stream = false)
    (Hjson : json response = Ok data)
    (Hout : outcome
            = finish (heads ++ [Post the_request])
                [CodeBlock (dumps_indented float_repr payload)]
                (json_branch data)).

End Ways.

(** ** Vocabulary for the text of a stream *)

(** The bytes of a character in UTF-8, each as the Latin-1 character a
    reader of the wrong charset takes it for. *)
Definition utf8_bytes (c : codepoint) : str :=
  (if c <? 128 then [c]
   else if c <? 2048 then [192 + c / 64; 128 + c mod 64]
   else if c <? 65536 then
     [224 + c / 4096; 128 + (c / 64) mod 64; 128 + c mod 64]
   else
     [240 + c / 262144; 128 + (c / 4096) mod 64; 128 + (c / 64) mod 64;
      128 + c mod 64])%N.

(** [text.encode("utf-8").decode("latin1")]: text written in UTF-8 and
    read as Latin-1. *)
Definition misread (text : str) : str := flat_map utf8_bytes text.

(** ** Worlds for the examples *)

(** Every address is a PNG image, and the service answers every call with
    status 200 and an empty list. *)
Definition obliging_world : world :=
  mkWorld (fun _ => Returned (Some (py "image/png")))
          (fun _ => Returned (mkResponse 200 [] Exhausted (Ok (VList [])))).

(** Every address is a page of HTML, and the service is never reached. *)
Definition html_world : world :=
  mkWorld (fun _ => Returned (Some (py "text/html")))
          (fun _ => RequestException (py "unreachable")).

(** A [repr] of floats for the examples, which hold no float. *)
Definition no_float_repr : Z -> Z -> str := fun _ _ => [].

(** ** Vocabulary for a service that streams *)

(** A chunk that carries one piece of content. *)
Definition chunk_with (piece : str) : value :=
  VDict [(py "choices",
          VList [VDict [(py "delta", VDict [(py "content", VStr piece)])]])].

(** The line of an event stream that carries a chunk, written by
    [json.dumps]. *)
Definition event_of (float_repr : Z -> Z -> str) (chunk : value) : str :=
  py "data: " ++ dumps float_repr chunk.

(** Text within Latin-1, which [encode("latin1")] accepts. *)
Definition latin (text : str) : bool :=
  forallb (fun c => (c <=? 255)%N) text.

(** A piece as the session takes it: what [normalize_stream_text] returns
    for it. *)
Definition heard_as (piece : str) : str :=
  match normalize_stream_text piece with
  | Ok text => text
  | Raise _ => piece
  end.
(** * Properties *)

(** ** Text *)

Lemma str_eqb_eq (a b : str) : str_eqb a b = true <-> a = b.
Proof.
  revert b; induction a as [|x a IH]; intros [|y b]; simpl;
    try (split; congruence).
  rewrite andb_true_iff, N.eqb_eq, IH.
  split; [intros [-> ->]; reflexivity | intros [= -> ->]; auto].
Qed.

Lemma str_eqb_refl (a : str) : str_eqb a a = true.
Proof. apply str_eqb_eq; reflexivity. Qed.

Lemma str_eqb_neq (a b : str) : str_eqb a b = false <-> a <> b.
Proof.
  rewrite <- str_eqb_eq. destruct (str_eqb a b); split; congruence.
Qed.

Lemma after_prefix_app (p s r : str) :
  Str.after_prefix p s = Some r <-> s = p ++ r.
Proof.
  revert s; induction p as [|x p IH]; intros s; simpl.
  - split; congruence.
  - destruct s as [|y s]; [split; discriminate|].
    destruct (N.eqb_spec x y) as [->|Hne].
    + rewrite IH. split; [intros ->; reflexivity | intros [= ->]; reflexivity].
    + split; [discriminate | intros [= -> ->]; congruence].
Qed.

Lemma startswith_app (p s : str) :
  Str.startswith p s = true <-> exists r, s = p ++ r.
Proof.
  unfold Str.startswith.
  destruct (Str.after_prefix p s) as [r|] eqn:E.
  - apply after_prefix_app in E. split; eauto.
  - split; [discriminate|]. intros [r Hr].
    apply after_prefix_app in Hr. congruence.
Qed.

Lemma endswith_app (suffix s : str) :
  Str.endswith suffix s = true <-> exists stem, s = stem ++ suffix.
Proof.
  unfold Str.endswith. rewrite startswith_app. split.
  - intros [r Hr]. exists (rev r).
    rewrite <- (rev_involutive s), Hr, rev_app_distr, rev_involutive.
    reflexivity.
  - intros [stem ->]. exists (rev stem). apply rev_app_distr.
Qed.

Lemma split1_prefixed (sep r : str) :
  sep <> [] -> Str.split1 sep (sep ++ r) = [[]; r].
Proof.
  intros Hsep. unfold Str.split1.
  destruct sep as [|c sep]; [congruence|].
  cbn [Str.split_once app].
  assert (E : Str.after_prefix (c :: sep) (c :: sep ++ r) = Some r)
    by (apply after_prefix_app; reflexivity).
  rewrite E. reflexivity.
Qed.

Lemma join_empty_concat (parts : list str) :
  Str.join [] parts = concat parts.
Proof.
  induction parts as [|p [|p' rest] IH]; simpl in *.
  - reflexivity.
  - rewrite app_nil_r; reflexivity.
  - rewrite IH; reflexivity.
Qed.

Lemma lstrip_spaces (ws s : str) :
  forallb Str.isspace ws = true -> Str.lstrip (ws ++ s) = Str.lstrip s.
Proof.
  induction ws as [|c ws IH]; simpl; [reflexivity|].
  rewrite andb_true_iff; intros [-> H]; auto.
Qed.

Lemma lstrip_solid (c : codepoint) (s : str) :
  Str.isspace c = false -> Str.lstrip (c :: s) = c :: s.
Proof. intros H; simpl; rewrite H; reflexivity. Qed.

Lemma lstrip_split (s : str) :
  exists ws, forallb Str.isspace ws = true /\ s = ws ++ Str.lstrip s
             /\ match Str.lstrip s with
                | c :: _ => Str.isspace c = false
                | [] => True
                end.
Proof.
  induction s as [|c s (ws & Hws & Hs & Hhd)]; simpl.
  - exists []; auto.
  - destruct (Str.isspace c) eqn:E.
    + exists (c :: ws); simpl; rewrite E, Hws; repeat split; auto.
      congruence.
    + exists []; simpl; auto.
Qed.

Lemma lstrip_all_space (s : str) :
  forallb Str.isspace s = true -> Str.lstrip s = [].
Proof.
  intros H. rewrite <- (app_nil_r s). rewrite lstrip_spaces; auto.
Qed.

Lemma forallb_rev {A} (f : A -> bool) (xs : list A) :
  forallb f (rev xs) = forallb f xs.
Proof.
  induction xs as [|x xs IH]; simpl; [reflexivity|].
  rewrite forallb_app; simpl. rewrite IH, andb_true_r, andb_comm. reflexivity.
Qed.

(** [strip] removes exactly the white space around a text that neither
    starts nor ends with white space. *)
Lemma strip_padded (ws1 ws2 core : str) (a b : codepoint) (mid : str) :
  forallb Str.isspace ws1 = true -> forallb Str.isspace ws2 = true ->
  core = a :: mid -> (exists mid', core = mid' ++ [b]) ->
  Str.isspace a = false -> Str.isspace b = false ->
  Str.strip (ws1 ++ core ++ ws2) = core.
Proof.
  intros H1 H2 -> [mid' Hb] Ha Hbs.
  unfold Str.strip, Str.rstrip.
  rewrite lstrip_spaces by assumption.
  cbn [app]. rewrite lstrip_solid by assumption.
  change (a :: mid ++ ws2) with ((a :: mid) ++ ws2).
  rewrite Hb, rev_app_distr, lstrip_spaces by (rewrite forallb_rev; assumption).
  rewrite rev_app_distr. cbn [rev app].
  rewrite lstrip_solid by assumption.
  cbn [rev]. rewrite rev_involutive. reflexivity.
Qed.

Lemma strip_split (s : str) :
  exists ws1 ws2,
    forallb Str.isspace ws1 = true /\ forallb Str.isspace ws2 = true /\
    s = ws1 ++ Str.strip s ++ ws2.
Proof.
  destruct (lstrip_split s) as (ws1 & H1 & Hs & _).
  destruct (lstrip_split (rev (Str.lstrip s))) as (ws2 & H2 & Hr & _).
  exists ws1, (rev ws2). rewrite forallb_rev. repeat split; auto.
  unfold Str.strip, Str.rstrip.
  rewrite <- rev_app_distr, <- Hr, rev_involutive. exact Hs.
Qed.

Lemma strip_all_space (s : str) :
  forallb Str.isspace s = true -> Str.strip s = [].
Proof.
  intros H. unfold Str.strip. rewrite lstrip_all_space by assumption.
  reflexivity.
Qed.

(** ** The fuel of [Json.loads] is enough *)

Module JsonFacts.
Import Json.

Lemma fed_pmap {A B} (f : A -> B) (p : parsed A) (s : str) :
  fed (pmap f p) s <-> fed p s.
Proof. destruct p; simpl; tauto. Qed.

Lemma fed_longer {A} (p : parsed A) (s s' : str) :
  fed p s -> List.length s <= List.length s' -> fed p s'.
Proof. destruct p; simpl; auto; lia. Qed.

Lemma skip_ws_length (s : str) : List.length (skip_ws s) <= List.length s.
Proof.
  induction s as [|c s IH]; simpl; [lia|].
  destruct (is_ws c); simpl; lia.
Qed.

Lemma skip_ws_cons (s : str) (d : codepoint) (r : str) :
  skip_ws s = d :: r -> List.length r < List.length s.
Proof.
  intros E. pose proof (skip_ws_length s) as H. rewrite E in H.
  simpl in H. lia.
Qed.

Local Ltac push_case IH :=
  unfold push; apply fed_pmap; eapply fed_longer;
  [apply IH; simpl in *; lia | simpl; lia].

Lemma scanstring_fed (n : nat) :
  forall s, List.length s <= n -> fed (scanstring s) s.
Proof.
  induction n as [|n IH]; intros s Hn.
  - destruct s; [exact I | simpl in Hn; lia].
  - destruct s as [|c tl]; [exact I|]. cbn [scanstring].
    destruct (c =? 34)%N; [simpl; lia|].
    destruct (c =? 92)%N.
    + destruct tl as [|e tl2]; [exact I|].
      destruct (e =? 117)%N.
      * destruct tl2 as [|h1 [|h2 [|h3 [|h4 tl6]]]]; try exact I.
        destruct (hex4 h1 h2 h3 h4) as [u|]; [|exact I].
        destruct (high_surrogate u); [|push_case IH].
        destruct tl6 as [|b [|u' [|k1 [|k2 [|k3 [|k4 tl12]]]]]];
          try (push_case IH).
        destruct ((b =? 92) && (u' =? 117))%N; [|push_case IH].
        destruct (hex4 k1 k2 k3 k4) as [u2|]; [|exact I].
        destruct (low_surrogate u2); push_case IH.
      * destruct (unescape e); [push_case IH | exact I].
    + destruct (c <? 32)%N; [exact I | push_case IH].
Qed.

Lemma take_digits_length (s : str) :
  List.length (snd (take_digits s)) <= List.length s.
Proof.
  induction s as [|c s IH]; simpl; [lia|].
  destruct (is_digit c); simpl; [|lia].
  destruct (take_digits s); simpl in *; lia.
Qed.

Lemma take_digits_pair (s ds r : str) :
  take_digits s = (ds, r) -> List.length r <= List.length s.
Proof.
  intros E. pose proof (take_digits_length s) as H.
  rewrite E in H. exact H.
Qed.

Lemma literal_shorter (word : str) (v v' : value) (s r : str) :
  word <> [] -> literal word v s = Some (v', r) ->
  List.length r < List.length s.
Proof.
  unfold literal. intros Hw.
  destruct (Str.after_prefix word s) as [r'|] eqn:E; [|discriminate].
  intros [= _ ->]. apply after_prefix_app in E. subst s.
  rewrite length_app. destruct word; [congruence | simpl; lia].
Qed.

Lemma match_number_shorter (s : str) (v : value) (r : str) :
  match_number s = Some (v, r) -> List.length r < List.length s.
Proof.
  unfold match_number.
  set (lead := match s with
               | c :: tl => if (c =? 45)%N then (true, tl) else (false, s)
               | [] => (false, s)
               end).
  assert (Hlead : List.length (snd lead) <= List.length s).
  { subst lead. destruct s as [|c tl]; simpl; [lia|].
    destruct (c =? 45)%N; simpl; lia. }
  destruct lead as [negative s1]. simpl in Hlead.
  destruct s1 as [|c tl]; [discriminate|].
  set (ip := if ((49 <=? c) && (c <=? 57))%N then Some (take_digits (c :: tl))
             else if (c =? 48)%N then Some ([c], tl) else None).
  assert (Hip : forall ds r1, ip = Some (ds, r1) ->
                              List.length r1 < List.length (c :: tl)).
  { subst ip. intros ds r1.
    destruct ((49 <=? c) && (c <=? 57))%N eqn:E19.
    - cbn [take_digits].
      assert (D : is_digit c = true).
      { unfold is_digit. apply andb_true_iff in E19 as [A B].
        apply andb_true_iff; split; [|exact B].
        apply N.leb_le in A. apply N.leb_le. lia. }
      rewrite D. destruct (take_digits tl) as [ds' r'] eqn:Etd.
      intros [= <- <-]. apply take_digits_pair in Etd. simpl. lia.
    - destruct (c =? 48)%N; [|discriminate].
      intros [= <- <-]. simpl. lia. }
  destruct ip as [[int_digits r1]|]; [|discriminate].
  specialize (Hip _ _ eq_refl).
  set (fr := match r1 with
             | dot :: (d :: _) as more =>
                 if ((dot =? 46)%N && is_digit d)
                 then let '(ds, r) := take_digits more in (Some ds, r)
                 else (None, r1)
             | _ => (None, r1)
             end).
  assert (Hfr : List.length (snd fr) <= List.length r1).
  { subst fr. destruct r1 as [|dot [|d more]]; simpl; try lia.
    destruct ((dot =? 46)%N && is_digit d); simpl; [|lia].
    destruct (is_digit d); simpl; [|lia].
    destruct (take_digits more) as [ds r'] eqn:Etd; simpl.
    apply take_digits_pair in Etd. lia. }
  destruct fr as [frac r2]. simpl in Hfr.
  set (ex := match r2 with
             | e :: after =>
                 if ((e =? 101) || (e =? 69))%N then
                   let '(minus, digits_at) :=
                     match after with
                     | sg :: more =>
                         if (sg =? 45)%N then (true, more)
                         else if (sg =? 43)%N then (false, more)
                         else (false, after)
                     | [] => (false, after)
                     end in
                   match take_digits digits_at with
                   | ([], _) => (None, r2)
                   | (ds, r) => (Some (signed minus (digits_value ds)), r)
                   end
                 else (None, r2)
             | [] => (None, r2)
             end).
  assert (Hex : List.length (snd ex) <= List.length r2).
  { subst ex. destruct r2 as [|e after]; simpl; [lia|].
    destruct ((e =? 101) || (e =? 69))%N; simpl; [|lia].
    set (sg := match after with
               | sg :: more =>
                   if (sg =? 45)%N then (true, more)
                   else if (sg =? 43)%N then (false, more)
                   else (false, after)
               | [] => (false, after)
               end).
    assert (Hsg : List.length (snd sg) <= List.length after).
    { subst sg. destruct after as [|x more]; simpl; [lia|].
      destruct (x =? 45)%N; simpl; [lia|].
      destruct (x =? 43)%N; simpl; lia. }
    destruct sg as [minus digits_at]. simpl in Hsg.
    destruct (take_digits digits_at) as [[|d0 ds] r'] eqn:Etd; simpl; [lia|].
    apply take_digits_pair in Etd. lia. }
  destruct ex as [expo r3]. simpl in Hex.
  destruct frac, expo; intros [= _ <-]; simpl in *; lia.
Qed.

Lemma scan_atom_fed (s : str) : fed (scan_atom s) s.
Proof.
  unfold scan_atom. cbn [fold_right].
  repeat
    match goal with
    | |- context [literal ?w ?v s] =>
        let E := fresh "E" in
        destruct (literal w v s) as [[? ?]|] eqn:E;
        [apply literal_shorter in E; [exact E | discriminate]|]
    | |- context [match_number s] =>
        let E := fresh "E" in
        destruct (match_number s) as [[? ?]|] eqn:E;
        [apply match_number_shorter in E; exact E|]
    end.
  exact I.
Qed.

Lemma scan_fed (fuel : nat) :
  (forall s, 2 * List.length s < fuel -> fed (scan_once fuel s) s)
  /\ (forall s, 2 * List.length s + 1 < fuel -> fed (parse_items fuel s) s)
  /\ (forall s, 2 * List.length s + 1 < fuel -> fed (parse_members fuel s) s).
Proof.
  induction fuel as [|fuel (IHv & IHi & IHm)].
  - repeat split; intros; lia.
  - repeat split; intros s Hf.
    + cbn [scan_once]. destruct s as [|c tl]; [exact I|].
      destruct (c =? 34)%N.
      { apply fed_pmap. eapply fed_longer;
          [apply (scanstring_fed (n := List.length tl)); lia | simpl; lia]. }
      destruct (c =? 123)%N.
      { destruct (skip_ws tl) as [|d r] eqn:E; [exact I|].
        apply skip_ws_cons in E as Hr.
        destruct (d =? 125)%N; [simpl; lia|].
        apply fed_pmap. eapply fed_longer;
          [apply IHm; simpl in *; lia | simpl in *; lia]. }
      destruct (c =? 91)%N.
      { destruct (skip_ws tl) as [|d r] eqn:E; [exact I|].
        apply skip_ws_cons in E as Hr.
        destruct (d =? 93)%N; [simpl; lia|].
        apply fed_pmap. eapply fed_longer;
          [apply IHi; simpl in *; lia | simpl in *; lia]. }
      apply scan_atom_fed.
    + cbn [parse_items].
      assert (Hv : fed (scan_once fuel s) s) by (apply IHv; lia).
      destruct (scan_once fuel s) as [v r| |]; simpl in Hv; try tauto.
      destruct (skip_ws r) as [|d r'] eqn:E; [exact I|].
      apply skip_ws_cons in E as Hr.
      destruct (d =? 93)%N; [simpl; lia|].
      destruct (d =? 44)%N; [|exact I].
      pose proof (skip_ws_length r') as Hs.
      apply fed_pmap. eapply fed_longer; [apply IHi; lia | lia].
    + cbn [parse_members]. destruct s as [|q tl]; [exact I|].
      destruct (q =? 34)%N; [|exact I].
      pose proof (@scanstring_fed (List.length tl) tl (le_n _)) as Hk.
      destruct (scanstring tl) as [key r| |]; simpl in Hk; try tauto.
      destruct (skip_ws r) as [|colon r1] eqn:E; [exact I|].
      apply skip_ws_cons in E as Hr.
      destruct (colon =? 58)%N; [|exact I].
      pose proof (skip_ws_length r1) as Hs1.
      assert (Hv : fed (scan_once fuel (skip_ws r1)) (skip_ws r1))
        by (apply IHv; simpl in *; lia).
      destruct (scan_once fuel (skip_ws r1)) as [v r2| |];
        simpl in Hv; try tauto.
      destruct (skip_ws r2) as [|d r3] eqn:E2; [exact I|].
      apply skip_ws_cons in E2 as Hr2.
      destruct (d =? 125)%N; [simpl in *; lia|].
      destruct (d =? 44)%N; [|exact I].
      pose proof (skip_ws_length r3) as Hs3.
      apply fed_pmap. eapply fed_longer;
        [apply IHm; simpl in *; lia | simpl in *; lia].
Qed.

(** [Json.loads] never runs out of fuel. *)
Lemma scan_once_fed (s : str) :
  scan_once (2 * List.length s + 1) (skip_ws s) <> Starved.
Proof.
  pose proof (skip_ws_length s) as Hs.
  destruct (scan_fed (2 * List.length s + 1)) as (H & _ & _).
  specialize (H (skip_ws s) ltac:(lia)).
  destruct (scan_once _ _); simpl in H; [discriminate..|tauto].
Qed.

End JsonFacts.

(** ** One round of the streaming loop *)

Lemma loads_raises_only_decode_error (s : str) (e : exn) :
  Json.loads s = Raise e -> e = JSONDecodeError.
Proof.
  unfold Json.loads.
  destruct (Str.startswith _ s); [congruence|].
  destruct (Json.scan_once _ _) as [v rest| |]; try congruence.
  destruct (Json.skip_ws rest); congruence.
Qed.

Lemma frame_of_prefixed (raw_line : str) :
  Str.startswith (py "data:") raw_line = true ->
  list_item (Str.split1 (py "data:") raw_line) 1
  = Ok match Str.after_prefix (py "data:") raw_line with
       | Some rest => rest
       | None => []
       end.
Proof.
  intros H. apply startswith_app in H as [r ->].
  rewrite split1_prefixed by discriminate.
  assert (E : Str.after_prefix (py "data:") (py "data:" ++ r) = Some r)
    by (apply after_prefix_app; reflexivity).
  rewrite E. reflexivity.
Qed.

Lemma bind_ok {A B} {m : M A} (k : A -> M B) {p p' : page} {a : A} :
  m p = (Ok a, p') -> bind m k p = k a p'.
Proof. unfold bind; intros ->; reflexivity. Qed.

Lemma log_placeholder_code_run (body : str) (p : page) :
  log_placeholder_code body p = (Ok tt, mkPage (Some body) (elements p)).
Proof. reflexivity. Qed.

Lemma loop_body_round (raw_line : str) (l : locals) (p : page) :
  loop_body raw_line l p =
  match round_of raw_line with
  | Skipped => (Ok (Continue, l), p)
  | Stopped => (Ok (Break, l), p)
  | Logged frame appended =>
      let logged := raw_lines l ++ [frame] in
      let p' := mkPage (Some (display logged)) (elements p) in
      match appended with
      | Ok None => (Ok (Continue, mkLocals (text_buffer l) logged), p')
      | Ok (Some piece) =>
          (Ok (Continue, mkLocals (text_buffer l ++ [piece]) logged), p')
      | Raise e => (Raise e, p')
      end
  end.
Proof.
  unfold loop_body, round_of.
  destruct raw_line as [|c0 line0]; [reflexivity|].
  set (raw_line := c0 :: line0).
  change (negb (nonempty raw_line)) with false. cbv iota.
  assert (Hframe :
    (if Str.startswith (py "data:") raw_line
     then rest <- lift (list_item (Str.split1 (py "data:") raw_line) 1) ;;
          ret (Str.strip rest)
     else ret raw_line) p = (Ok (frame_of raw_line), p)).
  { unfold frame_of. destruct (Str.startswith (py "data:") raw_line) eqn:E.
    - unfold bind. rewrite (frame_of_prefixed _ E).
      unfold Str.startswith in E.
      destruct (Str.after_prefix (py "data:") raw_line); [reflexivity|discriminate].
    - unfold Str.startswith in E.
      destruct (Str.after_prefix (py "data:") raw_line); [discriminate|reflexivity]. }
  rewrite (bind_ok _ Hframe).
  destruct (str_eqb (frame_of raw_line) (py "[DONE]")); [reflexivity|].
  cbn [raw_lines text_buffer].
  fold (display (raw_lines l ++ [frame_of raw_line])).
  rewrite (bind_ok _ (log_placeholder_code_run _ p)).
  destruct (Json.loads (frame_of raw_line)) as [chunk|e] eqn:Eload.
  - unfold piece_of, bind, lift, ret, raise.
    destruct (py_get chunk (py "choices") (VList [])) as [choices|]; cbn [rbind]; [|reflexivity].
    destruct (truthy choices); cbn [negb]; [|reflexivity].
    destruct (py_first choices) as [first|]; cbn [rbind]; [|reflexivity].
    destruct (py_get first (py "delta") VNone) as [found|]; cbn [rbind]; [|reflexivity].
    destruct (py_get (py_or found (VDict [])) (py "content") VNone)
      as [content_piece|]; cbn [rbind]; [|reflexivity].
    destruct (truthy content_piece); [|reflexivity].
    destruct (normalize_piece content_piece); reflexivity.
  - apply loads_raises_only_decode_error in Eload as ->. reflexivity.
Qed.

Lemma for_lines_step (raw_line : str) (more : line_source) (l : locals) (p : page) :
  for_lines (Yield raw_line more) l p =
  match round_of raw_line with
  | Skipped => for_lines more l p
  | Stopped => (Ok (l, more), p)
  | Logged frame appended =>
      let logged := raw_lines l ++ [frame] in
      let p' := mkPage (Some (display logged)) (elements p) in
      match appended with
      | Ok None => for_lines more (mkLocals (text_buffer l) logged) p'
      | Ok (Some piece) =>
          for_lines more (mkLocals (text_buffer l ++ [piece]) logged) p'
      | Raise e => (Raise e, p')
      end
  end.
Proof.
  cbn [for_lines]. unfold bind. rewrite loop_body_round.
  destruct (round_of raw_line) as [| |frame [[piece|]|e]]; reflexivity.
Qed.

Lemma piece_of_absorbed (chunk : value) :
  absorbed_chunk chunk = true <-> piece_of chunk = Ok None.
Proof.
  unfold absorbed_chunk, piece_of, py_get at 1.
  destruct chunk as [| | | | |items|top]; try (split; discriminate).
  cbn [rbind].
  destruct (dict_lookup (py "choices") top) as [choices|]; [|simpl; tauto].
  destruct (truthy choices) eqn:Ht; cbn [negb].
  - destruct choices as [| | | |[|c s]|[|choice rest]|[|pr pairs]];
      try (simpl in Ht; discriminate);
      try (simpl; rewrite ?Ht; simpl; split; discriminate).
    cbn [py_first list_item nth_error rbind].
      unfold no_delta_content, py_get at 1.
      destruct choice as [| | | | |items|fields]; try (split; discriminate).
      cbn [rbind].
      assert (Hdelta : forall delta,
                 no_content delta = true <->
                 rbind (py_get (py_or delta (VDict [])) (py "content") VNone)
                   (fun content_piece =>
                      if truthy content_piece
                      then rbind (normalize_piece content_piece)
                             (fun piece => Ok (Some piece))
                      else Ok None) = Ok None).
      { clear. intros delta. unfold no_content, py_or.
        destruct delta as [|b|n|f|s|items|fs];
          try (destruct (truthy _) eqn:Ht'; cbn [negb];
               [simpl; split; discriminate | simpl; tauto]).
        destruct fs as [|f0 fs]; [simpl; tauto|].
        change (truthy (VDict (f0 :: fs))) with true. cbv iota.
        unfold py_get. cbn [rbind].
        destruct (dict_lookup (py "content") (f0 :: fs)) as [c|];
          [|simpl; tauto].
        destruct (truthy c) eqn:Hc; cbn [negb]; [|tauto].
        split; [discriminate|].
        destruct (normalize_piece c); discriminate. }
    destruct (dict_lookup (py "delta") fields) as [delta|].
    + apply Hdelta.
    + simpl; tauto.
  - destruct choices as [| | | | |[|c r]|]; simpl in Ht |- *;
      try tauto; try discriminate; rewrite ?Ht; simpl; tauto.
Qed.

Lemma piece_of_content (chunk : value) (o : option str) :
  piece_of chunk = Ok o ->
  match o with
  | Some text =>
      exists piece, content_of chunk = Some piece
                    /\ normalize_stream_text piece = Ok text
  | None => content_of chunk = None
  end.
Proof.
  unfold piece_of, content_of, py_get at 1.
  destruct chunk as [| | | | |items|top]; try discriminate.
  cbn [rbind].
  destruct (dict_lookup (py "choices") top) as [choices|];
    [|simpl; intros [= <-]; reflexivity].
  destruct (truthy choices) eqn:Ht; cbn [negb].
  2: { intros [= <-].
       destruct choices as [| | | | |[|c r]|]; simpl in Ht; congruence. }
  destruct choices as [| | | |[|c s]|[|choice rest]|pairs];
    simpl in Ht; try discriminate.
  cbn [py_first list_item nth_error rbind]. unfold py_get at 1.
  destruct choice as [| | | | |items|fields]; try discriminate.
  cbn [rbind].
  destruct (dict_lookup (py "delta") fields) as [delta|];
    [|simpl; intros [= <-]; reflexivity].
  unfold py_or.
  destruct delta as [|b|n|f|s|items|d];
    try (destruct (truthy _) eqn:Ht2; simpl;
         [discriminate | intros [= <-]; reflexivity]).
  destruct d as [|f0 fs].
  - simpl. intros [= <-]. reflexivity.
  - change (truthy (VDict (f0 :: fs))) with true. cbv iota.
    unfold py_get. cbn [rbind].
    destruct (dict_lookup (py "content") (f0 :: fs)) as [c|];
      [|simpl; intros [= <-]; reflexivity].
    destruct (truthy c) eqn:Hc.
    + destruct c as [| | | |[|c1 s1]| |]; simpl in Hc |- *;
        try discriminate.
      destruct (normalize_stream_text (c1 :: s1)) as [text|e] eqn:En;
        simpl; [|discriminate].
      intros [= <-]. eauto.
    + intros [= <-].
      destruct c as [| | | |[|c1 s1]| |]; simpl in Hc; congruence.
Qed.

(** ** The streaming loop as a whole *)

Lemma round_of_facts (raw_line : str) :
  match round_of raw_line with
  | Skipped => raw_line = [] /\ done_line raw_line = false
               /\ fragment_of raw_line = []
  | Stopped => done_line raw_line = true
  | Logged frame appended =>
      frame = frame_of raw_line /\ nonempty raw_line = true
      /\ done_line raw_line = false
      /\ match appended with
         | Ok (Some text) => fragment_of raw_line = [text]
         | Ok None => fragment_of raw_line = []
         | Raise _ => True
         end
  end.
Proof.
  unfold round_of, done_line, fragment_of.
  destruct raw_line as [|c0 line0]; [repeat split|].
  set (raw_line := c0 :: line0).
  destruct (str_eqb (frame_of raw_line) (py "[DONE]")) eqn:E; [reflexivity|].
  repeat split.
  destruct (Json.loads (frame_of raw_line)) as [chunk|e]; [|reflexivity].
  destruct (piece_of chunk) as [[text|]|e] eqn:Ep; [| |exact I];
    apply piece_of_content in Ep.
  - destruct Ep as (piece & -> & ->). reflexivity.
  - rewrite Ep. reflexivity.
Qed.

Lemma for_lines_ok (src : line_source) :
  forall l p l' rest p',
    for_lines src l p = (Ok (l', rest), p') ->
    text_buffer l' = text_buffer l ++ flat_map fragment_of (heard src)
    /\ raw_lines l' = raw_lines l ++ frames (heard src)
    /\ elements p' = elements p
    /\ log_placeholder p' =
       match frames (heard src) with
       | [] => log_placeholder p
       | _ :: _ => Some (display (raw_lines l'))
       end.
Proof.
  induction src as [|raw_line more IH|]; intros l p l' rest p'.
  - simpl. intros [= <- <- <-]. rewrite !app_nil_r. auto.
  - cbn [for_lines]. unfold bind. rewrite loop_body_round.
    pose proof (round_of_facts raw_line) as F.
    destruct (round_of raw_line) as [| |frame appended].
    + destruct F as (-> & Hd & Hf). cbn [heard]. rewrite Hd.
      intros H. apply IH in H as (Ht & Hr & He & Hl).
      unfold frames in *. cbn [flat_map filter nonempty].
      rewrite Hf. auto.
    + cbn [heard]. rewrite F. intros [= <- <- <-].
      cbn. rewrite !app_nil_r. auto.
    + destruct F as (-> & Hne & Hd & Hf). cbn [heard]. rewrite Hd.
      unfold frames. cbn [flat_map filter map]. rewrite Hne. cbn [map].
      destruct appended as [[text|]|e]; cbv zeta; [| |discriminate];
        intros H; apply IH in H as (Ht & Hr & He & Hl);
        cbn [text_buffer raw_lines elements log_placeholder] in *;
        rewrite Hf; fold (frames (heard more)) in *;
        (split; [rewrite Ht, <- ?app_assoc; reflexivity|]);
        (split; [rewrite Hr, <- app_assoc; reflexivity|]);
        (split; [exact He|]);
        rewrite Hl;
        (destruct (frames (heard more)); [rewrite Hr, app_nil_r|]; reflexivity).
  - simpl. discriminate.
Qed.

(** ** The text a streaming session accumulates *)

Lemma decode_stream_run (src : line_source) (p : page) :
  decode_stream src p =
  match for_lines src (mkLocals [] [])
          (mkPage None (elements p ++ [Success StreamConnected])) with
  | (Ok (l, rest), p') =>
      (Ok (mkDecoded (Str.strip (Str.join [] (text_buffer l)))
                     (raw_lines l) rest), p')
  | (Raise e, p') => (Raise e, p')
  end.
Proof.
  unfold decode_stream, bind, st_add, st_empty. cbn [elements log_placeholder].
  destruct (for_lines src _ _) as [[[l rest]|e] p']; reflexivity.
Qed.

Lemma for_lines_returns (src : line_source) :
  forall l p,
    fails_midstream src = false -> forallb quiet (heard src) = true ->
    exists l' rest p', for_lines src l p = (Ok (l', rest), p').
Proof.
  induction src as [|x more IH|]; intros l p; cbn [fails_midstream heard].
  - intros _ _. do 3 eexists. reflexivity.
  - rewrite for_lines_step. pose proof (round_of_facts x) as F.
    destruct (round_of x) as [| |frame appended] eqn:R.
    + destruct F as (_ & Hd & _). rewrite Hd. cbn [forallb].
      intros Hf Hq. apply andb_true_iff in Hq as [_ Hq]. auto.
    + intros _ _. do 3 eexists. reflexivity.
    + destruct F as (_ & _ & Hd & _). rewrite Hd. cbn [forallb].
      unfold quiet at 1. rewrite R.
      destruct appended as [[piece|]|e]; cbn [andb]; try discriminate;
        cbv zeta; auto.
  - discriminate.
Qed.

(** C3: at the end of a streaming session the accumulated text is the
    concatenation, in arrival order and without dropping repeats, of the
    normalized non-empty [delta.content] fragments of the lines read before
    the session stopped; white space is stripped once, around the whole.
    A session whose source does not fail, in which no line raises and whose
    frames are within the limits of the interpreter, does end with such a
    text. *)
Theorem accumulated_text_is_ordered_concatenation
    (src : line_source) (p : page) :
  (fails_midstream src = false -> forallb quiet (heard src) = true ->
   forallb modest (heard src) = true ->
   exists d p', decode_stream src p = (Ok d, p'))
  /\ (forall d p',
        decode_stream src p = (Ok d, p') ->
        final_text d = Str.strip (concat (flat_map fragment_of (heard src)))).
Proof.
  rewrite decode_stream_run. split.
  - intros Hf Hq _.
    destruct (@for_lines_returns src (mkLocals [] [])
                (mkPage None (elements p ++ [Success StreamConnected])) Hf Hq)
      as (l' & rest & p' & ->).
    eauto.
  - intros d p'.
    destruct (for_lines src _ _) as [[[l rest]|e] q] eqn:E; [|discriminate].
    intros [= <- <-]. apply for_lines_ok in E as (Ht & _).
    cbn [final_text]. rewrite join_empty_concat, Ht. reflexivity.
Qed.

(** The round trip of the specification, and a session whose fragments
    carry white space and misread text: the first is repaired, the white
    space inside is kept and that around the whole is stripped; the failed
    read behind the closing line is never reached. *)
Lemma accumulated_text_roundtrip :
  (fails_midstream roundtrip = false
   /\ forallb quiet (heard roundtrip) = true
   /\ forallb modest (heard roundtrip) = true
   /\ exists d p',
        decode_stream roundtrip blank = (Ok d, p')
        /\ final_text d = py "AB")
  /\ let src := of_lines [frame_cafe; frame_padded_B; frame_DONE] Broken in
     fails_midstream src = false
     /\ forallb quiet (heard src) = true
     /\ forallb modest (heard src) = true
     /\ exists d p',
          decode_stream src blank = (Ok d, p')
          /\ final_text d = [99; 97; 102; 233; 32; 66]%N.
Proof.
  split.
  - split; [reflexivity|]. split; [vm_compute; reflexivity|].
    split; [vm_compute; reflexivity|].
    destruct (proj1 (accumulated_text_is_ordered_concatenation roundtrip blank)
                eq_refl ltac:(vm_compute; reflexivity)
                ltac:(vm_compute; reflexivity)) as (d & p' & E).
    exists d, p'. split; [exact E|].
    rewrite (proj2 (accumulated_text_is_ordered_concatenation roundtrip blank)
               d p' E).
    vm_compute. reflexivity.
  - intros src.
    split; [reflexivity|]. split; [vm_compute; reflexivity|].
    split; [vm_compute; reflexivity|].
    destruct (proj1 (accumulated_text_is_ordered_concatenation src blank)
                eq_refl ltac:(vm_compute; reflexivity)
                ltac:(vm_compute; reflexivity)) as (d & p' & E).
    exists d, p'. split; [exact E|].
    rewrite (proj2 (accumulated_text_is_ordered_concatenation src blank)
               d p' E).
    vm_compute. reflexivity.
Defined.

(** ** Lines of white space *)

Ltac btest :=
  repeat match goal with
    | |- context [N.eqb ?a ?b] =>
        destruct (N.eqb_spec a b); try (exfalso; lia); cbn [andb orb negb]
    | |- context [N.leb ?a ?b] =>
        destruct (N.leb_spec a b); try (exfalso; lia); cbn [andb orb negb]
    end.

Lemma isspace_range (c : codepoint) :
  Str.isspace c = true ->
  (9 <= c <= 13 \/ 28 <= c <= 32 \/ c = 133 \/ c = 160 \/ 5760 <= c)%N.
Proof.
  unfold Str.isspace. intros H.
  repeat (rewrite orb_true_iff in H || rewrite andb_true_iff in H).
  rewrite ?N.leb_le, ?N.eqb_eq in H. lia.
Qed.

Lemma literal_other_head (word : str) (v : value) (c : codepoint) (tl : str) :
  match word with w0 :: _ => w0 <> c | [] => False end ->
  Json.literal word v (c :: tl) = None.
Proof.
  destruct word as [|w0 word]; [tauto|]. intros H.
  unfold Json.literal. simpl.
  destruct (N.eqb_spec w0 c); [contradiction|reflexivity].
Qed.

Lemma match_number_other_head (c : codepoint) (tl : str) :
  c <> 45%N -> (c < 48 \/ 57 < c)%N -> Json.match_number (c :: tl) = None.
Proof.
  intros H1 H2. unfold Json.match_number. btest; reflexivity.
Qed.

Lemma space_starts_no_value (c : codepoint) (tl : str) (fuel : nat) :
  Str.isspace c = true -> Json.is_ws c = false ->
  Json.scan_once (S fuel) (c :: tl) = Json.Invalid.
Proof.
  intros Hs Hw. apply isspace_range in Hs.
  assert (Hc : (11 <= c <= 12 \/ 28 <= c <= 31 \/ c = 133 \/ c = 160
                \/ 5760 <= c)%N).
  { unfold Json.is_ws in Hw.
    repeat (rewrite orb_false_iff in Hw). rewrite !N.eqb_neq in Hw. lia. }
  clear Hs Hw.
  cbn [Json.scan_once]. btest.
  unfold Json.scan_atom. cbn [fold_right].
  rewrite !literal_other_head by (vm_compute; lia).
  rewrite match_number_other_head by lia.
  reflexivity.
Qed.

Lemma skip_ws_of_spaces (s : str) :
  forallb Str.isspace s = true ->
  match Json.skip_ws s with
  | [] => True
  | c :: _ => Str.isspace c = true /\ Json.is_ws c = false
  end.
Proof.
  induction s as [|c s IH]; simpl; [trivial|].
  rewrite andb_true_iff. intros [Hc Hs].
  destruct (Json.is_ws c) eqn:E; [apply IH; exact Hs|]. split; assumption.
Qed.

Lemma loads_blank (s : str) :
  forallb Str.isspace s = true -> Json.loads s = Raise JSONDecodeError.
Proof.
  intros H. unfold Json.loads.
  destruct (Str.startswith [65279%N] s); [reflexivity|].
  pose proof (skip_ws_of_spaces s H) as Hk.
  replace (2 * List.length s + 1) with (S (2 * List.length s)) by lia.
  destruct (Json.skip_ws s) as [|c tl]; [reflexivity|].
  destruct Hk as [Hs Hw]. rewrite space_starts_no_value by assumption.
  reflexivity.
Qed.

Lemma frame_of_blank (s : str) :
  forallb Str.isspace s = true -> frame_of s = s.
Proof.
  intros H. unfold frame_of.
  destruct (Str.after_prefix (py "data:") s) as [r|] eqn:E; [|reflexivity].
  apply after_prefix_app in E. subst s. simpl in H. discriminate.
Qed.

Lemma blank_not_done (s : str) :
  forallb Str.isspace s = true -> str_eqb s (py "[DONE]") = false.
Proof.
  intros H. apply str_eqb_neq. intros ->. simpl in H. discriminate.
Qed.

Lemma frame_of_data (rest : str) :
  frame_of (py "data:" ++ rest) = Str.strip rest.
Proof.
  unfold frame_of.
  assert (E : Str.after_prefix (py "data:") (py "data:" ++ rest) = Some rest)
    by (apply after_prefix_app; reflexivity).
  rewrite E. reflexivity.
Qed.

Lemma round_of_blank (ws : str) :
  ws <> [] -> forallb Str.isspace ws = true ->
  round_of ws = Logged ws (Ok None).
Proof.
  intros Hne H. unfold round_of. destruct ws as [|c ws']; [congruence|].
  rewrite (frame_of_blank _ H), (blank_not_done _ H), (loads_blank _ H).
  reflexivity.
Qed.

Lemma round_of_data_blank (ws : str) :
  forallb Str.isspace ws = true ->
  round_of (py "data:" ++ ws) = Logged [] (Ok None).
Proof.
  intros H. unfold round_of.
  change (py "data:" ++ ws) with (100%N :: py "ata:" ++ ws) at 1.
  cbv iota.
  change (100%N :: py "ata:" ++ ws) with (py "data:" ++ ws).
  rewrite frame_of_data, strip_all_space by assumption.
  reflexivity.
Qed.

(** C7, as the code has it: an empty line leaves text and log as they
    were; a line of white space only, and a [data:] line with nothing but
    white space after the prefix, add nothing to the text but do enter the
    log, the first as it came and the second as an empty entry. *)
Theorem blank_lines_and_the_log
    (more : line_source) (l : locals) (p : page) :
  for_lines (Yield [] more) l p = for_lines more l p
  /\ (forall ws,
        ws <> [] -> forallb Str.isspace ws = true ->
        for_lines (Yield ws more) l p =
        for_lines more (mkLocals (text_buffer l) (raw_lines l ++ [ws]))
          (mkPage (Some (display (raw_lines l ++ [ws]))) (elements p)))
  /\ (forall ws,
        forallb Str.isspace ws = true ->
        for_lines (Yield (py "data:" ++ ws) more) l p =
        for_lines more (mkLocals (text_buffer l) (raw_lines l ++ [[]]))
          (mkPage (Some (display (raw_lines l ++ [[]]))) (elements p))).
Proof.
  repeat split.
  - intros ws Hne H. rewrite for_lines_step, round_of_blank by assumption.
    reflexivity.
  - intros ws H. rewrite for_lines_step, round_of_data_blank by assumption.
    reflexivity.
Qed.

Lemma blank_lines_and_the_log_at_a_space :
  py " " <> []
  /\ forallb Str.isspace (py " ") = true
  /\ for_lines (Yield (py " ") Exhausted) (mkLocals [] []) blank =
     for_lines Exhausted (mkLocals [] [py " "])
       (mkPage (Some (display ([] ++ [py " "]))) []).
Proof.
  split; [discriminate|]. split; [reflexivity|].
  apply (proj1 (proj2 (blank_lines_and_the_log Exhausted (mkLocals [] []) blank)));
    [discriminate | reflexivity].
Defined.

(** C7 as stated fails: a line of two spaces, and a [data:] line with
    only spaces after the prefix, each leave an entry in the log. *)
Lemma blank_lines_reach_the_log :
  Str.strip (py "  ") = []
  /\ fst (run (decode_stream (of_lines [py "  "] Exhausted)))
     = Ok (mkDecoded [] [py "  "] Exhausted)
  /\ fst (run (decode_stream (of_lines [py "data:  "] Exhausted)))
     = Ok (mkDecoded [] [[]] Exhausted).
Proof. repeat split; vm_compute; reflexivity. Qed.

(** ** Frames without content *)

(** What the loop does absorb: a line that is not empty and does not end
    the session, and whose frame is not valid JSON or is an object with no
    content to take.  The loop goes on to the next line, the frame is
    appended to the log and shown, the text buffer is unchanged. *)
Lemma frame_without_content_is_absorbed
    (raw_line : str) (more : line_source) (l : locals) (p : page) :
  raw_line <> [] ->
  done_line raw_line = false ->
  (Json.loads (frame_of raw_line) = Raise JSONDecodeError
   \/ exists chunk, Json.loads (frame_of raw_line) = Ok chunk
                    /\ absorbed_chunk chunk = true) ->
  for_lines (Yield raw_line more) l p =
  for_lines more
    (mkLocals (text_buffer l) (raw_lines l ++ [frame_of raw_line]))
    (mkPage (Some (display (raw_lines l ++ [frame_of raw_line]))) (elements p)).
Proof.
  intros Hne Hd Hshape. rewrite for_lines_step. unfold round_of.
  destruct raw_line as [|c0 line0]; [congruence|].
  unfold done_line in Hd. rewrite Hd.
  destruct Hshape as [-> | (chunk & -> & Ha)]; [reflexivity|].
  apply piece_of_absorbed in Ha. rewrite Ha. reflexivity.
Qed.

Example comment_line_is_absorbed :
  for_lines (Yield (py ": ping") Exhausted) (mkLocals [] []) blank =
  for_lines Exhausted
    (mkLocals [] ([] ++ [frame_of (py ": ping")]))
    (mkPage (Some (display ([] ++ [frame_of (py ": ping")]))) []).
Proof.
  apply frame_without_content_is_absorbed;
    [discriminate | reflexivity | left; vm_compute; reflexivity].
Qed.

(** The empty line is not valid JSON either; it is skipped before the log
    is touched. *)
Example empty_line_is_not_logged :
  Json.loads [] = Raise JSONDecodeError
  /\ run (for_lines (Yield [] Exhausted) (mkLocals [] []))
     = (Ok (mkLocals [] [], Exhausted), blank).
Proof. split; reflexivity. Qed.

(** A frame that is valid JSON and not an object ends the loop with
    [AttributeError], after it was logged. *)
Lemma frame_not_an_object_raises
    (raw_line : str) (more : line_source) (l : locals) (p : page)
    (chunk : value) :
  raw_line <> [] ->
  done_line raw_line = false ->
  Json.loads (frame_of raw_line) = Ok chunk ->
  (forall pairs, chunk <> VDict pairs) ->
  for_lines (Yield raw_line more) l p =
  (Raise AttributeError,
   mkPage (Some (display (raw_lines l ++ [frame_of raw_line]))) (elements p)).
Proof.
  intros Hne Hd Hload Hshape. rewrite for_lines_step. unfold round_of.
  destruct raw_line as [|c0 line0]; [congruence|].
  unfold done_line in Hd. rewrite Hd, Hload.
  destruct chunk; try reflexivity. exfalso. eapply Hshape. reflexivity.
Qed.

(** C1 fails on the code: a frame that is valid JSON of another shape than
    the expected one is not absorbed.  The frames [[]] and [null], and an
    object whose [choices] holds a number, whose [delta] is a text or whose
    [content] is a number, each end the session with an exception; the
    lines after them are never read. *)
Theorem frame_of_another_shape_raises :
  Json.loads (py "[]") = Ok (VList [])
  /\ fst (run (decode_stream
                 (of_lines [frame_A; py "data: []"; frame_B; frame_DONE]
                           Exhausted)))
     = Raise AttributeError
  /\ fst (run (decode_stream (of_lines [py "data: null"; frame_A] Exhausted)))
     = Raise AttributeError
  /\ fst (run (decode_stream
                 (of_lines [quoted "data: {'choices':[1]}"; frame_A] Exhausted)))
     = Raise AttributeError
  /\ fst (run (decode_stream
                 (of_lines [quoted "data: {'choices':7}"; frame_A] Exhausted)))
     = Raise TypeError
  /\ fst (run (decode_stream
                 (of_lines [quoted "data: {'choices':[{'delta':'x'}]}"; frame_A]
                           Exhausted)))
     = Raise AttributeError
  /\ fst (run (decode_stream
                 (of_lines
                    [quoted "data: {'choices':[{'delta':{'content':5}}]}"; frame_A]
                    Exhausted)))
     = Raise AttributeError.
Proof. repeat split; vm_compute; reflexivity. Qed.

(** ** Where a session stops *)

Lemma done_line_iff (raw_line : str) :
  done_line raw_line = true <-> DoneLine raw_line.
Proof.
  unfold done_line, DoneLine, frame_of. split.
  - destruct (Str.after_prefix (py "data:") raw_line) as [rest|] eqn:E.
    + apply after_prefix_app in E. intros H. apply str_eqb_eq in H.
      destruct (strip_split rest) as (ws1 & ws2 & H1 & H2 & Hrest).
      right. exists ws1, ws2. rewrite H in Hrest. subst. auto.
    + intros H. apply str_eqb_eq in H. auto.
  - intros [-> | (ws1 & ws2 & H1 & H2 & ->)]; [reflexivity|].
    assert (E : Str.after_prefix (py "data:")
                  (py "data:" ++ ws1 ++ py "[DONE]" ++ ws2)
                = Some (ws1 ++ py "[DONE]" ++ ws2))
      by (apply after_prefix_app; reflexivity).
    rewrite E. apply str_eqb_eq.
    apply (@strip_padded ws1 ws2 (py "[DONE]") 91%N 93%N (py "DONE]"));
      auto; try reflexivity.
    exists (py "[DONE"); reflexivity.
Qed.

Lemma round_of_done (raw_line : str) :
  done_line raw_line = true -> round_of raw_line = Stopped.
Proof.
  unfold done_line, round_of. intros H.
  destruct raw_line as [|c line]; [discriminate|].
  rewrite H. reflexivity.
Qed.

Lemma round_of_not_done (raw_line : str) :
  done_line raw_line = false -> round_of raw_line <> Stopped.
Proof.
  intros H E. pose proof (round_of_facts raw_line) as F.
  rewrite E in F. congruence.
Qed.

Lemma for_lines_until_done (pre : list str) :
  forall raw_line rest l p,
    forallb (fun x => negb (done_line x)) pre = true ->
    done_line raw_line = true ->
    for_lines (of_lines pre (Yield raw_line rest)) l p =
    match for_lines (of_lines pre Exhausted) l p with
    | (Ok (l', _), p') => (Ok (l', rest), p')
    | (Raise e, p') => (Raise e, p')
    end.
Proof.
  induction pre as [|x pre IH]; intros raw_line rest l p Hpre Hd.
  - cbn [of_lines]. rewrite for_lines_step, (round_of_done _ Hd). reflexivity.
  - cbn [of_lines forallb] in *. apply andb_true_iff in Hpre as [Hx Hpre].
    apply negb_true_iff in Hx. apply round_of_not_done in Hx.
    rewrite !for_lines_step.
    destruct (round_of x) as [| |frame [[piece|]|e]]; try congruence;
      cbv zeta; auto.
Qed.

Lemma for_lines_stops (src : line_source) :
  forall l p l' rest p',
    for_lines src l p = (Ok (l', rest), p') ->
    forallb (fun x => negb (done_line x)) (heard src) = true
    /\ ((exists raw_line,
           done_line raw_line = true
           /\ src = of_lines (heard src) (Yield raw_line rest))
        \/ (rest = Exhausted /\ src = of_lines (heard src) Exhausted)).
Proof.
  induction src as [|x more IH|]; intros l p l' rest p'.
  - simpl. intros [= <- <- <-]. auto.
  - rewrite for_lines_step. pose proof (round_of_facts x) as F.
    cbn [heard].
    destruct (round_of x) as [| |frame appended].
    + destruct F as (-> & Hd & _). rewrite Hd. intros H.
      apply IH in H as (Hall & Hend). cbn [forallb of_lines]. rewrite Hd.
      split; [exact Hall|].
      destruct Hend as [(y & Hy & E) | (-> & E)];
        [left; exists y | right]; rewrite <- E; auto.
    + rewrite F. intros [= <- <- <-]. split; [reflexivity|].
      left. exists x. auto.
    + destruct F as (_ & _ & Hd & _). rewrite Hd.
      destruct appended as [[piece|]|e]; cbv zeta; [| |discriminate];
        intros H; apply IH in H as (Hall & Hend);
        cbn [forallb of_lines]; rewrite Hd;
        (split; [exact Hall|]);
        (destruct Hend as [(y & Hy & E) | (-> & E)];
         [left; exists y | right]; rewrite <- E; auto).
  - simpl. discriminate.
Qed.

(** C4, as the code has it: the lines that end a session are [[DONE]]
    exactly, and [data:] followed by [[DONE]] with any white space around
    it.  At the first such line the loop returns what it would return had
    the source ended there, and leaves everything after the line unread;
    and whenever the loop returns, it stopped at such a line or the source
    was exhausted with no such line in it. *)
Theorem session_stops_at_the_done_line :
  (forall raw_line, done_line raw_line = true <-> DoneLine raw_line)
  /\ (forall pre raw_line rest l p,
        Forall (fun x => ~ DoneLine x) pre -> DoneLine raw_line ->
        for_lines (of_lines pre (Yield raw_line rest)) l p =
        match for_lines (of_lines pre Exhausted) l p with
        | (Ok (l', _), p') => (Ok (l', rest), p')
        | (Raise e, p') => (Raise e, p')
        end)
  /\ (forall src l p l' rest p',
        for_lines src l p = (Ok (l', rest), p') ->
        exists pre,
          Forall (fun x => ~ DoneLine x) pre
          /\ ((exists raw_line,
                 DoneLine raw_line /\ src = of_lines pre (Yield raw_line rest))
              \/ (rest = Exhausted /\ src = of_lines pre Exhausted))).
Proof.
  split; [exact done_line_iff|]. split.
  - intros pre raw_line rest l p Hpre Hd.
    apply for_lines_until_done; [|apply done_line_iff; exact Hd].
    apply forallb_forall. intros x Hx.
    rewrite Forall_forall in Hpre. specialize (Hpre x Hx).
    destruct (done_line x) eqn:E; [|reflexivity].
    apply done_line_iff in E. contradiction.
  - intros src l p l' rest p' H.
    apply for_lines_stops in H as (Hall & Hend).
    exists (heard src). split.
    + apply Forall_forall. intros x Hx.
      rewrite forallb_forall in Hall. specialize (Hall x Hx).
      intros D. apply done_line_iff in D. rewrite D in Hall. discriminate.
    + destruct Hend as [(y & Hy & E) | (-> & E)]; [left | right; auto].
      exists y. split; [apply done_line_iff; exact Hy | exact E].
Qed.

Lemma session_stops_at_data_done :
  Forall (fun x => ~ DoneLine x) [frame_A]
  /\ DoneLine (py "data:   [DONE]")
  /\ for_lines (of_lines [frame_A] (Yield (py "data:   [DONE]") (Yield frame_B Broken)))
       (mkLocals [] []) blank =
     match for_lines (of_lines [frame_A] Exhausted) (mkLocals [] []) blank with
     | (Ok (l', _), p') => (Ok (l', Yield frame_B Broken), p')
     | (Raise e, p') => (Raise e, p')
     end.
Proof.
  assert (HA : Forall (fun x => ~ DoneLine x) [frame_A]).
  { constructor; [|constructor]. intros D.
    apply (proj1 session_stops_at_the_done_line) in D. discriminate. }
  assert (HD : DoneLine (py "data:   [DONE]")).
  { right. exists (py "   "), []. repeat split. }
  split; [exact HA|]. split; [exact HD|].
  exact (proj1 (proj2 session_stops_at_the_done_line)
           [frame_A] (py "data:   [DONE]") (Yield frame_B Broken)
           (mkLocals [] []) blank HA HD).
Defined.

(** C4 as stated fails: [[DONE]] followed by a space is the sentinel once
    trimmed, and the session reads on past it. *)
Lemma padded_done_does_not_stop :
  Str.strip (py "[DONE] ") = py "[DONE]"
  /\ fst (run (decode_stream (of_lines [py "[DONE] "; frame_A] Exhausted)))
     = Ok (mkDecoded (py "A") [py "[DONE] "; frame_of frame_A] Exhausted).
Proof. split; vm_compute; reflexivity. Qed.

(** ** The log and what the placeholder shows *)

Lemma last_n_length {A} (n : nat) (xs : list A) :
  List.length (last_n n xs) = Nat.min n (List.length xs).
Proof. unfold last_n. rewrite length_skipn. lia. Qed.

Lemma last_n_suffix {A} (n : nat) (xs : list A) :
  xs = firstn (List.length xs - n) xs ++ last_n n xs.
Proof. unfold last_n. symmetry. apply firstn_skipn. Qed.

(** C9, as the code has it: the log of a session holds the frame of every
    line read, however many; the placeholder shows the last forty of them
    at most, in order of arrival, one per line. *)
Theorem log_keeps_all_and_shows_last_forty
    (src : line_source) (p p' : page) (d : decoded) :
  decode_stream src p = (Ok d, p') ->
  log d = frames (heard src)
  /\ log_placeholder p' =
     match log d with
     | [] => None
     | _ :: _ =>
         let shown := Str.join [10%N] (last_n 40 (log d)) in
         Some (if nonempty shown then shown else EMPTY_LOG)
     end
  /\ List.length (last_n 40 (log d)) = Nat.min 40 (List.length (log d))
  /\ log d = firstn (List.length (log d) - 40) (log d) ++ last_n 40 (log d).
Proof.
  rewrite decode_stream_run.
  destruct (for_lines src _ _) as [[[l rest]|e] q] eqn:E; [|discriminate].
  intros [= <- <-]. apply for_lines_ok in E as (_ & Hr & _ & Hl).
  cbn [log raw_lines log_placeholder] in *.
  split; [exact Hr|]. split; [|split; [apply last_n_length | apply last_n_suffix]].
  rewrite Hl, Hr. reflexivity.
Qed.

Lemma log_of_the_roundtrip :
  match run (decode_stream roundtrip) with
  | (Ok d, p') => log d = [frame_of frame_A; frame_of frame_B]
                  /\ log_placeholder p'
                     = Some (Str.join [10%N] [frame_of frame_A; frame_of frame_B])
  | (Raise _, _) => False
  end.
Proof.
  unfold run.
  destruct (decode_stream roundtrip blank) as [[d|e] p'] eqn:E.
  - destruct (log_keeps_all_and_shows_last_forty _ _ E) as (Hlog & Hshown & _).
    rewrite Hshown, Hlog. split; vm_compute; reflexivity.
  - vm_compute in E. discriminate.
Defined.

(** C9 as stated fails: after forty-one frames the log holds forty-one
    entries. *)
Lemma log_grows_past_forty :
  match fst (run (decode_stream (of_lines (repeat (py "{}") 41) Exhausted))) with
  | Ok d => List.length (log d) = 41
  | Raise _ => False
  end.
Proof. vm_compute. reflexivity. Qed.

(** ** A source that fails *)

Lemma for_lines_fails (src : line_source) :
  forall l p,
    fails_midstream src = true ->
    exists e p',
      for_lines src l p = (Raise e, p')
      /\ elements p' = elements p
      /\ (forallb quiet (heard src) = true ->
          e = ChunkedEncodingError
          /\ log_placeholder p' =
             match frames (heard src) with
             | [] => log_placeholder p
             | _ :: _ => Some (display (raw_lines l ++ frames (heard src)))
             end).
Proof.
  induction src as [|x more IH|]; intros l p; cbn [fails_midstream].
  - discriminate.
  - rewrite for_lines_step. pose proof (round_of_facts x) as F.
    cbn [heard].
    destruct (round_of x) as [| |frame appended] eqn:R.
    + destruct F as (-> & Hd & _). rewrite Hd. intros H.
      destruct (IH l p H) as (e & p' & E & He & Hq).
      exists e, p'. split; [exact E|]. split; [exact He|].
      cbn [forallb]. unfold quiet at 1. rewrite R. exact Hq.
    + rewrite F. discriminate.
    + destruct F as (-> & Hne & Hd & _). rewrite Hd. intros H.
      unfold frames. cbn [forallb filter map]. rewrite Hne. cbn [map].
      fold (frames (heard more)). unfold quiet at 1. rewrite R.
      destruct appended as [[piece|]|e0]; cbv zeta.
      3: { eexists; eexists. split; [reflexivity|]. split; [reflexivity|].
           discriminate. }
      all: match goal with
           | |- context [for_lines _ ?l1 ?p1] =>
               destruct (IH l1 p1 H) as (e & p' & E & He & Hq)
           end;
        exists e, p'; (split; [exact E|]); (split; [exact He|]);
        intros Hall; destruct (Hq Hall) as (-> & Hl);
        (split; [reflexivity|]); rewrite Hl;
        cbn [raw_lines log_placeholder];
        (destruct (frames (heard more));
         [rewrite ?app_nil_r | rewrite <- app_assoc]; reflexivity).
  - intros _. exists ChunkedEncodingError, p. repeat split.
Qed.

(** C6, as the code has it: when the source fails before a line ends the
    session, the session ends with an exception and the page holds the
    connection notice and nothing else below it: no text is shown.  When no
    line raised before and the frames are within the limits of the
    interpreter, the exception is that of the failed read, and the
    placeholder still shows the last state of the log. *)
Theorem failed_read_shows_no_text (src : line_source) (p : page) :
  fails_midstream src = true ->
  exists e p',
    stream_branch src p = (Raise e, p')
    /\ elements p' = elements p ++ [Success StreamConnected]
    /\ (forallb quiet (heard src) = true ->
        forallb modest (heard src) = true ->
        e = ChunkedEncodingError
        /\ log_placeholder p' =
           match frames (heard src) with
           | [] => None
           | _ :: _ => Some (display (frames (heard src)))
           end).
Proof.
  intros H. unfold stream_branch, bind. rewrite decode_stream_run.
  destruct (@for_lines_fails src (mkLocals [] [])
              (mkPage None (elements p ++ [Success StreamConnected])) H)
    as (e & p' & E & He & Hq).
  rewrite E. exists e, p'. split; [reflexivity|]. split; [exact He|].
  intros Hquiet _. exact (Hq Hquiet).
Qed.

Lemma failed_read_after_two_fragments :
  fails_midstream (of_lines [frame_A; frame_B] Broken) = true
  /\ forallb quiet (heard (of_lines [frame_A; frame_B] Broken)) = true
  /\ forallb modest (heard (of_lines [frame_A; frame_B] Broken)) = true
  /\ exists e p',
       stream_branch (of_lines [frame_A; frame_B] Broken) blank = (Raise e, p')
       /\ elements p' = [] ++ [Success StreamConnected]
       /\ e = ChunkedEncodingError
       /\ log_placeholder p'
          = Some (display [frame_of frame_A; frame_of frame_B]).
Proof.
  split; [reflexivity|]. split; [vm_compute; reflexivity|].
  split; [vm_compute; reflexivity|].
  destruct (@failed_read_shows_no_text
              (of_lines [frame_A; frame_B] Broken) blank eq_refl)
    as (e & p' & E & He & Hq).
  exists e, p'. split; [exact E|]. split; [exact He|].
  destruct (Hq ltac:(vm_compute; reflexivity) ltac:(vm_compute; reflexivity))
    as (-> & Hl).
  split; [reflexivity|]. rewrite Hl. vm_compute. reflexivity.
Defined.

(** C6 as stated fails: after two fragments and a failed read the session
    is an exception, and the page shows the connection notice and the log;
    the text "AB" is nowhere. *)
Lemma failed_read_drops_the_text :
  fst (run (stream_branch (of_lines [frame_A; frame_B] Broken)))
  = Raise ChunkedEncodingError
  /\ elements (snd (run (stream_branch (of_lines [frame_A; frame_B] Broken))))
     = [Success StreamConnected]
  /\ shown_text
       (elements (snd (run (stream_branch (of_lines [frame_A; frame_B] Broken)))))
     = None
  /\ fst (run (stream_branch (of_lines [frame_A; frame_B] Exhausted))) = Ok tt
  /\ shown_text
       (elements (snd (run (stream_branch (of_lines [frame_A; frame_B] Exhausted)))))
     = Some (py "AB").
Proof. repeat split; vm_compute; reflexivity. Qed.

(** ** [normalize_stream_text] *)

Lemma encode_latin1_ok (text : str) :
  Forall (fun c => (c <= 255)%N) text ->
  exists data, Codec.encode_latin1 text = Ok data.
Proof.
  induction 1 as [|c text Hc _ (data & IH)]; simpl; [eauto|].
  destruct (Byte.of_N c) as [b|] eqn:E.
  - rewrite IH. simpl. eauto.
  - apply Byte.of_N_None_iff in E. lia.
Qed.

Lemma encode_latin1_raises (text : str) :
  Exists (fun c => (255 < c)%N) text ->
  Codec.encode_latin1 text = Raise UnicodeEncodeError.
Proof.
  induction 1 as [c text Hc | c text _ IH]; simpl.
  - apply Byte.of_N_None_iff in Hc. rewrite Hc. reflexivity.
  - destruct (Byte.of_N c); [rewrite IH|]; reflexivity.
Qed.

Lemma decode_utf8_raises_only_decode_error (data : list byte) (n : nat) :
  List.length data <= n ->
  forall e, Codec.decode_utf8 data = Raise e -> e = UnicodeDecodeError.
Proof.
  revert data. induction n as [|n IH]; intros data Hn e.
  - destruct data; [discriminate | simpl in Hn; lia].
  - destruct data as [|b0 r0]; [discriminate|]. cbn [Codec.decode_utf8].
    assert (Hrec : forall r (k : str -> result str),
               List.length r <= n -> (forall s, k s <> Raise e) ->
               rbind (Codec.decode_utf8 r) k = Raise e ->
               e = UnicodeDecodeError).
    { intros r k Hr Hk.
      destruct (Codec.decode_utf8 r) as [s|e'] eqn:E; simpl.
      - intros H. exfalso. exact (Hk s H).
      - intros [= <-]. exact (IH r Hr e' E). }
    simpl in Hn.
    repeat match goal with
      | |- context [if ?b then _ else _] => destruct b
      | |- context [match ?r with [] => _ | _ :: _ => _ end] =>
          destruct r; simpl in Hn
      | |- rbind _ _ = _ -> _ =>
          apply Hrec; [lia | discriminate]
      | |- Raise _ = Raise _ -> _ => intros [= <-]; reflexivity
      end.
Qed.

(** On text within Latin-1 the function returns: the re-decoded text, or
    the text as it came when the bytes are not UTF-8. *)
Lemma normalize_within_latin1 (text : str) :
  Forall (fun c => (c <= 255)%N) text ->
  exists data,
    Codec.encode_latin1 text = Ok data
    /\ normalize_stream_text text
       = Ok match Codec.decode_utf8 data with
            | Ok decoded => decoded
            | Raise _ => text
            end.
Proof.
  intros H. destruct (encode_latin1_ok H) as (data & E).
  exists data. split; [exact E|].
  unfold normalize_stream_text. rewrite E.
  destruct (Codec.decode_utf8 data) as [decoded|e] eqn:D; [reflexivity|].
  apply (@decode_utf8_raises_only_decode_error data _ (le_n _)) in D.
  subst e. reflexivity.
Qed.

(** A character above U+00FF makes [encode] fail, and the function has no
    handler for that. *)
Lemma normalize_beyond_latin1 (text : str) :
  Exists (fun c => (255 < c)%N) text ->
  normalize_stream_text text = Raise UnicodeEncodeError.
Proof.
  intros H. unfold normalize_stream_text.
  rewrite (encode_latin1_raises H). reflexivity.
Qed.

(** C2 fails on the code: for the one-character text U+4E2D the function
    raises [UnicodeEncodeError] instead of returning the text, and a
    streaming session that receives the character in a fragment ends with
    that exception. *)
Theorem normalize_raises_on_a_cjk_character :
  normalize_stream_text [20013%N] = Raise UnicodeEncodeError
  /\ Json.loads (quoted "{'choices':[{'delta':{'content':'\u4e2d'}}]}")
     = Ok (VDict [(py "choices",
                   VList [VDict [(py "delta",
                                  VDict [(py "content", VStr [20013%N])])]])])
  /\ fst (run (stream_branch
                 (of_lines
                    [quoted "data: {'choices':[{'delta':{'content':'\u4e2d'}}]}"]
                    Exhausted)))
     = Raise UnicodeEncodeError.
Proof. repeat split; vm_compute; reflexivity. Qed.

(** ** [extract_first_url] *)

Lemma take_nonspace_split (s : str) :
  exists post,
    s = Re.take_nonspace s ++ post
    /\ run_to_space (Re.take_nonspace s) post.
Proof.
  unfold run_to_space.
  induction s as [|c s (post & Hs & Hall & Hpost)]; simpl.
  - exists []. auto.
  - destruct (Str.isspace c) eqn:E.
    + exists (c :: s). simpl. auto.
    + exists post. simpl. rewrite E, Hall, <- Hs. auto.
Qed.

Lemma take_nonspace_head (c : codepoint) (rest : str) :
  Str.isspace c = false ->
  Re.take_nonspace (c :: rest) = c :: Re.take_nonspace rest.
Proof. intros H; simpl; rewrite H; reflexivity. Qed.

Lemma match_rest_some (scheme s m : str) :
  Re.match_rest scheme s = Some m ->
  exists body post,
    s = py "://" ++ body ++ post /\ m = scheme ++ py "://" ++ body
    /\ body <> [] /\ run_to_space body post.
Proof.
  unfold Re.match_rest.
  destruct (Str.after_prefix (py "://") s) as [r|] eqn:E; [|discriminate].
  apply after_prefix_app in E. subst s.
  destruct (take_nonspace_split r) as (post & Hr & Hrun).
  destruct (Re.take_nonspace r) as [|c body] eqn:T; [discriminate|].
  intros [= <-]. exists (c :: body), post. rewrite <- Hr.
  split; [reflexivity|]. split; [reflexivity|].
  split; [discriminate | exact Hrun].
Qed.

Lemma match_rest_none (scheme s : str) :
  Re.match_rest scheme s = None ->
  forall c rest, s = py "://" ++ c :: rest -> Str.isspace c = true.
Proof.
  unfold Re.match_rest. intros H c rest ->.
  assert (E : Str.after_prefix (py "://") (py "://" ++ c :: rest)
              = Some (c :: rest)) by (apply after_prefix_app; reflexivity).
  rewrite E in H.
  destruct (Str.isspace c) eqn:Hc; [reflexivity|].
  rewrite (@take_nonspace_head c rest Hc) in H. discriminate.
Qed.

Lemma match_here_some (s m : str) :
  Re.match_here s = Some m ->
  exists scheme body post,
    (scheme = py "http" \/ scheme = py "https")
    /\ m = scheme ++ py "://" ++ body /\ s = m ++ post
    /\ body <> [] /\ run_to_space body post.
Proof.
  unfold Re.match_here.
  destruct (Str.after_prefix (py "http") s) as [r|] eqn:E; [|discriminate].
  apply after_prefix_app in E. subst s.
  destruct (match Str.after_prefix (py "s") r with
            | Some r' => Re.match_rest (py "https") r'
            | None => None
            end) as [m'|] eqn:Es.
  - intros [= <-].
    destruct (Str.after_prefix (py "s") r) as [r'|] eqn:E'; [|discriminate].
    apply after_prefix_app in E'. subst r.
    apply match_rest_some in Es as (body & post & -> & -> & Hb & Hrun).
    exists (py "https"), body, post.
    split; [auto|]. split; [reflexivity|].
    split; [rewrite <- !app_assoc; reflexivity|]. split; assumption.
  - intros H.
    apply match_rest_some in H as (body & post & -> & -> & Hb & Hrun).
    exists (py "http"), body, post.
    split; [auto|]. split; [reflexivity|].
    split; [rewrite <- !app_assoc; reflexivity|]. split; assumption.
Qed.

Lemma match_here_none (s : str) :
  Re.match_here s = None -> ~ url_start s.
Proof.
  unfold Re.match_here.
  intros H (scheme & c & rest & [-> | ->] & Hc & ->).
  - assert (E : Str.after_prefix (py "http") (py "http" ++ py "://" ++ c :: rest)
                = Some (py "://" ++ c :: rest))
      by (apply after_prefix_app; reflexivity).
    rewrite E in H. cbn [Str.after_prefix py map list_ascii_of_string app] in H.
    change (N_of_ascii "s" =? N_of_ascii ":")%N with false in H. cbv iota in H.
    apply match_rest_none with (c := c) (rest := rest) in H;
      [congruence | reflexivity].
  - assert (E : Str.after_prefix (py "http") (py "https" ++ py "://" ++ c :: rest)
                = Some (py "s" ++ py "://" ++ c :: rest))
      by (apply after_prefix_app; reflexivity).
    rewrite E in H.
    assert (E' : Str.after_prefix (py "s") (py "s" ++ py "://" ++ c :: rest)
                 = Some (py "://" ++ c :: rest))
      by (apply after_prefix_app; reflexivity).
    rewrite E' in H.
    destruct (Re.match_rest (py "https") (py "://" ++ c :: rest)) eqn:R;
      [discriminate|].
    apply match_rest_none with (c := c) (rest := rest) in R;
      [congruence | reflexivity].
Qed.

Lemma extract_first_url_cons (c : codepoint) (tl : str) :
  extract_first_url (c :: tl) =
  match Re.match_here (c :: tl) with
  | Some m => Some m
  | None => extract_first_url tl
  end.
Proof.
  unfold extract_first_url, Re.findall_url. cbn [Re.findall_from].
  destruct (Re.match_here (c :: tl)); reflexivity.
Qed.

Lemma extract_first_url_some (text : str) :
  forall u, extract_first_url text = Some u ->
  exists pre post scheme body,
    text = pre ++ u ++ post
    /\ (scheme = py "http" \/ scheme = py "https")
    /\ u = scheme ++ py "://" ++ body /\ body <> []
    /\ run_to_space body post
    /\ (forall pre1 pre2, pre = pre1 ++ pre2 -> pre2 <> [] ->
                          ~ url_start (pre2 ++ u ++ post)).
Proof.
  induction text as [|c tl IH]; intros u; [discriminate|].
  rewrite extract_first_url_cons.
  destruct (Re.match_here (c :: tl)) as [m|] eqn:E.
  - intros [= <-].
    apply match_here_some in E as (scheme & body & post & Hs & Hm & Ht & Hb & Hr).
    exists [], post, scheme, body.
    do 5 (split; [auto|]).
    intros pre1 pre2 Hp Hne. destruct pre1, pre2; simpl in Hp; congruence.
  - intros H. apply match_here_none in E.
    apply IH in H as (pre & post & scheme & body & -> & Hs & Hu & Hb & Hr & Hleft).
    exists (c :: pre), post, scheme, body.
    do 5 (split; [auto|]).
    intros pre1 pre2 Hp Hne. destruct pre1 as [|c1 pre1]; simpl in Hp.
    + subst pre2. exact E.
    + injection Hp as -> ->. apply (Hleft pre1 pre2); auto.
Qed.

Lemma extract_first_url_none (text : str) :
  extract_first_url text = None ->
  forall pre suffix, text = pre ++ suffix -> ~ url_start suffix.
Proof.
  induction text as [|c tl IH]; intros H pre suffix Ht.
  - destruct pre, suffix; try discriminate.
    intros (scheme & c & rest & [-> | ->] & _ & E); discriminate.
  - rewrite extract_first_url_cons in H.
    destruct (Re.match_here (c :: tl)) as [m|] eqn:E; [discriminate|].
    destruct pre as [|c1 pre]; simpl in Ht.
    + subst suffix. apply match_here_none. exact E.
    + injection Ht as -> ->. apply (IH H pre). reflexivity.
Qed.

(** C10, as the code has it: the result is the leftmost place where a
    scheme, [://] and at least one character other than white space
    start, taken from the scheme up to the next white space or the end of
    the text; there is no result exactly when no such place exists.  What
    follows a link without white space, a full stop for one, is part of
    the result and can change how it is classified. *)
Theorem first_url_is_the_leftmost_match :
  (forall text u,
     extract_first_url text = Some u ->
     exists pre post scheme body,
       text = pre ++ u ++ post
       /\ (scheme = py "http" \/ scheme = py "https")
       /\ u = scheme ++ py "://" ++ body /\ body <> []
       /\ run_to_space body post
       /\ (forall pre1 pre2, pre = pre1 ++ pre2 -> pre2 <> [] ->
                             ~ url_start (pre2 ++ u ++ post)))
  /\ (forall text,
        extract_first_url text = None ->
        forall pre suffix, text = pre ++ suffix -> ~ url_start suffix)
  /\ extract_first_url (py "watch https://x.com/v.mp4. now")
     = Some (py "https://x.com/v.mp4.")
  /\ classification_of
       (elements (snd (run (present_stream (py "watch https://x.com/v.mp4. now")))))
     = UnrecognizedLink
  /\ classification_of
       (elements (snd (run (present_stream (py "watch https://x.com/v.mp4 now")))))
     = RecognizedMedia.
Proof.
  split; [exact extract_first_url_some|].
  split; [exact extract_first_url_none|].
  repeat split; vm_compute; reflexivity.
Qed.

Lemma first_url_after_a_bare_scheme :
  extract_first_url (py "http:// https://a.b/c d") = Some (py "https://a.b/c")
  /\ exists pre post scheme body,
       py "http:// https://a.b/c d" = pre ++ py "https://a.b/c" ++ post
       /\ (scheme = py "http" \/ scheme = py "https")
       /\ py "https://a.b/c" = scheme ++ py "://" ++ body /\ body <> []
       /\ run_to_space body post
       /\ (forall pre1 pre2, pre = pre1 ++ pre2 -> pre2 <> [] ->
                             ~ url_start (pre2 ++ py "https://a.b/c" ++ post)).
Proof.
  split; [vm_compute; reflexivity|].
  apply (proj1 first_url_is_the_leftmost_match).
  vm_compute; reflexivity.
Defined.

(** C10 as stated fails: in the text [http://] the whole text is a run of
    characters other than white space that begins with [http://], and the
    function finds nothing. *)
Lemma bare_scheme_is_not_found :
  scheme_run (py "http://") (py "http://")
  /\ extract_first_url (py "http://") = None.
Proof.
  split; [|reflexivity].
  exists [], []. repeat split. left. reflexivity.
Qed.

(** A match may start in the middle of a run. *)
Example url_inside_a_run :
  extract_first_url (py "seehttp://a.b c") = Some (py "http://a.b").
Proof. vm_compute; reflexivity. Qed.

(** ** Media suffixes *)

Lemma lower_app (a b : str) : Str.lower (a ++ b) = Str.lower a ++ Str.lower b.
Proof. apply flat_map_app. Qed.

Lemma lower_char_cases (c : codepoint) :
  (exists c', Str.lower_char c = [c']) \/ Str.lower_char c = [105; 775]%N.
Proof.
  unfold Str.lower_char.
  repeat match goal with
    | |- context [if ?b then _ else _] => destruct b
    end; eauto.
Qed.

(** A suffix of the lowered text that has no U+0307 in it is the lowered
    form of a suffix of the text. *)
Lemma lower_suffix (url : str) :
  forall x suffix,
    Forall (fun c => c <> 775%N) suffix ->
    Str.lower url = x ++ suffix ->
    exists stem tail, url = stem ++ tail /\ Str.lower tail = suffix.
Proof.
  induction url as [|a url IH] using rev_ind; intros x suffix Hs H.
  - destruct x, suffix; try discriminate. exists [], []. auto.
  - destruct suffix as [|b suffix] using rev_ind.
    + exists (url ++ [a]), []. rewrite app_nil_r. auto.
    + clear IHsuffix. rewrite lower_app in H.
      cbn [Str.lower flat_map] in H. rewrite app_nil_r in H.
      apply Forall_app in Hs as [Hs Hb].
      destruct (lower_char_cases a) as [(a' & Ea) | Ea]; rewrite Ea in H.
      * rewrite app_assoc in H. apply app_inj_tail in H as [H ->].
        destruct (IH _ _ Hs H) as (stem & tail & -> & Ht).
        exists stem, (tail ++ [a]). rewrite <- app_assoc. split; [reflexivity|].
        rewrite lower_app. cbn [Str.lower flat_map]. rewrite app_nil_r, Ea, Ht.
        reflexivity.
      * change [105; 775]%N with ([105] ++ [775])%N in H.
        rewrite !app_assoc in H. apply app_inj_tail in H as [_ <-].
        inversion Hb; congruence.
Qed.

Lemma media_suffixes_are_lower (suffix : str) :
  In suffix MEDIA_SUFFIXES ->
  Str.lower suffix = suffix /\ Forall (fun c => c <> 775%N) suffix.
Proof.
  intros [<- | [<- | [<- | [<- | []]]]];
    (split; [reflexivity | repeat constructor; discriminate]).
Qed.

Lemma media_link_iff (url : str) :
  Str.endswith_any MEDIA_SUFFIXES (Str.lower url) = true <-> media_link url.
Proof.
  unfold Str.endswith_any, media_link. rewrite existsb_exists. split.
  - intros (suffix & Hin & H). apply endswith_app in H as (x & H).
    destruct (@media_suffixes_are_lower _ Hin) as (Hl & Hs).
    destruct (@lower_suffix _ _ _ Hs H) as (stem & tail & -> & Ht).
    exists suffix, stem, tail. rewrite Hl. auto.
  - intros (suffix & stem & tail & Hin & -> & Ht).
    exists suffix. split; [exact Hin|].
    destruct (@media_suffixes_are_lower _ Hin) as (Hl & _).
    apply endswith_app. exists (Str.lower stem).
    rewrite lower_app, Ht, Hl. reflexivity.
Qed.

(** ** Classification of the link *)

Lemma extract_first_url_nonempty (text url : str) :
  extract_first_url text = Some url -> nonempty url = true.
Proof.
  intros H.
  apply extract_first_url_some in H
    as (pre & post & scheme & body & _ & [-> | ->] & -> & _); reflexivity.
Qed.

Lemma present_stream_link (text : str) :
  let es := elements (snd (run (present_stream text))) in
  match extract_first_url text with
  | Some url =>
      candidate_of es = Some url
      /\ (media_link url -> classification_of es = RecognizedMedia)
      /\ (~ media_link url -> classification_of es = UnrecognizedLink)
  | None => candidate_of es = None /\ classification_of es = NoLink
  end.
Proof.
  unfold run, present_stream.
  destruct text as [|c tl]; [split; reflexivity|].
  cbn [nonempty]. unfold bind, st_add. cbn [elements log_placeholder blank app].
  destruct (extract_first_url (c :: tl)) as [url|] eqn:E; [|split; reflexivity].
  rewrite (extract_first_url_nonempty _ E). cbn [andb].
  destruct (Str.endswith_any MEDIA_SUFFIXES (Str.lower url)) eqn:S.
  - apply media_link_iff in S. repeat split; tauto.
  - assert (N : ~ media_link url)
      by (intros L; apply media_link_iff in L; congruence).
    repeat split; tauto.
Qed.

Lemma json_branch_link (data : value) (url : str) :
  find_video_url data = Ok (VStr url) ->
  fst (run (json_branch data)) = Ok tt
  /\ let es := elements (snd (run (json_branch data))) in
     match url with
     | [] => candidate_of es = None /\ classification_of es = NoLink
     | _ :: _ =>
         candidate_of es = Some url
         /\ (media_link url -> classification_of es = RecognizedMedia)
         /\ (~ media_link url -> classification_of es = UnrecognizedLink)
     end.
Proof.
  intros H. unfold run, json_branch, bind, st_add.
  cbn [elements log_placeholder blank app]. rewrite H.
  cbn [lift ret]. destruct url as [|c url']; [repeat split|].
  set (url := c :: url'). change (truthy (VStr url)) with true. cbv iota.
  cbn [has_media_suffix lift ret shown_url].
  destruct (Str.endswith_any MEDIA_SUFFIXES (Str.lower url)) eqn:S.
  - apply media_link_iff in S. repeat split; tauto.
  - assert (N : ~ media_link url)
      by (intros L; apply media_link_iff in L; congruence).
    repeat split; tauto.
Qed.

Lemma json_branch_nothing (data v : value) :
  find_video_url data = Ok v -> truthy v = false ->
  fst (run (json_branch data)) = Ok tt
  /\ candidate_of (elements (snd (run (json_branch data)))) = None
  /\ classification_of (elements (snd (run (json_branch data)))) = NoLink.
Proof.
  intros H F. unfold run, json_branch, bind, st_add.
  cbn [elements log_placeholder blank app]. rewrite H.
  cbn [lift ret]. rewrite F. repeat split.
Qed.

(** C5, as the code has it: the link the resolver settles on is
    classified RecognizedMedia exactly when the whole text of the link
    ends with [.mp4], [.mov], [.webm] or [.mkv] whatever the case, and
    UnrecognizedLink otherwise; nothing parses the link, so what follows
    the name of the file (a query, a fragment) hides the suffix.  The first
    part covers the text of a streaming session, in which the link is the
    first URL found and a text without URL is NoLink; the other two cover
    the single response, in which the link is the text taken from the
    response when it is not empty, a URL or not, and NoLink is the case
    where what is taken is false as a condition. *)
Theorem link_is_classified_by_its_suffix :
  (forall text,
     let es := elements (snd (run (present_stream text))) in
     match extract_first_url text with
     | Some url =>
         candidate_of es = Some url
         /\ (media_link url -> classification_of es = RecognizedMedia)
         /\ (~ media_link url -> classification_of es = UnrecognizedLink)
     | None => candidate_of es = None /\ classification_of es = NoLink
     end)
  /\ (forall data url,
        find_video_url data = Ok (VStr url) -> url <> [] ->
        let es := elements (snd (run (json_branch data))) in
        candidate_of es = Some url
        /\ (media_link url -> classification_of es = RecognizedMedia)
        /\ (~ media_link url -> classification_of es = UnrecognizedLink))
  /\ (forall data v,
        find_video_url data = Ok v -> truthy v = false ->
        let es := elements (snd (run (json_branch data))) in
        candidate_of es = None /\ classification_of es = NoLink).
Proof.
  split; [exact present_stream_link|]. split.
  - intros data url H Hne.
    destruct (json_branch_link _ H) as (_ & L).
    destruct url; [congruence | exact L].
  - intros data v H F. exact (proj2 (json_branch_nothing _ H F)).
Qed.

Lemma upper_case_suffix_is_recognized :
  extract_first_url (py "see https://host/path/video.MP4 now")
  = Some (py "https://host/path/video.MP4")
  /\ media_link (py "https://host/path/video.MP4")
  /\ classification_of
       (elements (snd (run (present_stream
                              (py "see https://host/path/video.MP4 now")))))
     = RecognizedMedia
  /\ find_video_url (response_with (VStr (py "https://host/path/video.MP4")))
     = Ok (VStr (py "https://host/path/video.MP4"))
  /\ classification_of
       (elements (snd (run (json_branch
          (response_with (VStr (py "https://host/path/video.MP4")))))))
     = RecognizedMedia.
Proof.
  assert (L : media_link (py "https://host/path/video.MP4")).
  { exists (py ".mp4"), (py "https://host/path/video"), (py ".MP4").
    repeat split. left. reflexivity. }
  assert (E : extract_first_url (py "see https://host/path/video.MP4 now")
              = Some (py "https://host/path/video.MP4"))
    by (vm_compute; reflexivity).
  split; [exact E|]. split; [exact L|]. split.
  - pose proof (proj1 link_is_classified_by_its_suffix
                  (py "see https://host/path/video.MP4 now")) as H.
    cbv zeta in H. rewrite E in H. destruct H as (_ & Hm & _).
    exact (Hm L).
  - split; [reflexivity|].
    apply (proj1 (proj2 link_is_classified_by_its_suffix)
             (response_with (VStr (py "https://host/path/video.MP4")))
             (py "https://host/path/video.MP4") eq_refl);
      [discriminate | exact L].
Defined.

(** C5 as stated fails.  A link whose path ends with [.mp4] and that goes
    on with a query is UnrecognizedLink, in both branches: the suffix
    compared is that of the whole link and not of its path.  And in the
    single response a text that contains no URL is UnrecognizedLink and
    not NoLink: it is taken as the link whole. *)
Lemma query_hides_the_suffix :
  extract_first_url (py "watch https://host/path/video.mp4?token=abc now")
  = Some (py "https://host/path/video.mp4?token=abc")
  /\ classification_of
       (elements (snd (run (present_stream
          (py "watch https://host/path/video.mp4?token=abc now")))))
     = UnrecognizedLink
  /\ classification_of
       (elements (snd (run (json_branch
          (response_with (VStr (py "https://host/path/video.mp4?token=abc")))))))
     = UnrecognizedLink
  /\ extract_first_url (py "still rendering") = None
  /\ classification_of
       (elements (snd (run (json_branch
          (response_with (VStr (py "still rendering")))))))
     = UnrecognizedLink
  /\ classification_of
       (elements (snd (run (present_stream (py "still rendering")))))
     = NoLink.
Proof. repeat split; vm_compute; reflexivity. Qed.

(** The examples of the specification. *)
Example classification_examples :
  classification_of
    (elements (snd (run (present_stream (py "https://host/path/video.MP4")))))
  = RecognizedMedia
  /\ classification_of
       (elements (snd (run (present_stream (py "https://host/path/page.html")))))
     = UnrecognizedLink
  /\ classification_of
       (elements (snd (run (present_stream (py "no link in this text")))))
     = NoLink.
Proof. repeat split; vm_compute; reflexivity. Qed.

(** ** The single response *)

Lemma find_video_url_path (data item : value) :
  first_content_item data = Some item ->
  find_video_url data = Ok (extracted_field item).
Proof.
  unfold first_content_item, find_video_url.
  destruct data as [| | | | | |top]; try discriminate.
  unfold py_get at 1. cbn [rbind].
  destruct (dict_lookup (py "choices") top)
    as [[| | | | |[|[| | | | | |choice] rest]|]|]; try discriminate.
  change (truthy (VList (VDict choice :: rest))) with true. cbv iota.
  cbn [py_first list_item nth_error rbind]. unfold py_get at 1. cbn [rbind].
  destruct (dict_lookup (py "message") choice)
    as [[| | | | | |message]|]; try discriminate.
  unfold py_get at 1. cbn [rbind].
  destruct (dict_lookup (py "content") message)
    as [[| | | | |[|first_item more]|]|]; try discriminate.
  intros [= ->].
  change (truthy (VList (item :: more))) with true. cbv iota.
  cbn [py_first list_item nth_error rbind].
  destruct item; reflexivity.
Qed.

(** C8, as the code has it: from a response in which the path exists, the
    resolver takes [choices[0].message.content[0]] when it is text, and of
    an object its [url], or its [text] when [url] is missing or false as a
    condition.  The text taken is the link as a whole: nothing is searched
    inside it.  It is classified by its suffix when it is not empty, and
    the page shows no link when it is empty or when what was taken is
    false as a condition.  The response of the scenario resolves to
    [https://x.com/v.webm], RecognizedMedia. *)
Theorem single_response_takes_the_field_whole (data item : value) :
  first_content_item data = Some item ->
  find_video_url data = Ok (extracted_field item)
  /\ (forall url,
        extracted_field item = VStr url ->
        fst (run (json_branch data)) = Ok tt
        /\ let es := elements (snd (run (json_branch data))) in
           match url with
           | [] => candidate_of es = None /\ classification_of es = NoLink
           | _ :: _ =>
               candidate_of es = Some url
               /\ (media_link url -> classification_of es = RecognizedMedia)
               /\ (~ media_link url -> classification_of es = UnrecognizedLink)
           end)
  /\ (truthy (extracted_field item) = false ->
      fst (run (json_branch data)) = Ok tt
      /\ candidate_of (elements (snd (run (json_branch data)))) = None
      /\ classification_of (elements (snd (run (json_branch data)))) = NoLink).
Proof.
  intros H. apply find_video_url_path in H.
  split; [exact H|]. split.
  - intros url E. rewrite E in H. exact (json_branch_link _ H).
  - intros F. exact (json_branch_nothing _ H F).
Qed.

Lemma single_response_scenario :
  first_content_item
    (response_with (VDict [(py "url", VStr (py "https://x.com/v.webm"))]))
  = Some (VDict [(py "url", VStr (py "https://x.com/v.webm"))])
  /\ fst (run (json_branch
       (response_with (VDict [(py "url", VStr (py "https://x.com/v.webm"))]))))
     = Ok tt
  /\ candidate_of (elements (snd (run (json_branch
       (response_with (VDict [(py "url", VStr (py "https://x.com/v.webm"))]))))))
     = Some (py "https://x.com/v.webm")
  /\ classification_of (elements (snd (run (json_branch
       (response_with (VDict [(py "url", VStr (py "https://x.com/v.webm"))]))))))
     = RecognizedMedia.
Proof.
  split; [reflexivity|].
  destruct (@single_response_takes_the_field_whole
              (response_with (VDict [(py "url", VStr (py "https://x.com/v.webm"))]))
              (VDict [(py "url", VStr (py "https://x.com/v.webm"))]) eq_refl)
    as (_ & Hurl & _).
  destruct (Hurl (py "https://x.com/v.webm") eq_refl) as (Hok & Hc & Hm & _).
  split; [exact Hok|]. split; [exact Hc|].
  apply Hm. exists (py ".webm"), (py "https://x.com/v"), (py ".webm").
  repeat split. right; right; left. reflexivity.
Defined.

(** C8 as stated fails: a text with a link inside is shown whole as an
    unrecognized link, where the first URL in it would end with [.mp4];
    and a text with no URL in it is shown as an unrecognized link too, not
    as no link. *)
Lemma single_response_is_not_searched :
  extract_first_url (py "ready: https://x.com/v.mp4 (expires soon)")
  = Some (py "https://x.com/v.mp4")
  /\ candidate_of (elements (snd (run (json_branch
       (response_with (VStr (py "ready: https://x.com/v.mp4 (expires soon)")))))))
     = Some (py "ready: https://x.com/v.mp4 (expires soon)")
  /\ classification_of (elements (snd (run (json_branch
       (response_with (VStr (py "ready: https://x.com/v.mp4 (expires soon)")))))))
     = UnrecognizedLink
  /\ extract_first_url (py "still rendering") = None
  /\ classification_of (elements (snd (run (json_branch
       (response_with (VStr (py "still rendering")))))))
     = UnrecognizedLink.
Proof. repeat split; vm_compute; reflexivity. Qed.

(** Content that is one text, not a list, is indexed all the same: its
    first character is what is taken. *)
Example content_as_text_yields_its_first_character :
  find_video_url
    (VDict [(py "choices",
             VList [VDict [(py "message",
                            VDict [(py "content",
                                    VStr (py "https://x.com/v.mp4"))])]])])
  = Ok (VStr (py "h")).
Proof. reflexivity. Qed.

(** * More of the program *)

(** ** [build_payload] *)

Lemma lstrip_snoc_solid (x : str) (c : codepoint) :
  Str.isspace c = false -> Str.lstrip (x ++ [c]) = Str.lstrip x ++ [c].
Proof.
  intros Hc. induction x as [|a x IH]; simpl.
  - rewrite Hc. reflexivity.
  - destruct (Str.isspace a); [exact IH | reflexivity].
Qed.

Lemma lstrip_idempotent (s : str) : Str.lstrip (Str.lstrip s) = Str.lstrip s.
Proof.
  destruct (lstrip_split s) as (ws & _ & _ & H).
  destruct (Str.lstrip s) as [|c t]; [reflexivity|].
  apply lstrip_solid. exact H.
Qed.

Lemma strip_idempotent (s : str) : Str.strip (Str.strip s) = Str.strip s.
Proof.
  unfold Str.strip.
  destruct (lstrip_split s) as (ws & _ & _ & H).
  destruct (Str.lstrip s) as [|c t]; [reflexivity|].
  assert (E : Str.rstrip (c :: t) = c :: rev (Str.lstrip (rev t))).
  { unfold Str.rstrip. cbn [rev]. rewrite lstrip_snoc_solid by exact H.
    rewrite rev_app_distr. reflexivity. }
  rewrite E, lstrip_solid by exact H. rewrite <- E.
  unfold Str.rstrip. rewrite rev_involutive, lstrip_idempotent. reflexivity.
Qed.

(** X1: the content of the message is never empty and is fixed item by
    item: it has one item for each input that is given, the prompt first
    as a text item, then the image address as an image item, then the
    instructions as a text item, each stripped; and it is the default
    prompt alone when none is given. *)
Theorem payload_content_is_never_empty
    (model text_prompt : str) (start_image_url extra_instructions : option str)
    (stream : bool) :
  let content :=
    message_content
      (build_payload model text_prompt start_image_url extra_instructions stream) in
  content <> []
  /\ List.length content
     = Nat.max 1 (inputs_given text_prompt start_image_url extra_instructions)
  /\ (inputs_given text_prompt start_image_url extra_instructions = 0 ->
      content = [text_item DEFAULT_PROMPT])
  /\ (nonempty text_prompt = true ->
      nth_error content 0 = Some (text_item (Str.strip text_prompt)))
  /\ (given start_image_url = true ->
      nth_error content (if nonempty text_prompt then 1 else 0)
      = Some (image_item (stripped start_image_url)))
  /\ (given extra_instructions = true ->
      nth_error content
        ((if nonempty text_prompt then 1 else 0)
         + (if given start_image_url then 1 else 0))
      = Some (text_item (stripped extra_instructions))).
Proof.
  unfold build_payload, inputs_given.
  destruct (nonempty text_prompt), (given start_image_url),
    (given extra_instructions); cbn;
    repeat split; try discriminate; try reflexivity; intros; discriminate.
Qed.

Lemma payload_content_of_a_prompt_an_image_and_a_note :
  message_content
    (build_payload (py "veo3") (py " a cat ") (Some (py " https://x.com/a.png"))
       (Some (py "slow ")) false)
  = [text_item (py "a cat"); image_item (py "https://x.com/a.png");
     text_item (py "slow")].
Proof.
  destruct (payload_content_is_never_empty
              (py "veo3") (py " a cat ") (Some (py " https://x.com/a.png"))
              (Some (py "slow ")) false)
    as (_ & Hlen & _ & Hfirst & Himage & Hlast).
  specialize (Hfirst eq_refl). specialize (Himage eq_refl).
  specialize (Hlast eq_refl).
  destruct (message_content _) as [|a [|b [|c [|d rest]]]];
    try discriminate Hlen.
  cbn in Hfirst, Himage, Hlast.
  injection Hfirst as ->. injection Himage as ->. injection Hlast as ->.
  vm_compute. reflexivity.
Defined.

(** X2: every text the payload carries was stripped: no item text or image
    URL starts or ends with white space. *)
Theorem payload_texts_are_stripped
    (model text_prompt : str) (start_image_url extra_instructions : option str)
    (stream : bool) :
  Forall (fun item => exists t, item_text item = Some t /\ Str.strip t = t)
    (message_content
       (build_payload model text_prompt start_image_url extra_instructions
          stream)).
Proof.
  assert (D : Str.strip DEFAULT_PROMPT = DEFAULT_PROMPT)
    by (vm_compute; reflexivity).
  unfold build_payload.
  destruct (nonempty text_prompt), (given start_image_url),
    (given extra_instructions); cbn;
    repeat constructor; eexists; (split; [reflexivity|]);
    try exact D; unfold stripped;
    repeat match goal with
      | |- context [match ?o with Some _ => _ | None => _ end] => destruct o
      end;
    try apply strip_idempotent; reflexivity.
Qed.

(** X3: a prompt of white space only counts as given, because it is
    tested before it is stripped: it is sent as a text item with empty
    text, first in the content, and the default prompt does not replace
    it. *)
Theorem blank_prompt_is_sent_empty
    (model ws : str) (start_image_url extra_instructions : option str)
    (stream : bool) :
  ws <> [] -> forallb Str.isspace ws = true ->
  hd_error
    (message_content
       (build_payload model ws start_image_url extra_instructions stream))
  = Some (text_item []).
Proof.
  intros Hne Hws. unfold build_payload.
  destruct ws as [|c ws']; [congruence|]. cbn [nonempty].
  rewrite (strip_all_space _ Hws).
  destruct (given start_image_url), (given extra_instructions); reflexivity.
Qed.

Lemma blank_prompt_is_sent_empty_at_two_spaces :
  py "  " <> []
  /\ forallb Str.isspace (py "  ") = true
  /\ hd_error
       (message_content
          (build_payload (py "veo3") (py "  ") (Some []) (Some []) false))
     = Some (text_item []).
Proof.
  split; [discriminate|]. split; [reflexivity|].
  apply blank_prompt_is_sent_empty; [discriminate | reflexivity].
Defined.

(** ** [json.dumps] and [json.loads] *)

Ltac divlia := zify; Z.to_euclidean_division_equations; lia.

Lemma hex_digit_char (d : N) :
  (d < 16)%N -> Json.hex_digit (Encoder.hex_char d) = Some d.
Proof.
  intros H. unfold Json.hex_digit, Encoder.hex_char.
  destruct (N.ltb_spec d 10); btest; f_equal; lia.
Qed.

Lemma hex4_u_escape (n : N) :
  (n < 65536)%N ->
  Json.hex4 (Encoder.hex_char (n / 4096)) (Encoder.hex_char ((n / 256) mod 16))
    (Encoder.hex_char ((n / 16) mod 16)) (Encoder.hex_char (n mod 16))
  = Some n.
Proof.
  intros H. unfold Json.hex4.
  rewrite !hex_digit_char by divlia. f_equal. divlia.
Qed.

Lemma scan_u_escape (n : N) (tail : str) :
  (n < 65536)%N -> Json.high_surrogate n = false ->
  Json.scanstring (Encoder.u_escape n ++ tail)
  = Json.push n (Json.scanstring tail).
Proof.
  intros H Hs. unfold Encoder.u_escape. cbn [app Json.scanstring].
  change (92 =? 34)%N with false. change (92 =? 92)%N with true.
  change (117 =? 117)%N with true. cbv iota.
  rewrite (hex4_u_escape H), Hs. reflexivity.
Qed.

Lemma scan_u_pair (c : N) (tail : str) :
  (65536 <= c <= 1114111)%N ->
  Json.scanstring
    (Encoder.u_escape (55296 + ((c - 65536) / 1024) mod 1024)
     ++ Encoder.u_escape (56320 + (c - 65536) mod 1024) ++ tail)
  = Json.push c (Json.scanstring tail).
Proof.
  intros H. unfold Encoder.u_escape. cbn [app Json.scanstring].
  change (92 =? 34)%N with false. change (92 =? 92)%N with true.
  change (117 =? 117)%N with true. cbv iota. cbn [andb].
  rewrite !hex4_u_escape by divlia.
  assert (Hh : Json.high_surrogate (55296 + ((c - 65536) / 1024) mod 1024) = true).
  { unfold Json.high_surrogate. apply andb_true_iff.
    split; apply N.leb_le; divlia. }
  assert (Hl : Json.low_surrogate (56320 + (c - 65536) mod 1024) = true).
  { unfold Json.low_surrogate. apply andb_true_iff.
    split; apply N.leb_le; divlia. }
  rewrite Hh, Hl. unfold Json.join_surrogates. do 2 f_equal. divlia.
Qed.

Lemma scan_escape_char (ascii : bool) (c : codepoint) (tail : str) :
  plain_text ascii [c] = true ->
  Json.scanstring (Encoder.escape_char ascii c ++ tail)
  = Json.push c (Json.scanstring tail).
Proof.
  unfold plain_text, Encoder.escape_char. cbn [forallb]. intros Hp.
  destruct (N.eqb_spec c 34) as [->|]; [reflexivity|].
  destruct (N.eqb_spec c 92) as [->|]; [reflexivity|].
  destruct (N.eqb_spec c 10) as [->|]; [reflexivity|].
  destruct (N.eqb_spec c 13) as [->|]; [reflexivity|].
  destruct (N.eqb_spec c 9) as [->|]; [reflexivity|].
  destruct (N.eqb_spec c 8) as [->|]; [reflexivity|].
  destruct (N.eqb_spec c 12) as [->|]; [reflexivity|].
  destruct (N.ltb_spec c 32).
  { apply scan_u_escape; [lia|].
    unfold Json.high_surrogate. apply andb_false_iff. left.
    apply N.leb_gt. lia. }
  assert (Hraw : Json.scanstring ([c] ++ tail) = Json.push c (Json.scanstring tail)).
  { cbn [app Json.scanstring]. btest.
    destruct (N.ltb_spec c 32); [lia | reflexivity]. }
  destruct ascii; cbn [andb negb orb] in *; [|exact Hraw].
  destruct (N.ltb_spec 126 c); [|exact Hraw].
  rewrite andb_true_r in Hp. unfold scalar in Hp.
  destruct (N.ltb_spec c 65536).
  - apply scan_u_escape; [lia|].
    unfold Json.high_surrogate.
    destruct (N.ltb_spec c 55296); cbn [orb] in Hp.
    + apply andb_false_iff. left. apply N.leb_gt. lia.
    + apply andb_true_iff in Hp as [Hp _]. apply N.ltb_lt in Hp.
      apply andb_false_iff. right. apply N.leb_gt. lia.
  - rewrite <- app_assoc. apply scan_u_pair.
    destruct (N.ltb_spec c 55296); [lia|]. cbn [orb] in Hp.
    apply andb_true_iff in Hp as [_ Hp]. apply N.leb_le in Hp. lia.
Qed.

Lemma plain_text_cons (ascii : bool) (c : codepoint) (s : str) :
  plain_text ascii (c :: s) = true ->
  plain_text ascii [c] = true /\ plain_text ascii s = true.
Proof.
  unfold plain_text. destruct ascii; cbn [negb orb forallb]; [|auto].
  rewrite andb_true_r. apply andb_true_iff.
Qed.

(** The body of an encoded string, read by the scanner, is the string. *)
Lemma scanstring_encoded (ascii : bool) (s rest : str) :
  plain_text ascii s = true ->
  Json.scanstring (flat_map (Encoder.escape_char ascii) s ++ 34%N :: rest)
  = Json.Done s rest.
Proof.
  induction s as [|c s IH]; intros Hp; [reflexivity|].
  apply plain_text_cons in Hp as [Hc Hs].
  cbn [flat_map]. rewrite <- app_assoc, (@scan_escape_char _ _ _ Hc), (IH Hs).
  reflexivity.
Qed.

Lemma pow2_succ (k : nat) : (2 ^ N.of_nat (S k) = 2 * 2 ^ N.of_nat k)%N.
Proof. rewrite Nat2N.inj_succ, N.pow_succ_r'. reflexivity. Qed.

Lemma size_nat_bound (n : N) : (n < 2 ^ N.of_nat (N.size_nat n))%N.
Proof.
  destruct n as [|p]; [reflexivity|]. cbn [N.size_nat].
  induction p as [p IH|p IH|]; cbn [Pos.size_nat]; rewrite ?pow2_succ;
    [lia | lia | reflexivity].
Qed.

Lemma digits_value_snoc (ds : str) (d : codepoint) :
  Json.digits_value (ds ++ [d])
  = (Json.digits_value ds * 10 + (Z.of_N d - 48))%Z.
Proof. unfold Json.digits_value. rewrite fold_left_app. reflexivity. Qed.

Lemma digits_fuel_S (fuel : nat) (n : N) :
  digits_fuel (S fuel) n
  = if (n <? 10)%N then [(48 + n)%N]
    else digits_fuel fuel (n / 10)%N ++ [(48 + n mod 10)%N].
Proof. reflexivity. Qed.

(** The decimal digits of a number: digits only, none of them a leading
    zero unless the number is zero, and their value is the number. *)
Lemma digits_fuel_spec (fuel : nat) :
  forall n, (n < 2 ^ N.of_nat fuel)%N ->
  let ds := digits_fuel (S fuel) n in
  forallb Json.is_digit ds = true
  /\ Json.digits_value ds = Z.of_N n
  /\ exists d rest, ds = d :: rest
       /\ (if (n =? 0)%N then ds = [48%N] else (49 <= d <= 57)%N).
Proof.
  induction fuel as [|fuel IH]; intros n Hn; cbv zeta; rewrite digits_fuel_S.
  - cbn in Hn. assert (n = 0%N) by lia. subst n. cbn. repeat split.
    exists 48%N, []. auto.
  - destruct (N.ltb_spec n 10) as [Hlt|Hge].
    + cbn [forallb]. unfold Json.is_digit, Json.digits_value. cbn [fold_left].
      repeat split.
      * apply andb_true_iff; split; [|reflexivity].
        apply andb_true_iff; split; apply N.leb_le; lia.
      * lia.
      * exists (48 + n)%N, []. split; [reflexivity|].
        destruct (N.eqb_spec n 0); [subst; reflexivity | lia].
    + rewrite pow2_succ in Hn.
      assert (Hq : (n / 10 < 2 ^ N.of_nat fuel)%N) by divlia.
      destruct (IH _ Hq) as (Hall & Hval & d & rest & Hds & Hhead).
      cbv zeta in *. set (ds := digits_fuel (S fuel) (n / 10)) in *.
      repeat split.
      * rewrite forallb_app, Hall. cbn [forallb andb]. unfold Json.is_digit.
        rewrite andb_true_r. apply andb_true_iff; split; apply N.leb_le; divlia.
      * rewrite digits_value_snoc, Hval. divlia.
      * exists d, (rest ++ [(48 + n mod 10)%N]). rewrite Hds. split; [reflexivity|].
        destruct (N.eqb_spec (n / 10) 0) as [E|E]; [divlia|].
        destruct (N.eqb_spec n 0); [lia | exact Hhead].
Qed.

Lemma digits_spec (n : N) :
  forallb Json.is_digit (digits n) = true
  /\ Json.digits_value (digits n) = Z.of_N n
  /\ exists d rest, digits n = d :: rest
       /\ (if (n =? 0)%N then digits n = [48%N] else (49 <= d <= 57)%N).
Proof. apply digits_fuel_spec, size_nat_bound. Qed.

Lemma take_digits_all (ds rest : str) :
  forallb Json.is_digit ds = true ->
  match rest with [] => True | c :: _ => Json.is_digit c = false end ->
  Json.take_digits (ds ++ rest) = (ds, rest).
Proof.
  intros Hds Hrest. induction ds as [|d ds IH]; cbn [app Json.take_digits].
  - destruct rest as [|c rest]; [reflexivity|]. cbn. rewrite Hrest. reflexivity.
  - cbn [forallb] in Hds. apply andb_true_iff in Hds as [Hd Hds].
    rewrite Hd, (IH Hds). reflexivity.
Qed.

Lemma closes_stops_number (rest : str) :
  closes rest = true ->
  match rest with
  | [] => True
  | c :: _ => Json.is_digit c = false /\ c <> 46%N /\ c <> 101%N /\ c <> 69%N
  end.
Proof.
  destruct rest as [|c rest]; [trivial|]. cbn [closes]. intros H.
  repeat (rewrite orb_true_iff in H). rewrite !N.eqb_eq in H.
  unfold Json.is_digit.
  destruct H as [[[->| ->]| ->]| ->]; repeat split; discriminate.
Qed.

Lemma match_number_digits (negative : bool) (n : N) (rest : str) :
  closes rest = true ->
  Json.match_number ((if negative then [45%N] else []) ++ digits n ++ rest)
  = Some (VInt (Json.signed negative (Z.of_N n)), rest).
Proof.
  intros Hc. apply closes_stops_number in Hc.
  destruct (digits_spec n) as (Hall & Hval & d & ds & Hds & Hhead).
  rewrite Hds in *. clear Hds.
  assert (Hd : d <> 45%N).
  { cbn [forallb] in Hall. apply andb_true_iff in Hall as [Hd _].
    intros ->. discriminate. }
  assert (Hint :
    (if ((49 <=? d) && (d <=? 57))%N then Some (Json.take_digits (d :: ds ++ rest))
     else if (d =? 48)%N then Some ([d], ds ++ rest) else None)
    = Some (d :: ds, rest)).
  { destruct (N.eqb_spec n 0) as [->|Hn].
    - injection Hhead as -> ->. reflexivity.
    - replace ((49 <=? d) && (d <=? 57))%N with true
        by (symmetry; apply andb_true_iff; split; apply N.leb_le; lia).
      change (d :: ds ++ rest) with ((d :: ds) ++ rest).
      rewrite take_digits_all; [reflexivity | exact Hall |].
      destruct rest; [trivial | apply Hc]. }
  assert (Hfrac :
    match rest with
    | dot :: (d0 :: _) as more =>
        if ((dot =? 46)%N && Json.is_digit d0)
        then let '(ds0, r) := Json.take_digits more in (Some ds0, r)
        else (@None str, rest)
    | _ => (@None str, rest)
    end = (@None str, rest)).
  { destruct rest as [|c [|c' rest']]; try reflexivity.
    destruct Hc as (_ & H46 & _).
    destruct (N.eqb_spec c 46); [contradiction | reflexivity]. }
  assert (Hexp : match rest with
                 | e :: _ => ((e =? 101) || (e =? 69))%N = false
                 | [] => True
                 end).
  { destruct rest as [|c rest']; [trivial|]. destruct Hc as (_ & _ & H101 & H69).
    apply orb_false_iff; split; apply N.eqb_neq; assumption. }
  unfold Json.match_number.
  destruct negative; cbn [app].
  - change (45 =? 45)%N with true. cbv iota. rewrite Hint, Hfrac.
    destruct rest as [|c rest']; [|rewrite Hexp]; rewrite Hval; reflexivity.
  - destruct (N.eqb_spec d 45) as [|_]; [contradiction|]. rewrite Hint, Hfrac.
    destruct rest as [|c rest']; [|rewrite Hexp]; rewrite Hval; reflexivity.
Qed.

Lemma int_repr_form (z : Z) :
  exists (negative : bool) (n : N),
    int_repr z = (if negative then [45%N] else []) ++ digits n
    /\ Json.signed negative (Z.of_N n) = z.
Proof.
  destruct z as [|p|p].
  - exists false, 0%N. split; reflexivity.
  - exists false, (Npos p). split; reflexivity.
  - exists true, (Npos p). split; reflexivity.
Qed.

Lemma match_number_int_repr (z : Z) (rest : str) :
  closes rest = true ->
  Json.match_number (int_repr z ++ rest) = Some (VInt z, rest).
Proof.
  intros Hc. destruct (int_repr_form z) as (negative & n & -> & <-).
  rewrite <- app_assoc. apply match_number_digits. exact Hc.
Qed.

Ltac lits :=
  repeat match goal with
    | |- context [py ?s] =>
        let x := eval vm_compute in (py s) in change (py s) with x
    end.

Section RoundTrip.

Variable float_repr : Z -> Z -> str.
Variable ascii : bool.
Variable indent : option nat.

Local Abbreviation enc := (Encoder.encode float_repr ascii indent).
Local Abbreviation nl := (Encoder.newline_indent indent).
Local Abbreviation sep := (Encoder.item_separator indent).
Local Abbreviation estr := (Encoder.encode_string ascii).
Local Abbreviation itail := (items_tail float_repr ascii indent).
Local Abbreviation ptail := (pairs_tail float_repr ascii indent).

Lemma encode_list (level : nat) (first : value) (others : list value) :
  enc level (VList (first :: others))
  = 91%N :: nl (S level) ++ enc (S level) first
    ++ itail (S level) others ++ nl level ++ [93%N].
Proof.
  cbn [Encoder.encode]. lits. cbn [app]. do 4 f_equal.
  unfold items_tail.
  induction others as [|item others IH]; [reflexivity|].
  cbn [flat_map]. rewrite <- IH, <- !app_assoc. reflexivity.
Qed.

Lemma encode_dict (level : nat) (key : str) (first : value)
    (others : list (str * value)) :
  enc level (VDict ((key, first) :: others))
  = 123%N :: nl (S level) ++ estr key ++ [58; 32]%N ++ enc (S level) first
    ++ ptail (S level) others ++ nl level ++ [125%N].
Proof.
  cbn [Encoder.encode]. unfold Encoder.key_separator. lits. cbn [app].
  do 7 f_equal. unfold pairs_tail.
  induction others as [|[k item] others IH]; [reflexivity|].
  cbn [flat_map]. rewrite <- IH, <- !app_assoc. reflexivity.
Qed.

Lemma skip_ws_newline_indent (level : nat) (s : str) :
  Json.skip_ws (nl level ++ s) = Json.skip_ws s.
Proof.
  unfold Encoder.newline_indent. destruct indent as [width|]; [|reflexivity].
  cbn [app Json.skip_ws]. change (Json.is_ws 10%N) with true. cbv iota.
  induction (width * level)%nat as [|k IH]; [reflexivity|].
  cbn [repeat app Json.skip_ws]. exact IH.
Qed.

Lemma skip_ws_solid (c : codepoint) (tl : str) :
  Json.is_ws c = false -> Json.skip_ws (c :: tl) = c :: tl.
Proof. intros H. cbn [Json.skip_ws]. rewrite H. reflexivity. Qed.

Lemma int_repr_head (z : Z) :
  exists c tl, int_repr z = c :: tl /\ (c = 45 \/ 48 <= c <= 57)%N.
Proof.
  destruct z as [|p|p].
  - exists 48%N, []. split; [reflexivity | lia].
  - unfold int_repr.
    destruct (digits_spec (Z.to_N (Zpos p))) as (_ & _ & d & tl & E & H).
    exists d, tl. split; [exact E|]. cbn in H. lia.
  - exists 45%N, (digits (Npos p)). split; [reflexivity | lia].
Qed.

(** The first character of an encoded document. *)
Lemma encode_head (level : nat) (v : value) :
  encodable ascii v = true ->
  exists c tl, enc level v = c :: tl /\ (34 <= c <= 123)%N /\ c <> 93%N.
Proof.
  intros He. destruct v as [|[|]|z|[m e| |[|]]|s|[|first others]|[|[key first] others]].
  all: try discriminate He.
  all: try (cbn [Encoder.encode Encoder.encode_float]; lits;
            eexists _, _; split; [reflexivity | lia]).
  destruct (int_repr_head z) as (c & tl & E & H).
  exists c, tl. cbn [Encoder.encode]. split; [exact E | lia].
Qed.

Lemma skip_ws_encode (level : nat) (v : value) (rest : str) :
  encodable ascii v = true ->
  Json.skip_ws (enc level v ++ rest) = enc level v ++ rest.
Proof.
  intros He. destruct (encode_head level v He) as (c & tl & E & H & _).
  rewrite E. cbn [app]. apply skip_ws_solid. unfold Json.is_ws. btest. reflexivity.
Qed.

Lemma scan_atom_int (z : Z) (rest : str) :
  closes rest = true ->
  Json.scan_atom (int_repr z ++ rest) = Json.Done (VInt z) rest.
Proof.
  intros Hc. unfold Json.scan_atom. cbn [fold_right].
  destruct (int_repr_head z) as (c & tl & E & H).
  assert (L : forall word v,
             match word with w0 :: _ => (97 <= w0)%N | [] => False end ->
             Json.literal word v (int_repr z ++ rest) = None).
  { intros word v Hw. rewrite E. apply literal_other_head.
    destruct word; [exact Hw | lia]. }
  rewrite !L by (vm_compute; discriminate).
  rewrite (@match_number_int_repr z rest Hc). reflexivity.
Qed.

Lemma open_array (fuel : nat) (X : str) (c : codepoint) (tl : str) :
  X = c :: tl -> Json.is_ws c = false -> c <> 93%N ->
  match Json.skip_ws X with
  | d :: r =>
      if (d =? 93)%N then Json.Done (VList []) r
      else Json.pmap VList (Json.parse_items fuel (d :: r))
  | [] => Json.Invalid
  end = Json.pmap VList (Json.parse_items fuel X).
Proof.
  intros -> Hw Hc. rewrite (@skip_ws_solid c tl Hw).
  destruct (N.eqb_spec c 93); [contradiction | reflexivity].
Qed.

Lemma open_object (fuel : nat) (Y : str) (c : codepoint) (tl : str) :
  Y = c :: tl -> Json.is_ws c = false -> c <> 125%N ->
  match Json.skip_ws Y with
  | d :: r =>
      if (d =? 125)%N then Json.Done (VDict []) r
      else Json.pmap VDict (Json.parse_members fuel (d :: r))
  | [] => Json.Invalid
  end = Json.pmap VDict (Json.parse_members fuel Y).
Proof.
  intros -> Hw Hc. rewrite (@skip_ws_solid c tl Hw).
  destruct (N.eqb_spec c 125); [contradiction | reflexivity].
Qed.

Lemma parse_items_last (fuel : nat) (s : str) (v : value) (r rest : str) :
  Json.scan_once fuel s = Json.Done v r ->
  Json.skip_ws r = 93%N :: rest ->
  Json.parse_items (S fuel) s = Json.Done [v] rest.
Proof. intros H1 H2. cbn [Json.parse_items]. rewrite H1, H2. reflexivity. Qed.

Lemma parse_items_more (fuel : nat) (s : str) (v : value) (r r' : str)
    (vs : list value) (rest : str) :
  Json.scan_once fuel s = Json.Done v r ->
  Json.skip_ws r = 44%N :: r' ->
  Json.parse_items fuel (Json.skip_ws r') = Json.Done vs rest ->
  Json.parse_items (S fuel) s = Json.Done (v :: vs) rest.
Proof.
  intros H1 H2 H3. cbn [Json.parse_items]. rewrite H1, H2.
  change (44 =? 93)%N with false. change (44 =? 44)%N with true. cbv iota.
  rewrite H3. reflexivity.
Qed.

Lemma parse_members_key (fuel : nat) (key s : str) :
  plain_text ascii key = true ->
  Json.skip_ws s = s ->
  Json.parse_members (S fuel) (estr key ++ [58; 32]%N ++ s)
  = match Json.scan_once fuel s with
    | Json.Done v r2 =>
        match Json.skip_ws r2 with
        | d :: r3 =>
            if (d =? 125)%N then Json.Done [(key, v)] r3
            else if (d =? 44)%N
            then Json.pmap (cons (key, v))
                           (Json.parse_members fuel (Json.skip_ws r3))
            else Json.Invalid
        | [] => Json.Invalid
        end
    | Json.Invalid => Json.Invalid
    | Json.Starved => Json.Starved
    end.
Proof.
  intros Hkey Hs. unfold Encoder.encode_string.
  cbn [app]. rewrite <- app_assoc. cbn [app Json.parse_members].
  change (34 =? 34)%N with true. cbv iota.
  rewrite (@scanstring_encoded ascii key _ Hkey).
  cbn [Json.skip_ws]. change (Json.is_ws 58%N) with false. cbv iota.
  change (58 =? 58)%N with true. cbv iota.
  cbn [Json.skip_ws]. change (Json.is_ws 32%N) with true. cbv iota.
  rewrite Hs. reflexivity.
Qed.

Lemma parse_members_last (fuel : nat) (key s : str) (v : value) (r rest : str) :
  plain_text ascii key = true ->
  Json.skip_ws s = s ->
  Json.scan_once fuel s = Json.Done v r ->
  Json.skip_ws r = 125%N :: rest ->
  Json.parse_members (S fuel) (estr key ++ [58; 32]%N ++ s)
  = Json.Done [(key, v)] rest.
Proof.
  intros Hkey Hs H1 H2. rewrite (@parse_members_key fuel key s Hkey Hs), H1, H2.
  reflexivity.
Qed.

Lemma parse_members_more (fuel : nat) (key s : str) (v : value) (r r' : str)
    (kvs : list (str * value)) (rest : str) :
  plain_text ascii key = true ->
  Json.skip_ws s = s ->
  Json.scan_once fuel s = Json.Done v r ->
  Json.skip_ws r = 44%N :: r' ->
  Json.parse_members fuel (Json.skip_ws r') = Json.Done kvs rest ->
  Json.parse_members (S fuel) (estr key ++ [58; 32]%N ++ s)
  = Json.Done ((key, v) :: kvs) rest.
Proof.
  intros Hkey Hs H1 H2 H3. rewrite (@parse_members_key fuel key s Hkey Hs), H1, H2.
  change (44 =? 125)%N with false. change (44 =? 44)%N with true. cbv iota.
  rewrite H3. reflexivity.
Qed.

Lemma separator_form :
  exists pad : str,
    sep = 44%N :: pad /\ forall s, Json.skip_ws (pad ++ s) = Json.skip_ws s.
Proof.
  unfold Encoder.item_separator. destruct indent.
  - exists []. split; reflexivity.
  - exists [32%N]. split; reflexivity.
Qed.

Lemma after_comma (level : nat) (item : value) (others : list value) (s : str) :
  encodable ascii item = true ->
  closes (itail level (item :: others) ++ s) = true
  /\ exists r',
       Json.skip_ws (itail level (item :: others) ++ s) = 44%N :: r'
       /\ Json.skip_ws r' = enc level item ++ itail level others ++ s.
Proof.
  intros He. destruct separator_form as (pad & Esep & Hpad).
  unfold items_tail. cbn [flat_map]. fold (itail level others).
  rewrite <- !app_assoc, Esep. cbn [app]. split; [reflexivity|].
  eexists. split; [reflexivity|].
  rewrite Hpad, skip_ws_newline_indent. apply skip_ws_encode. exact He.
Qed.

Lemma after_comma_pair (level : nat) (k : str) (item : value)
    (others : list (str * value)) (s : str) :
  closes (ptail level ((k, item) :: others) ++ s) = true
  /\ exists r',
       Json.skip_ws (ptail level ((k, item) :: others) ++ s) = 44%N :: r'
       /\ Json.skip_ws r'
          = estr k ++ [58; 32]%N ++ enc level item ++ ptail level others ++ s.
Proof.
  destruct separator_form as (pad & Esep & Hpad).
  unfold pairs_tail. cbn [flat_map]. fold (ptail level others).
  rewrite <- !app_assoc, Esep. cbn [app]. split; [reflexivity|].
  eexists. split; [reflexivity|].
  rewrite Hpad, skip_ws_newline_indent. reflexivity.
Qed.

Lemma before_bracket (level : nat) (bracket : codepoint) (rest : str) :
  (bracket = 93 \/ bracket = 125)%N ->
  closes (nl level ++ bracket :: rest) = true
  /\ Json.skip_ws (nl level ++ bracket :: rest) = bracket :: rest.
Proof.
  intros Hb. split.
  - unfold Encoder.newline_indent. destruct indent; [reflexivity|].
    destruct Hb as [-> | ->]; reflexivity.
  - rewrite skip_ws_newline_indent. apply skip_ws_solid.
    destruct Hb as [-> | ->]; reflexivity.
Qed.

Lemma items_tail_length (level : nat) (item : value) (others : list value) :
  List.length (itail level (item :: others))
  = (List.length sep + List.length (nl level)
     + List.length (enc level item ++ itail level others))%nat.
Proof.
  unfold items_tail. cbn [flat_map]. rewrite !length_app. lia.
Qed.

Lemma pairs_tail_length (level : nat) (k : str) (item : value)
    (others : list (str * value)) :
  List.length (ptail level ((k, item) :: others))
  = (List.length sep + List.length (nl level)
     + List.length (estr k ++ [58; 32]%N ++ enc level item ++ ptail level others))%nat.
Proof.
  unfold pairs_tail. cbn [flat_map]. unfold Encoder.key_separator. lits.
  repeat (rewrite length_app || cbn [List.length]). lia.
Qed.

Lemma separator_length : 1 <= List.length sep.
Proof. unfold Encoder.item_separator. destruct indent; cbn; lia. Qed.

(** One document, read back from its encoding, when it is followed by what
    may follow a document; with it the loops over the elements of a list
    and over the pairs of a dict. *)
Lemma scan_encoded (fuel : nat) :
  (forall level v rest,
      encodable ascii v = true ->
      List.length (enc level v) <= fuel ->
      closes rest = true ->
      Json.scan_once fuel (enc level v ++ rest) = Json.Done v rest)
  /\ (forall level first others rest,
      forallb (encodable ascii) (first :: others) = true ->
      List.length (enc (S level) first ++ itail (S level) others) < fuel ->
      Json.parse_items fuel
        (enc (S level) first ++ itail (S level) others
         ++ nl level ++ 93%N :: rest)
      = Json.Done (first :: others) rest)
  /\ (forall level key first others rest,
      encodable ascii (VDict ((key, first) :: others)) = true ->
      List.length (estr key ++ [58; 32]%N ++ enc (S level) first
                   ++ ptail (S level) others) < fuel ->
      Json.parse_members fuel
        (estr key ++ [58; 32]%N ++ enc (S level) first
         ++ ptail (S level) others ++ nl level ++ 125%N :: rest)
      = Json.Done ((key, first) :: others) rest).
Proof.
  induction fuel as [|fuel (IHA & IHB & IHC)].
  { split; [|split; intros; exfalso; lia].
    intros level v rest He Hlen _. exfalso.
    destruct (encode_head level v He) as (c & tl & E & _).
    rewrite E in Hlen. cbn in Hlen. lia. }
  split; [|split].
  - (* scan_once *)
    intros level v rest He Hlen Hc.
    destruct v as [|[|]|z|[m e| |[|]]|s|[|first others]|[|[key first] others]].
    all: try discriminate He.
    + reflexivity.
    + reflexivity.
    + reflexivity.
    + cbn [Encoder.encode].
      destruct (int_repr_head z) as (c & tl & E & H).
      transitivity (Json.scan_atom (int_repr z ++ rest));
        [| apply scan_atom_int; exact Hc].
      rewrite E. cbn [app Json.scan_once].
      destruct H as [-> | H]; [reflexivity|]. btest. reflexivity.
    + reflexivity.
    + reflexivity.
    + reflexivity.
    + cbn [Encoder.encode]. unfold Encoder.encode_string.
      cbn [app Json.scan_once]. change (34 =? 34)%N with true. cbv iota.
      rewrite <- app_assoc. cbn [app].
      exact (f_equal (Json.pmap VStr) (@scanstring_encoded ascii s rest He)).
    + reflexivity.
    + rewrite encode_list in Hlen |- *.
      cbn [encodable] in He. pose proof He as He'.
      cbn [forallb] in He'. apply andb_true_iff in He' as [Hfirst _].
      set (X := enc (S level) first ++ itail (S level) others
                ++ nl level ++ 93%N :: rest).
      match goal with
      | |- Json.scan_once _ ?t = _ =>
          replace t with (91%N :: nl (S level) ++ X)
            by (subst X; cbn [app]; rewrite <- !app_assoc; reflexivity)
      end.
      cbn [Json.scan_once].
      change (91 =? 34)%N with false. change (91 =? 123)%N with false.
      change (91 =? 91)%N with true. cbv iota.
      rewrite skip_ws_newline_indent.
      destruct (encode_head (S level) first Hfirst) as (c & tl & E & H & H93).
      assert (EX : exists tl', X = c :: tl')
        by (subst X; rewrite E; eexists; reflexivity).
      destruct EX as [tl' EX].
      etransitivity;
        [eapply open_array;
         [exact EX | unfold Json.is_ws; btest; reflexivity | exact H93] |].
      assert (Hlen' : List.length (enc (S level) first ++ itail (S level) others)
                      < fuel).
      { cbn [List.length] in Hlen. rewrite !length_app in *.
        cbn [List.length] in Hlen. lia. }
      exact (f_equal (Json.pmap VList) (IHB level first others rest He Hlen')).
    + reflexivity.
    + rewrite encode_dict in Hlen |- *.
      set (Y := estr key ++ [58; 32]%N ++ enc (S level) first
                ++ ptail (S level) others ++ nl level ++ 125%N :: rest).
      match goal with
      | |- Json.scan_once _ ?t = _ =>
          replace t with (123%N :: nl (S level) ++ Y)
            by (subst Y; repeat (cbn [app]; rewrite <- app_assoc); reflexivity)
      end.
      cbn [Json.scan_once].
      change (123 =? 34)%N with false. change (123 =? 123)%N with true. cbv iota.
      rewrite skip_ws_newline_indent.
      assert (EY : exists tl', Y = 34%N :: tl')
        by (subst Y; eexists; reflexivity).
      destruct EY as [tl' EY].
      etransitivity;
        [eapply open_object; [exact EY | reflexivity | discriminate] |].
      assert (Hlen' : List.length (estr key ++ [58; 32]%N ++ enc (S level) first
                                   ++ ptail (S level) others) < fuel).
      { cbn [List.length] in Hlen. rewrite !length_app in *.
        cbn [List.length] in *. rewrite ?length_app in *. lia. }
      exact (f_equal (Json.pmap VDict)
               (IHC level key first others rest He Hlen')).
  - (* parse_items *)
    intros level first others rest He Hlen.
    cbn [forallb] in He. apply andb_true_iff in He as [Hfirst Hothers].
    rewrite length_app in Hlen.
    destruct others as [|item others].
    + destruct (@before_bracket level 93%N rest) as [Hc Hs]; [lia|].
      eapply parse_items_last; [|exact Hs].
      apply IHA; [exact Hfirst | lia | exact Hc].
    + pose proof Hothers as Hothers'. cbn [forallb] in Hothers'.
      apply andb_true_iff in Hothers' as [Hitem _].
      destruct (@after_comma (S level) item others (nl level ++ 93%N :: rest) Hitem)
        as (Hc & r' & Hr & Hr').
      rewrite items_tail_length in Hlen. pose proof separator_length as Hsep.
      eapply parse_items_more; [| exact Hr |].
      * apply IHA; [exact Hfirst | lia | exact Hc].
      * rewrite Hr'. apply IHB; [exact Hothers | rewrite length_app in *; lia].
  - (* parse_members *)
    intros level key first others rest He Hlen.
    cbn [encodable forallb] in He.
    apply andb_true_iff in He as [Hkf Hothers].
    apply andb_true_iff in Hkf as [Hkey Hfirst].
    unfold Encoder.encode_string in Hlen.
    repeat (rewrite length_app in Hlen || cbn [List.length] in Hlen).
    destruct others as [|[k item] others].
    + destruct (@before_bracket level 125%N rest) as [Hc Hs]; [lia|].
      eapply parse_members_last;
        [exact Hkey | apply skip_ws_encode; exact Hfirst | | exact Hs].
      apply IHA; [exact Hfirst | lia | exact Hc].
    + destruct (@after_comma_pair (S level) k item others (nl level ++ 125%N :: rest))
        as (Hc & r' & Hr & Hr').
      rewrite pairs_tail_length in Hlen. pose proof separator_length as Hsep.
      eapply parse_members_more;
        [exact Hkey | apply skip_ws_encode; exact Hfirst | | exact Hr |].
      * apply IHA; [exact Hfirst | lia | exact Hc].
      * rewrite Hr'. apply IHC; [exact Hothers | lia].
Qed.

End RoundTrip.

Lemma loads_encoded (float_repr : Z -> Z -> str) (ascii : bool)
    (indent : option nat) (level : nat) (v : value) :
  encodable ascii v = true ->
  Json.loads (Encoder.encode float_repr ascii indent level v) = Ok v.
Proof.
  intros He. unfold Json.loads.
  destruct (@encode_head float_repr ascii indent level v He) as (c & tl & E & H & _).
  pose proof (@skip_ws_encode float_repr ascii indent level v [] He) as Hs.
  destruct (@scan_encoded float_repr ascii indent
              (2 * List.length (Encoder.encode float_repr ascii indent level v) + 1))
    as (HA & _ & _).
  specialize (HA level v [] He).
  rewrite app_nil_r in *.
  rewrite Hs, HA; [| lia | reflexivity].
  rewrite E.
  unfold Str.startswith, Str.after_prefix.
  destruct (N.eqb_spec 65279 c); [lia | reflexivity].
Qed.

(** ** The request *)

Lemma strip_keeps (P : codepoint -> bool) (s : str) :
  forallb P s = true -> forallb P (Str.strip s) = true.
Proof.
  destruct (strip_split s) as (ws1 & ws2 & _ & _ & E). intros H.
  rewrite E, !forallb_app in H.
  apply andb_true_iff in H as [_ H]. apply andb_true_iff in H as [H _].
  exact H.
Qed.

Lemma plain_text_strip (ascii : bool) (s : str) :
  plain_text ascii s = true -> plain_text ascii (Str.strip s) = true.
Proof.
  unfold plain_text. destruct ascii; cbn [negb orb]; [|reflexivity].
  apply strip_keeps.
Qed.

Lemma payload_encodable (ascii : bool) (model text_prompt : str)
    (start_image_url extra_instructions : option str) (stream : bool) :
  (ascii = true ->
   forallb scalar model = true /\ forallb scalar text_prompt = true
   /\ scalar_text start_image_url = true
   /\ scalar_text extra_instructions = true) ->
  encodable ascii
    (build_payload model text_prompt start_image_url extra_instructions stream)
  = true.
Proof.
  intros H.
  assert (P : plain_text ascii model = true
              /\ plain_text ascii (Str.strip text_prompt) = true
              /\ plain_text ascii (stripped start_image_url) = true
              /\ plain_text ascii (stripped extra_instructions) = true).
  { destruct ascii; [|repeat split; reflexivity].
    destruct (H eq_refl) as (Hm & Ht & Hi & He).
    repeat split; [exact Hm | apply strip_keeps; exact Ht | |].
    - destruct start_image_url; [apply strip_keeps; exact Hi | reflexivity].
    - destruct extra_instructions; [apply strip_keeps; exact He | reflexivity]. }
  destruct P as (Pm & Pt & Pi & Pe).
  assert (L : forall lit : str, forallb scalar lit = true ->
                                plain_text ascii lit = true).
  { intros lit Hl. unfold plain_text. rewrite Hl. apply orb_true_r. }
  assert (D : plain_text ascii DEFAULT_PROMPT = true)
    by (apply L; vm_compute; reflexivity).
  unfold build_payload.
  destruct (nonempty text_prompt), (given start_image_url),
    (given extra_instructions);
    cbn [app encodable forallb text_item image_item];
    rewrite ?Pm, ?Pt, ?Pi, ?Pe, ?D;
    rewrite ?L by (vm_compute; reflexivity); reflexivity.
Qed.

(** X4: the body of the request is a document that reads back as the
    payload built from the inputs, when their text is made of scalar
    values; [json.dumps] writes it with escapes only. *)
Theorem request_body_reads_back
    (float_repr : Z -> Z -> str) (token model text_prompt : str)
    (start_image_url extra_instructions : option str)
    (stream stream_mode : bool) :
  forallb scalar model = true ->
  forallb scalar text_prompt = true ->
  scalar_text start_image_url = true ->
  scalar_text extra_instructions = true ->
  Json.loads
    (data (request_of float_repr token
             (build_payload model text_prompt start_image_url
                extra_instructions stream)
             stream_mode))
  = Ok (build_payload model text_prompt start_image_url extra_instructions
          stream).
Proof.
  intros Hm Ht Hi He. cbn [request_of data]. unfold dumps.
  apply loads_encoded. apply payload_encodable. auto.
Qed.

Lemma request_body_of_a_prompt_reads_back :
  Json.loads
    (data (request_of (fun _ _ => []) (py "sk-1")
             (build_payload (py "veo3-fast") (utf8 "城市夜景 9:16") (Some [])
                (Some (py "smooth")) true)
             true))
  = Ok (build_payload (py "veo3-fast") (utf8 "城市夜景 9:16") (Some [])
          (Some (py "smooth")) true).
Proof.
  apply request_body_reads_back; vm_compute; reflexivity.
Defined.

(** X5: the payload shown on the page after the call, written with
    [ensure_ascii=False] and [indent=4], reads back as the payload,
    whatever the inputs are. *)
Theorem shown_payload_reads_back
    (float_repr : Z -> Z -> str) (model text_prompt : str)
    (start_image_url extra_instructions : option str) (stream : bool) :
  Json.loads
    (dumps_indented float_repr
       (build_payload model text_prompt start_image_url extra_instructions
          stream))
  = Ok (build_payload model text_prompt start_image_url extra_instructions
          stream).
Proof.
  unfold dumps_indented. apply loads_encoded. apply payload_encodable.
  discriminate.
Qed.

(** ** The bytes of the request *)
Lemma hex_char_ascii (d : N) : (d < 16)%N -> (Encoder.hex_char d < 128)%N.
Proof. intros H. unfold Encoder.hex_char. destruct (d <? 10)%N; lia. Qed.

Lemma u_escape_ascii (n : N) :
  (n < 65536)%N ->
  forallb (fun c => (c <? 128)%N) (Encoder.u_escape n) = true.
Proof.
  intros H. unfold Encoder.u_escape. cbn [forallb].
  repeat (apply andb_true_iff; split); try reflexivity;
    apply N.ltb_lt, hex_char_ascii; divlia.
Qed.

Lemma escape_char_ascii (c : codepoint) :
  forallb (fun c => (c <? 128)%N) (Encoder.escape_char true c) = true.
Proof.
  unfold Encoder.escape_char.
  repeat match goal with
    | |- context [N.eqb ?a ?b] =>
        destruct (N.eqb_spec a b); [reflexivity|]
    end.
  destruct (N.ltb_spec c 32); [apply u_escape_ascii; lia|].
  cbn [andb]. destruct (N.ltb_spec 126 c).
  - destruct (N.ltb_spec c 65536); [apply u_escape_ascii; lia|].
    rewrite forallb_app.
    apply andb_true_iff; split; apply u_escape_ascii; divlia.
  - cbn [forallb]. rewrite andb_true_r. apply N.ltb_lt. lia.
Qed.

Lemma encode_string_ascii (s : str) :
  forallb (fun c => (c <? 128)%N) (Encoder.encode_string true s) = true.
Proof.
  assert (H : forallb (fun c => (c <? 128)%N)
                (flat_map (Encoder.escape_char true) s) = true).
  { induction s as [|c s IH]; [reflexivity|].
    cbn [flat_map]. rewrite forallb_app.
    apply andb_true_iff; split; [apply escape_char_ascii | exact IH]. }
  unfold Encoder.encode_string.
  change (34%N :: flat_map (Encoder.escape_char true) s ++ [34%N])
    with ([34%N] ++ flat_map (Encoder.escape_char true) s ++ [34%N]).
  rewrite !forallb_app.
  apply andb_true_iff; split; [reflexivity|].
  apply andb_true_iff; split; [exact H | reflexivity].
Qed.

(** X6: the body of the request is made of ASCII characters only,
    whatever the inputs are: [json.dumps] escapes every other character,
    those of the default prompt too. *)
Theorem request_body_is_ascii
    (float_repr : Z -> Z -> str) (token model text_prompt : str)
    (start_image_url extra_instructions : option str)
    (stream stream_mode : bool) :
  forallb (fun c => (c <? 128)%N)
    (data (request_of float_repr token
             (build_payload model text_prompt start_image_url
                extra_instructions stream)
             stream_mode))
  = true.
Proof.
  cbn [request_of data]. unfold dumps, build_payload.
  destruct (nonempty text_prompt), (given start_image_url),
    (given extra_instructions), stream;
    cbn [app Encoder.encode text_item image_item];
    unfold Encoder.newline_indent, Encoder.item_separator, Encoder.key_separator;
    repeat (rewrite forallb_app || rewrite encode_string_ascii
            || cbn [forallb andb]);
    reflexivity.
Qed.

(** ** [validate_image_url] and the handler of the button *)

Section HandlerFacts.

Variable float_repr : Z -> Z -> str.
Variable w : world.

Local Abbreviation validate := (validate_image_url w).
Local Abbreviation click := (on_click float_repr w).

Lemma validate_none_iff (image_url label : str) :
  validate image_url label = None
  <-> exists content_type,
        head w image_url = Returned (Some content_type)
        /\ Str.startswith (py "image/") content_type = true.
Proof.
  unfold validate_image_url. split.
  - destruct (head w image_url) as [[ct|]|exc].
    + destruct (Str.startswith (py "image/") ct) eqn:E; [|intros [=]].
      intros _. exists ct. split; [reflexivity | exact E].
    + intros [=].
    + intros [=].
  - intros (ct & -> & ->). reflexivity.
Qed.

Lemma validate_message_nonempty (image_url label message : str) :
  validate image_url label = Some message -> nonempty message = true.
Proof.
  unfold validate_image_url.
  destruct (head w image_url) as [header|exc].
  - destruct (negb _); [|intros [=]].
    intros [= <-]. destruct label; reflexivity.
  - intros [= <-]. reflexivity.
Qed.

Lemma validate_given (image_url label : str) :
  given (validate image_url label)
  = match validate image_url label with Some _ => true | None => false end.
Proof.
  destruct (validate image_url label) as [m|] eqn:E; [|reflexivity].
  exact (validate_message_nonempty _ _ E).
Qed.


Lemma finish_session (cs : list call) (bs : list notice_box) (branch : M unit) :
  calls (snd (finish cs bs branch)) = cs
  /\ boxes (snd (finish cs bs branch)) = bs
  /\ shown (snd (finish cs bs branch)) = snd (run branch)
  /\ fst (finish cs bs branch) <> Halted.
Proof.
  unfold finish. destruct (run branch) as [[[]|e] p]; cbn;
    repeat split; discriminate.
Qed.

Section Click.

Variables token selected_model text_prompt image_url extra_instructions : str.
Variable stream : bool.

Local Abbreviation payload :=
  (build_payload selected_model text_prompt (Some image_url)
     (Some extra_instructions) stream).
Local Abbreviation the_request := (request_of float_repr token payload stream).
Local Abbreviation outcome :=
  (click token selected_model stream text_prompt image_url extra_instructions).
Local Abbreviation passes :=
  (nonempty image_url = true -> validate image_url (utf8 "首帧图片") = None).

Lemma click_ways :
  way float_repr w token selected_model text_prompt image_url
    extra_instructions stream.
Proof.
  set (payload := build_payload selected_model text_prompt (Some image_url)
                    (Some extra_instructions) stream).
  set (the_request := request_of float_repr token payload stream).
  set (heads := if nonempty image_url then [Head image_url] else []).
  set (outcome := click token selected_model stream text_prompt image_url
                    extra_instructions).
  pose proof (eq_refl outcome) as Hout. unfold outcome at 2, on_click in Hout.
  fold payload in Hout. fold the_request in Hout. fold heads in Hout.
  unfold send_request in Hout. fold the_request in Hout.
  destruct (nonempty token) eqn:Htoken; cbn [negb] in Hout;
    [|(eapply NoToken; eassumption)].
  pose proof (eq_refl heads) as Hheads. unfold heads at 2 in Hheads.
  clearbody heads.
  destruct (nonempty image_url) eqn:Himage.
  - rewrite validate_given in Hout.
    destruct (validate image_url (utf8 "首帧图片")) as [message|] eqn:Hcheck;
      [rewrite Hheads in Hout; eapply BadImage; eassumption|].
    assert (Hheads' : heads = if nonempty image_url then [Head image_url] else [])
      by (rewrite Himage; exact Hheads).
    rewrite Hheads' in Hout.
    assert (Hpass : nonempty image_url = true ->
                    validate image_url (utf8 "首帧图片") = None)
      by (intros _; exact Hcheck).
    destruct (post w the_request) as [response|err] eqn:Hpost;
      [|(eapply CallFailed; eassumption)].
    destruct (ok response) eqn:Hok; cbn [negb] in Hout;
      [|(eapply ErrorStatus; eassumption)].
    destruct stream;
      [(eapply Streamed; try eassumption; reflexivity)|].
    destruct (json response) as [data|e] eqn:Hjson;
      [(eapply Answered; try eassumption; reflexivity)|].
    destruct e;
      try (eapply JsonRaised; try eassumption; try reflexivity; discriminate).
    (eapply NotJson; try eassumption; reflexivity).
  - assert (Hpass : nonempty image_url = true ->
                    validate image_url (utf8 "首帧图片") = None)
      by (rewrite Himage; discriminate).
    cbn [given] in Hout.
    assert (Hheads' : heads = if nonempty image_url then [Head image_url] else [])
      by (rewrite Himage; exact Hheads).
    rewrite Hheads' in Hout.
    destruct (post w the_request) as [response|err] eqn:Hpost;
      [|(eapply CallFailed; eassumption)].
    destruct (ok response) eqn:Hok; cbn [negb] in Hout;
      [|(eapply ErrorStatus; eassumption)].
    destruct stream;
      [(eapply Streamed; try eassumption; reflexivity)|].
    destruct (json response) as [data|e] eqn:Hjson;
      [(eapply Answered; try eassumption; reflexivity)|].
    destruct e;
      try (eapply JsonRaised; try eassumption; try reflexivity; discriminate).
    (eapply NotJson; try eassumption; reflexivity).
Qed.

Ltac by_ways :=
  let Hcalls := fresh "Hcalls" in
  let Hboxes := fresh "Hboxes" in
  let Hshown := fresh "Hshown" in
  let Hend := fresh "Hend" in
  destruct click_ways;
  match goal with
  | Hout : _ = finish ?cs ?bs ?branch |- _ =>
      destruct (finish_session cs bs branch) as (Hcalls & Hboxes & Hshown & Hend);
      rewrite <- Hout in Hcalls, Hboxes, Hshown, Hend; clear Hout
  | Hout : _ = _ |- _ =>
      pose proof (f_equal (fun o => calls (snd o)) Hout) as Hcalls;
      pose proof (f_equal (fun o => boxes (snd o)) Hout) as Hboxes;
      pose proof (f_equal (fun o => shown (snd o)) Hout) as Hshown;
      pose proof (f_equal fst Hout) as Hend;
      cbn [stop_with fst snd calls boxes shown] in Hcalls, Hboxes, Hshown, Hend;
      clear Hout
  end.

(** X8: the handler calls the network at most twice, the check of the
    image first: [HEAD] goes out exactly when a token and an address are
    given, to the address as typed; [POST] goes out exactly when a token is
    given and the address is empty or passed the check, and it carries the
    payload of the inputs with the [stream] choice as its mode. *)
Theorem calls_are_one_head_then_one_post :
  (forall u, In (Head u) (calls (snd outcome))
             <-> nonempty token = true /\ nonempty image_url = true
                 /\ u = image_url)
  /\ (forall r, In (Post r) (calls (snd outcome))
                <-> nonempty token = true /\ passes /\ r = the_request)
  /\ exists n,
       calls (snd outcome)
       = firstn n ((if nonempty image_url then [Head image_url] else [])
                   ++ [Post the_request]).
Proof.
  assert (Hhead : forall u,
             In (Head u) ((if nonempty image_url then [Head image_url] else [])
                          ++ [Post the_request])
             <-> nonempty image_url = true /\ u = image_url).
  { intros u. destruct (nonempty image_url); cbn; split.
    - intros [[= ->]|[[=]|[]]]. auto.
    - intros [_ ->]. auto.
    - intros [[=]|[]].
    - intros [[=] _]. }
  assert (Hpost : forall r,
             In (Post r) ((if nonempty image_url then [Head image_url] else [])
                          ++ [Post the_request])
             <-> r = the_request).
  { intros r. destruct (nonempty image_url); cbn; split.
    - intros [[=]|[[= ->]|[]]]. reflexivity.
    - intros ->. auto.
    - intros [[= ->]|[]]. reflexivity.
    - intros ->. auto. }
  by_ways; rewrite Hcalls; (split; [|split]).
  all: try (intros u; rewrite Hhead; intuition congruence).
  all: try (intros r; rewrite Hpost; intuition congruence).
  all: try (exists 2; destruct (nonempty image_url); reflexivity).
  - intros u. cbn. intuition congruence.
  - intros r. cbn. intuition congruence.
  - exists 0. reflexivity.
  - intros u. cbn. intuition congruence.
  - intros r. cbn [In]. split; [intros [[=]|[]]|].
    intros (_ & Hp & _). rewrite (Hp Himage) in Hcheck. discriminate.
  - exists 1. rewrite Himage. reflexivity.
Qed.

(** X9: the run is halted exactly when an error box is shown, and a
    halted run has written nothing into the page of results. *)
Theorem halted_iff_an_error_is_shown :
  (fst outcome = Halted
   <-> exists message, In (ErrorBox message) (boxes (snd outcome)))
  /\ (fst outcome = Halted -> shown (snd outcome) = blank).
Proof.
  by_ways; rewrite Hboxes, Hshown; (split; [split|]).
  all: try (intros _; eexists; cbn [In]; eauto; fail).
  all: try (intros _; reflexivity).
  all: try (intros Hh; exfalso; apply Hend; exact Hh).
  all: try (intros [m [[=]|[]]]; fail).
  all: try (intros _; exact Hend).
  all: intros Hh; rewrite Hend in Hh; discriminate.
Qed.

(** X10: the payload is shown, as an indented document, exactly when the
    service answered the call, whatever its status; the raw body of the
    answer is written exactly when the status is an error or, without
    streaming, the body is no JSON document. *)
Theorem payload_and_raw_body_are_shown :
  (forall body, In (CodeBlock body) (boxes (snd outcome))
     <-> body = dumps_indented float_repr payload
         /\ nonempty token = true /\ passes
         /\ exists response, post w the_request = Returned response)
  /\ (forall body, In (Written body) (boxes (snd outcome))
     <-> nonempty token = true /\ passes
         /\ exists response,
              post w the_request = Returned response
              /\ body = text response
              /\ (ok response = false
                  \/ ok response = true /\ stream = false
                     /\ json response = Raise JSONDecodeError)).
Proof.
  by_ways; rewrite Hboxes; cbn [In]; (split; intros body; split).
  all: try (intros [[=]|[]]; fail).
  all: try (intros [[=]|[[=]|[[=]|[]]]]; fail).
  all: try (intros (_ & Ht & _); congruence).
  all: try (intros (Ht & _); congruence).
  all: try (intros (_ & _ & Hp & _); rewrite (Hp Himage) in Hcheck; discriminate).
  all: try (intros (_ & Hp & _); rewrite (Hp Himage) in Hcheck; discriminate).
  all: try (intros (_ & _ & _ & r & Hr); congruence).
  all: try (intros (_ & _ & r & Hr & _); congruence).
  all: try (intros (-> & _); auto; fail).
  all: try (intros [[= <-]|H]; [|destruct H as [[=]|[]] || destruct H as [[=]|[[=]|[]]] || destruct H];
            repeat split; eauto; fail).
  all: try (intros [[=]|[[=]|[[= <-]|[]]]]; repeat split; eauto 10; fail).
  all: try (intros (_ & _ & r & Hr & -> & Hcase); rewrite Hpost in Hr;
            injection Hr as <-; auto; fail).
  all: try (intros (_ & _ & r & Hr & -> & Hcase); rewrite Hpost in Hr;
            injection Hr as <-; exfalso;
            destruct Hcase as [Hc | (Hc1 & Hc2 & Hc3)]; congruence).
Qed.


End Click.

End HandlerFacts.


Lemma one_head_then_one_post_in_the_obliging_world :
  exists n,
    calls (snd (on_click no_float_repr obliging_world (py "sk-1") (py "veo3")
                  false (py "a cat") (py "https://x.com/a.png") []))
    = firstn n
        ([Head (py "https://x.com/a.png")]
         ++ [Post (request_of no_float_repr (py "sk-1")
                     (build_payload (py "veo3") (py "a cat")
                        (Some (py "https://x.com/a.png")) (Some []) false)
                     false)]).
Proof.
  exact (proj2 (proj2 (calls_are_one_head_then_one_post no_float_repr
                         obliging_world (py "sk-1") (py "veo3") (py "a cat")
                         (py "https://x.com/a.png") [] false))).
Defined.

Lemma halted_without_a_token :
  shown (snd (on_click no_float_repr obliging_world [] (py "veo3") false
                (py "a cat") [] []))
  = blank.
Proof.
  apply (proj2 (halted_iff_an_error_is_shown no_float_repr obliging_world
                  [] (py "veo3") (py "a cat") [] [] false)).
  reflexivity.
Defined.

Lemma payload_shown_in_the_obliging_world :
  In (CodeBlock (dumps_indented no_float_repr
                   (build_payload (py "veo3") (py "a cat") (Some []) (Some [])
                      true)))
     (boxes (snd (on_click no_float_repr obliging_world (py "sk-1") (py "veo3")
                    true (py "a cat") [] []))).
Proof.
  apply (proj2 (proj1 (payload_and_raw_body_are_shown no_float_repr
                         obliging_world (py "sk-1") (py "veo3") (py "a cat")
                         [] [] true) _)).
  split; [reflexivity|]. split; [reflexivity|]. split; [discriminate|].
  eexists. reflexivity.
Defined.


(** ** [normalize_stream_text] *)

Lemma byte_of_N_small (n : N) :
  (n < 256)%N -> exists b, Byte.of_N n = Some b /\ Byte.to_N b = n.
Proof.
  intros H. destruct (Byte.of_N n) as [b|] eqn:E.
  - exists b. split; [reflexivity | apply Byte.to_of_N; exact E].
  - apply Byte.of_N_None_iff in E. lia.
Qed.

Lemma encode_latin1_cons (c : codepoint) (b : byte) (tl : str) (bs : list byte) :
  Byte.of_N c = Some b -> Codec.encode_latin1 tl = Ok bs ->
  Codec.encode_latin1 (c :: tl) = Ok (b :: bs).
Proof. intros H1 H2. cbn [Codec.encode_latin1]. rewrite H1, H2. reflexivity. Qed.

(** One character, written in UTF-8 and read as Latin-1, is encoded and
    decoded back in front of any text. *)
Lemma misread_char (c : codepoint) (tl : str) (bs : list byte) (s : str) :
  scalar c = true ->
  Codec.encode_latin1 tl = Ok bs -> Codec.decode_utf8 bs = Ok s ->
  exists bs',
    Codec.encode_latin1 (utf8_bytes c ++ tl) = Ok bs'
    /\ Codec.decode_utf8 bs' = Ok (c :: s).
Proof.
  intros Hc Henc Hdec. unfold scalar in Hc.
  assert (Hr : (c < 55296 \/ 57343 < c <= 1114111)%N).
  { apply orb_true_iff in Hc as [H|H]; [left; apply N.ltb_lt; exact H|].
    apply andb_true_iff in H as [H1 H2]. apply N.ltb_lt in H1.
    apply N.leb_le in H2. lia. }
  clear Hc. unfold utf8_bytes.
  destruct (N.ltb_spec c 128) as [H1|H1].
  { destruct (@byte_of_N_small c) as (b & Hb & Tb); [lia|].
    exists (b :: bs). split; [apply encode_latin1_cons; assumption|].
    cbn [Codec.decode_utf8]. rewrite Tb, Hdec.
    destruct (N.leb_spec c 127); [reflexivity | lia]. }
  destruct (N.ltb_spec c 2048) as [H2|H2].
  { destruct (@byte_of_N_small (192 + c / 64)) as (b0 & Hb0 & T0); [divlia|].
    destruct (@byte_of_N_small (128 + c mod 64)) as (b1 & Hb1 & T1); [divlia|].
    exists (b0 :: b1 :: bs). split.
    { cbn [app]. repeat (apply encode_latin1_cons; [assumption|]). exact Henc. }
    cbn [Codec.decode_utf8]. unfold Codec.between, Codec.cont, Codec.low6.
    rewrite T0, T1, Hdec. cbn [rbind].
    destruct (N.leb_spec (192 + c / 64) 127); [divlia|].
    destruct (N.leb_spec 194 (192 + c / 64)); [|divlia].
    destruct (N.leb_spec (192 + c / 64) 223); [|divlia].
    destruct (N.leb_spec 128 (128 + c mod 64)); [|divlia].
    destruct (N.leb_spec (128 + c mod 64) 191); [|divlia].
    cbn [andb]. do 2 f_equal. divlia. }
  destruct (N.ltb_spec c 65536) as [H3|H3].
  { destruct (@byte_of_N_small (224 + c / 4096)) as (b0 & Hb0 & T0); [divlia|].
    destruct (@byte_of_N_small (128 + (c / 64) mod 64)) as (b1 & Hb1 & T1);
      [divlia|].
    destruct (@byte_of_N_small (128 + c mod 64)) as (b2 & Hb2 & T2); [divlia|].
    exists (b0 :: b1 :: b2 :: bs). split.
    { cbn [app]. repeat (apply encode_latin1_cons; [assumption|]). exact Henc. }
    cbn [Codec.decode_utf8]. unfold Codec.between, Codec.cont, Codec.low6.
    rewrite T0, T1, T2, Hdec. cbn [rbind].
    destruct (N.leb_spec (224 + c / 4096) 127); [divlia|].
    destruct (N.leb_spec 194 (224 + c / 4096)); [|divlia].
    destruct (N.leb_spec (224 + c / 4096) 223); [divlia|].
    destruct (N.leb_spec 224 (224 + c / 4096)); [|divlia].
    destruct (N.leb_spec (224 + c / 4096) 239); [|divlia].
    cbn [andb].
    destruct (N.leb_spec 128 (128 + c mod 64)); [|divlia].
    destruct (N.leb_spec (128 + c mod 64) 191); [|divlia].
    destruct (N.leb_spec 128 (128 + (c / 64) mod 64)); [|divlia].
    destruct (N.leb_spec (128 + (c / 64) mod 64) 191); [|divlia].
    assert (Hval : ((224 + c / 4096 - 224) * 4096
                    + (128 + (c / 64) mod 64 - 128) * 64
                    + (128 + c mod 64 - 128) = c)%N) by divlia.
    destruct (N.eqb_spec (224 + c / 4096) 224) as [E0|E0].
    - destruct (N.leb_spec 160 (128 + (c / 64) mod 64)); [|divlia].
      cbn [andb]. rewrite Hval. reflexivity.
    - destruct (N.eqb_spec (224 + c / 4096) 237) as [E1|E1].
      + destruct (N.leb_spec (128 + (c / 64) mod 64) 159); [|divlia].
        cbn [andb]. rewrite Hval. reflexivity.
      + cbn [andb]. rewrite Hval. reflexivity. }
  destruct (@byte_of_N_small (240 + c / 262144)) as (b0 & Hb0 & T0); [divlia|].
  destruct (@byte_of_N_small (128 + (c / 4096) mod 64)) as (b1 & Hb1 & T1);
    [divlia|].
  destruct (@byte_of_N_small (128 + (c / 64) mod 64)) as (b2 & Hb2 & T2);
    [divlia|].
  destruct (@byte_of_N_small (128 + c mod 64)) as (b3 & Hb3 & T3); [divlia|].
  exists (b0 :: b1 :: b2 :: b3 :: bs). split.
  { cbn [app]. repeat (apply encode_latin1_cons; [assumption|]). exact Henc. }
  cbn [Codec.decode_utf8]. unfold Codec.between, Codec.cont, Codec.low6.
  rewrite T0, T1, T2, T3, Hdec. cbn [rbind].
  destruct (N.leb_spec (240 + c / 262144) 127); [divlia|].
  destruct (N.leb_spec 194 (240 + c / 262144)); [|divlia].
  destruct (N.leb_spec (240 + c / 262144) 223); [divlia|].
  destruct (N.leb_spec 224 (240 + c / 262144)); [|divlia].
  destruct (N.leb_spec (240 + c / 262144) 239); [divlia|].
  destruct (N.leb_spec 240 (240 + c / 262144)); [|divlia].
  destruct (N.leb_spec (240 + c / 262144) 244); [|divlia].
  cbn [andb].
  destruct (N.leb_spec 128 (128 + c mod 64)); [|divlia].
  destruct (N.leb_spec (128 + c mod 64) 191); [|divlia].
  destruct (N.leb_spec 128 (128 + (c / 64) mod 64)); [|divlia].
  destruct (N.leb_spec (128 + (c / 64) mod 64) 191); [|divlia].
  destruct (N.leb_spec 128 (128 + (c / 4096) mod 64)); [|divlia].
  destruct (N.leb_spec (128 + (c / 4096) mod 64) 191); [|divlia].
  assert (Hval : ((240 + c / 262144 - 240) * 262144
                  + (128 + (c / 4096) mod 64 - 128) * 4096
                  + (128 + (c / 64) mod 64 - 128) * 64
                  + (128 + c mod 64 - 128) = c)%N) by divlia.
  destruct (N.eqb_spec (240 + c / 262144) 240) as [E0|E0].
  - destruct (N.leb_spec 144 (128 + (c / 4096) mod 64)); [|divlia].
    cbn [andb]. rewrite Hval. reflexivity.
  - destruct (N.eqb_spec (240 + c / 262144) 244) as [E1|E1].
    + destruct (N.leb_spec (128 + (c / 4096) mod 64) 143); [|divlia].
      cbn [andb]. rewrite Hval. reflexivity.
    + cbn [andb]. rewrite Hval. reflexivity.
Qed.

Lemma misread_decodes (text : str) :
  forallb scalar text = true ->
  exists bs,
    Codec.encode_latin1 (misread text) = Ok bs
    /\ Codec.decode_utf8 bs = Ok text.
Proof.
  induction text as [|c text IH]; intros H.
  - exists []. split; reflexivity.
  - cbn [forallb] in H. apply andb_true_iff in H as [Hc Ht].
    destruct (IH Ht) as (bs & Henc & Hdec).
    unfold misread. cbn [flat_map]. fold (misread text).
    exact (@misread_char c (misread text) bs text Hc Henc Hdec).
Qed.

(** X12: text that was written in UTF-8 and read as Latin-1 is repaired:
    [normalize_stream_text] gives back the text that was written, whenever
    that text is made of scalar values. *)
Theorem normalize_repairs_misread_text (text : str) :
  forallb scalar text = true ->
  normalize_stream_text (misread text) = Ok text.
Proof.
  intros H. destruct (misread_decodes text H) as (bs & Henc & Hdec).
  unfold normalize_stream_text. rewrite Henc, Hdec. reflexivity.
Qed.

Lemma normalize_repairs_a_misread_word :
  normalize_stream_text (misread (utf8 "视频 ok é"))
  = Ok (utf8 "视频 ok é").
Proof.
  apply normalize_repairs_misread_text. vm_compute. reflexivity.
Defined.

Ltac nope := let H := fresh in intros H; discriminate H.

Lemma decode_utf8_result (n : nat) :
  forall data decoded,
    List.length data <= n ->
    Codec.decode_utf8 data = Ok decoded ->
    List.length decoded <= List.length data
    /\ forallb scalar decoded = true.
Proof.
  induction n as [|n IH]; intros data decoded Hn.
  - destruct data; [intros [= <-]; split; [cbn; lia|reflexivity] | simpl in Hn; lia].
  - destruct data as [|b0 r0]; [intros [= <-]; split; [simpl; lia|reflexivity]|].
    cbn [Codec.decode_utf8]. cbn [List.length] in Hn |- *.
    assert (Hrec : forall r x,
               List.length r <= n ->
               scalar x = true ->
               rbind (Codec.decode_utf8 r) (fun s => Ok (x :: s)) = Ok decoded ->
               List.length decoded <= S (List.length r)
               /\ forallb scalar decoded = true).
    { intros r x Hr Hx.
      destruct (Codec.decode_utf8 r) as [s|e'] eqn:E; cbn [rbind]; [|nope].
      intros [= <-]. destruct (IH r s Hr E) as [Hl Hs].
      cbn [List.length forallb]. rewrite Hx, Hs. split; [lia | reflexivity]. }
    pose proof (Byte.to_N_bounded b0) as B0.
    unfold Codec.between, Codec.cont, Codec.low6, scalar in *.
    destruct (N.leb_spec (Byte.to_N b0) 127).
    { intros H'. apply Hrec in H'; [destruct H'; split; [lia|assumption] | lia |].
      destruct (N.ltb_spec (Byte.to_N b0) 55296); [reflexivity | lia]. }
    destruct (N.leb_spec 194 (Byte.to_N b0));
      destruct (N.leb_spec (Byte.to_N b0) 223); cbn [andb].
    { destruct r0 as [|b1 r1]; [nope|]. cbn [List.length] in *.
      destruct (N.leb_spec 128 (Byte.to_N b1));
        destruct (N.leb_spec (Byte.to_N b1) 191); cbn [andb]; try nope.
      intros H'. apply Hrec in H'; [destruct H'; split; [lia|assumption] | lia |].
      destruct (N.ltb_spec ((Byte.to_N b0 - 192) * 64 + (Byte.to_N b1 - 128)) 55296);
        [reflexivity | lia]. }
    all: destruct (N.leb_spec 224 (Byte.to_N b0));
      destruct (N.leb_spec (Byte.to_N b0) 239); cbn [andb].
    all: try (exfalso; lia).
    all: try
      (destruct r0 as [|b1 [|b2 r2]]; try nope;
       cbn [List.length] in *;
       pose proof (Byte.to_N_bounded b1); pose proof (Byte.to_N_bounded b2);
       match goal with
       | |- (if ?c then _ else _) = _ -> _ =>
           destruct c eqn:Hc; [|nope]
       end;
       apply andb_true_iff in Hc as [Hc1 Hc2];
       apply andb_true_iff in Hc2 as [Hc2 Hc3];
       apply N.leb_le in Hc2, Hc3;
       intros H'; apply Hrec in H';
       [destruct H'; split; [lia|assumption] | lia |];
       destruct (N.eqb_spec (Byte.to_N b0) 224);
       [| destruct (N.eqb_spec (Byte.to_N b0) 237)];
       apply andb_true_iff in Hc1 as [Hc1 Hc1']; apply N.leb_le in Hc1, Hc1';
       match goal with
       | |- ((?v <? 55296) || _)%N = true =>
           destruct (N.ltb_spec v 55296); [reflexivity|]; cbn [orb];
           apply andb_true_iff; split; [apply N.ltb_lt | apply N.leb_le]; lia
       end).
    all: destruct (N.leb_spec 240 (Byte.to_N b0));
      destruct (N.leb_spec (Byte.to_N b0) 244); cbn [andb].
    all: try nope.
    all: try (exfalso; lia).
    all: destruct r0 as [|b1 [|b2 [|b3 r3]]]; try nope;
       cbn [List.length] in *;
       pose proof (Byte.to_N_bounded b1); pose proof (Byte.to_N_bounded b2);
       pose proof (Byte.to_N_bounded b3);
       match goal with
       | |- (if ?c then _ else _) = _ -> _ =>
           destruct c eqn:Hc; [|nope]
       end;
       apply andb_true_iff in Hc as [Hc1 Hc4];
       apply andb_true_iff in Hc1 as [Hc1 Hc2];
       apply andb_true_iff in Hc2 as [Hc2 Hc3];
       apply andb_true_iff in Hc4 as [Hc4 Hc5];
       apply N.leb_le in Hc2, Hc3, Hc4, Hc5;
       intros H'; apply Hrec in H';
       [destruct H'; split; [lia|assumption] | lia |];
       destruct (N.eqb_spec (Byte.to_N b0) 240);
       [| destruct (N.eqb_spec (Byte.to_N b0) 244)];
       apply andb_true_iff in Hc1 as [Hc1 Hc1']; apply N.leb_le in Hc1, Hc1';
       match goal with
       | |- ((?v <? 55296) || _)%N = true =>
           destruct (N.ltb_spec v 55296); [reflexivity|]; cbn [orb];
           apply andb_true_iff; split; [apply N.ltb_lt | apply N.leb_le]; lia
       end.
Qed.

Lemma encode_latin1_length (text : str) :
  forall data, Codec.encode_latin1 text = Ok data ->
               List.length data = List.length text.
Proof.
  induction text as [|c text IH]; intros data; cbn [Codec.encode_latin1].
  - intros [= <-]. reflexivity.
  - destruct (Byte.of_N c); [|nope].
    destruct (Codec.encode_latin1 text) as [bs|e]; [|nope].
    cbn [rbind]. intros [= <-]. cbn [List.length]. rewrite (IH bs eq_refl).
    reflexivity.
Qed.

Lemma normalize_ascii (text : str) :
  forallb (fun c => (c <? 128)%N) text = true ->
  exists data, Codec.encode_latin1 text = Ok data
               /\ Codec.decode_utf8 data = Ok text.
Proof.
  induction text as [|c text IH]; intros H.
  - exists []. split; reflexivity.
  - cbn [forallb] in H. apply andb_true_iff in H as [Hc Ht].
    apply N.ltb_lt in Hc. destruct (IH Ht) as (bs & Henc & Hdec).
    destruct (@byte_of_N_small c) as (b & Hb & Tb); [lia|].
    exists (b :: bs). split; [apply encode_latin1_cons; assumption|].
    cbn [Codec.decode_utf8]. rewrite Tb, Hdec.
    destruct (N.leb_spec c 127); [reflexivity | lia].
Qed.

(** X13: what [normalize_stream_text] can do.  It raises exactly when a
    character is above U+00FF, and then [UnicodeEncodeError]; otherwise it
    returns text of scalar values or the text as it came, never longer than
    the text, and text of ASCII characters comes back as it is. *)
Theorem normalize_outcomes (text : str) :
  (Exists (fun c => (255 < c)%N) text
   /\ normalize_stream_text text = Raise UnicodeEncodeError)
  \/ (Forall (fun c => (c <= 255)%N) text
      /\ exists result,
           normalize_stream_text text = Ok result
           /\ List.length result <= List.length text
           /\ (result = text \/ forallb scalar result = true)
           /\ (forallb (fun c => (c <? 128)%N) text = true -> result = text)).
Proof.
  destruct (Exists_dec (fun c => (255 < c)%N) text) as [Hex|Hall].
  { intros c. destruct (255 <? c)%N eqn:E;
      [left; apply N.ltb_lt; exact E | right; apply N.ltb_ge in E; lia]. }
  - left. split; [exact Hex | apply normalize_beyond_latin1; exact Hex].
  - right.
    assert (Hin : Forall (fun c => (c <= 255)%N) text).
    { apply Forall_forall. intros c Hc.
      destruct (N.leb_spec c 255) as [H|H]; [exact H|].
      exfalso. apply Hall. apply Exists_exists. exists c. split; assumption. }
    split; [exact Hin|].
    destruct (normalize_within_latin1 Hin) as (data & Henc & Hnorm).
    rewrite Hnorm. eexists. split; [reflexivity|].
    pose proof (encode_latin1_length text Henc) as Hlen.
    destruct (Codec.decode_utf8 data) as [decoded|e] eqn:Hdec.
    + destruct (@decode_utf8_result _ data decoded (le_n _) Hdec) as [Hl Hs].
      split; [lia|]. split; [right; exact Hs|].
      intros Hascii. destruct (normalize_ascii text Hascii) as (bs & E1 & E2).
      congruence.
    + split; [lia|]. split; [left; reflexivity | reflexivity].
Qed.

Lemma normalize_keeps_a_plain_word :
  normalize_stream_text (py "clip.mp4") = Ok (py "clip.mp4").
Proof.
  destruct (normalize_outcomes (py "clip.mp4"))
    as [[_ H] | (_ & result & H & _ & _ & Hascii)].
  - vm_compute in H. discriminate H.
  - rewrite H. f_equal. apply Hascii. reflexivity.
Defined.

(** ** [extract_first_url] *)

Lemma take_nonspace_all (body : str) :
  forallb (fun c => negb (Str.isspace c)) body = true ->
  Re.take_nonspace body = body.
Proof.
  induction body as [|c body IH]; [reflexivity|].
  cbn [forallb Re.take_nonspace]. intros H.
  apply andb_true_iff in H as [Hc Hb]. apply negb_true_iff in Hc.
  rewrite Hc, (IH Hb). reflexivity.
Qed.

Lemma match_here_whole (scheme body : str) :
  scheme = py "http" \/ scheme = py "https" ->
  body <> [] ->
  forallb (fun c => negb (Str.isspace c)) body = true ->
  Re.match_here (scheme ++ py "://" ++ body) = Some (scheme ++ py "://" ++ body).
Proof.
  intros Hs Hne Hb.
  assert (Hrest : forall sch, Re.match_rest sch (py "://" ++ body)
                              = Some (sch ++ py "://" ++ body)).
  { intros sch. unfold Re.match_rest.
    rewrite (proj2 (after_prefix_app (py "://") (py "://" ++ body) body) eq_refl).
    rewrite (take_nonspace_all body Hb).
    destruct body; [congruence | reflexivity]. }
  unfold Re.match_here. destruct Hs as [-> | ->].
  - rewrite (proj2 (after_prefix_app (py "http") _ (py "://" ++ body)) eq_refl).
    change (Str.after_prefix (py "s") (py "://" ++ body)) with (@None str).
    apply Hrest.
  - change (py "https" ++ py "://" ++ body)
      with (py "http" ++ py "s" ++ py "://" ++ body).
    rewrite (proj2 (after_prefix_app (py "http") _ (py "s" ++ py "://" ++ body))
               eq_refl).
    rewrite (proj2 (after_prefix_app (py "s") _ (py "://" ++ body)) eq_refl).
    rewrite Hrest. reflexivity.
Qed.

(** X14: the link found is a word: it holds no white space, so stripping
    leaves it as it is, and looking for a link in the link itself finds it
    again whole. *)
Theorem first_url_is_a_word (text u : str) :
  extract_first_url text = Some u ->
  forallb (fun c => negb (Str.isspace c)) u = true
  /\ Str.strip u = u
  /\ extract_first_url u = Some u.
Proof.
  intros H.
  destruct (extract_first_url_some text H)
    as (pre & post & scheme & body & _ & Hs & -> & Hne & [Hb _] & _).
  assert (Hu : forallb (fun c => negb (Str.isspace c))
                 (scheme ++ py "://" ++ body) = true).
  { rewrite !forallb_app, Hb. destruct Hs as [-> | ->]; reflexivity. }
  split; [exact Hu|]. split.
  - destruct (strip_split (scheme ++ py "://" ++ body))
      as (ws1 & ws2 & H1 & H2 & E).
    assert (Hnil : forall ws x y,
               forallb Str.isspace ws = true ->
               forallb (fun c => negb (Str.isspace c)) (x ++ ws ++ y) = true ->
               ws = []).
    { intros [|c ws] x y Hw Hx; [reflexivity|]. exfalso.
      rewrite !forallb_app in Hx. cbn [forallb] in Hw, Hx.
      apply andb_true_iff in Hw as [Hc _].
      apply andb_true_iff in Hx as [_ Hx].
      apply andb_true_iff in Hx as [Hx _].
      apply andb_true_iff in Hx as [Hx _]. rewrite Hc in Hx. discriminate. }
    assert (E1 : ws1 = []).
    { apply (Hnil ws1 [] (Str.strip (scheme ++ py "://" ++ body) ++ ws2) H1).
      cbn [app]. rewrite <- E. exact Hu. }
    assert (E2 : ws2 = []).
    { apply (Hnil ws2 (ws1 ++ Str.strip (scheme ++ py "://" ++ body)) [] H2).
      rewrite app_nil_r, <- app_assoc, <- E. exact Hu. }
    rewrite E1, E2, app_nil_r in E. cbn [app] in E. symmetry. exact E.
  - assert (Hm := match_here_whole Hs Hne Hb).
    destruct (scheme ++ py "://" ++ body) as [|c tl] eqn:Eu.
    + destruct Hs as [-> | ->]; discriminate Eu.
    + rewrite extract_first_url_cons, Hm. reflexivity.
Qed.

Lemma first_url_of_a_sentence_is_a_word :
  extract_first_url (py "https://x.com/v.mp4.") = Some (py "https://x.com/v.mp4.").
Proof.
  destruct (@first_url_is_a_word (py "watch https://x.com/v.mp4. now")
              (py "https://x.com/v.mp4.") eq_refl) as (_ & _ & H).
  exact H.
Defined.

(** ** The single-response branch *)

Lemma py_get_cases (obj : value) (key : str) (default : value) :
  (exists v, py_get obj key default = Ok v)
  \/ py_get obj key default = Raise AttributeError.
Proof. destruct obj; cbn [py_get]; eauto. Qed.

Lemma py_first_truthy (obj : value) :
  truthy obj = true ->
  (exists v, py_first obj = Ok v)
  \/ py_first obj = Raise KeyError \/ py_first obj = Raise TypeError.
Proof.
  destruct obj as [| | | |s|items|pairs]; cbn [py_first]; auto.
  - destruct s; [discriminate | eauto].
  - destruct items; [discriminate | cbn; eauto].
Qed.

Lemma find_video_url_raises (data : value) (e : exn) :
  find_video_url data = Raise e ->
  e = AttributeError \/ e = KeyError \/ e = TypeError.
Proof.
  unfold find_video_url. destruct data as [| | | | | |top]; try discriminate.
  cbn [py_get rbind].
  destruct (truthy _) eqn:Tc; [|discriminate].
  destruct (py_first_truthy _ Tc) as [[first ->] | [-> | ->]]; cbn [rbind];
    [| intros [= <-]; auto | intros [= <-]; auto].
  destruct (py_get_cases first (py "message") (VDict [])) as [[message ->] | ->];
    cbn [rbind]; [| intros [= <-]; auto].
  destruct (py_get_cases message (py "content") (VList [])) as [[contents ->] | ->];
    cbn [rbind]; [| intros [= <-]; auto].
  destruct (truthy contents) eqn:Tk; [|discriminate].
  destruct (py_first_truthy _ Tk) as [[item ->] | [-> | ->]]; cbn [rbind];
    [| intros [= <-]; auto | intros [= <-]; auto].
  destruct item; discriminate.
Qed.

(** X15: the page of a single response.  The notice of success and the
    response itself are shown before the response is read, so they are on
    the page whatever happens next; after them comes nothing, or a player
    with its download link, or a warning, for a link that is not empty.
    The branch raises nothing but [AttributeError], [KeyError] and
    [TypeError], and nothing at all when the response is no object. *)
Theorem single_response_page (data : value) :
  exists tail,
    elements (snd (run (json_branch data)))
    = Success CallSucceeded :: JsonView data :: tail
    /\ (tail = []
        \/ exists url, nonempty url = true
                       /\ (tail = [Video url; DownloadLink url]
                           \/ tail = [Warning url]))
    /\ (forall e, fst (run (json_branch data)) = Raise e ->
                  tail = []
                  /\ (e = AttributeError \/ e = KeyError \/ e = TypeError))
    /\ ((forall top, data <> VDict top) ->
        fst (run (json_branch data)) = Ok tt /\ tail = []).
Proof.
  unfold run, json_branch, bind, st_add.
  cbn [elements log_placeholder blank app].
  destruct (find_video_url data) as [video_url|e0] eqn:F; cbn [lift ret raise].
  - assert (Hno : (forall top, data <> VDict top) -> truthy video_url = false).
    { intros Hd. unfold find_video_url in F.
      destruct data; try (injection F as <-; reflexivity).
      exfalso. eapply Hd. reflexivity. }
    destruct (truthy video_url) eqn:T.
    + destruct video_url as [| | | |url| |]; cbn [has_media_suffix lift ret raise].
      5: { destruct (Str.endswith_any MEDIA_SUFFIXES (Str.lower url));
           cbn [elements app shown_url snd fst]; eexists;
           (split; [reflexivity|]);
           (split; [right; exists url; split; [exact T | auto]|]);
           (split; [discriminate|]); intros Hd; specialize (Hno Hd); discriminate. }
      all: cbn [elements snd fst]; exists []; (split; [reflexivity|]);
        (split; [left; reflexivity|]);
        (split; [intros e [= <-]; auto|]);
        intros Hd; specialize (Hno Hd); discriminate.
    + cbn [elements snd fst]. exists []. repeat split; auto; discriminate.
  - cbn [elements snd fst]. exists []. split; [reflexivity|].
    split; [left; reflexivity|]. split.
    + intros e [= <-]. split; [reflexivity|].
      exact (find_video_url_raises data F).
    + intros Hd. exfalso. unfold find_video_url in F.
      destruct data; try discriminate F. eapply Hd. reflexivity.
Qed.

Lemma single_response_page_of_a_list :
  fst (run (json_branch (VList []))) = Ok tt.
Proof.
  destruct (single_response_page (VList [])) as (tail & He & _ & _ & Hd).
  destruct Hd as [Hok Ht]; [discriminate|].
  exact Hok.
Defined.

(** ** The streaming branch *)

Lemma for_lines_elements (src : line_source) :
  forall l p r p', for_lines src l p = (r, p') -> elements p' = elements p.
Proof.
  induction src as [|x more IH|]; intros l p r p'.
  - intros [= _ <-]. reflexivity.
  - rewrite for_lines_step.
    destruct (round_of x) as [| |frame [[piece|]|e]]; cbv zeta.
    + apply IH.
    + intros [= _ <-]. reflexivity.
    + intros H. apply IH in H. exact H.
    + intros H. apply IH in H. exact H.
    + intros [= _ <-]. reflexivity.
  - intros [= _ <-]. reflexivity.
Qed.

(** What [present_stream] adds to the page. *)
Lemma present_stream_run (t : str) (p : page) :
  present_stream t p
  = (Ok tt,
     mkPage (log_placeholder p)
       (elements p
        ++ (if nonempty t then
              Markdown t ::
              match extract_first_url t with
              | Some url =>
                  if Str.endswith_any MEDIA_SUFFIXES (Str.lower url)
                  then [Video url; DownloadLink url]
                  else [Warning url]
              | None => [Info NoLinkInStream]
              end
            else [Info NoTextInStream]))).
Proof.
  unfold present_stream. destruct (nonempty t); [|reflexivity].
  unfold bind, st_add. cbn [elements log_placeholder].
  destruct (extract_first_url t) as [url|] eqn:E.
  - rewrite (extract_first_url_nonempty _ E). cbn [andb].
    destruct (Str.endswith_any MEDIA_SUFFIXES (Str.lower url));
      cbn [elements log_placeholder]; rewrite <- ?app_assoc; reflexivity.
  - cbn [elements log_placeholder]. rewrite <- ?app_assoc. reflexivity.
Qed.

(** X16: the page of a streaming session, whole.  It opens with the
    notice that the stream is connected.  When the session ends with an
    exception nothing follows; otherwise the text follows, which is the
    stripped concatenation of the fragments heard, and after it a player
    with its download link, a warning or the notice that no link was
    found; or, when that text is empty, only the notice that no text was
    returned. *)
Theorem stream_page (src : line_source) (r : result unit) (p' : page) :
  stream_branch src blank = (r, p') ->
  match r with
  | Raise _ => elements p' = [Success StreamConnected]
  | Ok _ =>
      let t := Str.strip (concat (flat_map fragment_of (heard src))) in
      elements p'
      = Success StreamConnected ::
        (if nonempty t then
           Markdown t ::
           match extract_first_url t with
           | Some url =>
               if Str.endswith_any MEDIA_SUFFIXES (Str.lower url)
               then [Video url; DownloadLink url]
               else [Warning url]
           | None => [Info NoLinkInStream]
           end
         else [Info NoTextInStream])
  end.
Proof.
  unfold stream_branch, bind. rewrite decode_stream_run.
  destruct (for_lines src _ _) as [[[l rest]|e] q] eqn:E.
  - cbn [final_text]. rewrite present_stream_run. intros [= <- <-].
    pose proof (for_lines_elements _ _ _ E) as He.
    apply for_lines_ok in E as (Ht & _).
    cbn [elements]. rewrite He, join_empty_concat, Ht. reflexivity.
  - intros [= <- <-]. apply for_lines_elements in E. exact E.
Qed.

Lemma stream_page_of_two_fragments :
  elements (snd (run (stream_branch (of_lines [frame_A; frame_B] Exhausted))))
  = [Success StreamConnected; Markdown (py "AB"); Info NoLinkInStream].
Proof.
  pose proof (@stream_page (of_lines [frame_A; frame_B] Exhausted) (Ok tt)
                (snd (run (stream_branch (of_lines [frame_A; frame_B] Exhausted))))
                eq_refl) as H.
  cbv zeta in H. rewrite H. vm_compute. reflexivity.
Defined.

Lemma piece_of_first_choice
    (top top' : list (str * value)) (first : value) (others others' : list value) :
  dict_lookup (py "choices") top = Some (VList (first :: others)) ->
  dict_lookup (py "choices") top' = Some (VList (first :: others')) ->
  piece_of (VDict top) = piece_of (VDict top').
Proof.
  intros H H'. unfold piece_of. cbn [py_get rbind]. rewrite H, H'. reflexivity.
Qed.

Lemma round_of_decoded (raw_line : str) (chunk : value) :
  Json.loads (frame_of raw_line) = Ok chunk ->
  round_of raw_line = Logged (frame_of raw_line) (piece_of chunk).
Proof.
  intros H. unfold round_of.
  destruct raw_line as [|c line]; [discriminate H|].
  destruct (str_eqb (frame_of (c :: line)) (py "[DONE]")) eqn:E.
  - apply str_eqb_eq in E. rewrite E in H. discriminate H.
  - rewrite H. reflexivity.
Qed.

(** X17: of a streamed chunk only the first choice is read.  Two lines
    whose chunks are objects with the same first choice leave the round of
    the loop in the same way: the same piece is appended to the text, or
    the same exception is raised, whatever the other choices and the other
    fields of the chunks are. *)
Theorem only_the_first_choice_is_read
    (raw_line raw_line' : str) (top top' : list (str * value))
    (first : value) (others others' : list value) (l : locals) (p : page) :
  Json.loads (frame_of raw_line) = Ok (VDict top) ->
  Json.loads (frame_of raw_line') = Ok (VDict top') ->
  dict_lookup (py "choices") top = Some (VList (first :: others)) ->
  dict_lookup (py "choices") top' = Some (VList (first :: others')) ->
  match fst (loop_body raw_line l p), fst (loop_body raw_line' l p) with
  | Ok (flow, after), Ok (flow', after') =>
      flow = flow' /\ text_buffer after = text_buffer after'
  | Raise e, Raise e' => e = e'
  | _, _ => False
  end.
Proof.
  intros Hl Hl' Hc Hc'. rewrite !loop_body_round.
  rewrite (round_of_decoded _ Hl), (round_of_decoded _ Hl').
  rewrite (piece_of_first_choice top top' Hc Hc'). cbv zeta.
  destruct (piece_of (VDict top')) as [[piece|]|e]; cbn [fst text_buffer]; auto.
Qed.

Lemma only_the_first_of_two_choices_is_read :
  match
    fst (loop_body
           (quoted "data: {'id':7,'choices':[{'delta':{'content':'A'}},{'delta':{'content':'B'}}]}")
           (mkLocals [] []) blank),
    fst (loop_body frame_A (mkLocals [] []) blank)
  with
  | Ok (flow, after), Ok (flow', after') =>
      flow = flow' /\ text_buffer after = text_buffer after'
  | Raise e, Raise e' => e = e'
  | _, _ => False
  end.
Proof.
  eapply only_the_first_choice_is_read; vm_compute; reflexivity.
Defined.

Section Service.

Variable float_repr : Z -> Z -> str.

Local Abbreviation written := (dumps float_repr).
Local Abbreviation event := (event_of float_repr).

Lemma ends_with_app (xs ys : str) (b : codepoint) :
  (exists m, ys = m ++ [b]) -> exists m, xs ++ ys = m ++ [b].
Proof. intros [m ->]. exists (xs ++ m). apply app_assoc. Qed.

Lemma written_chunk_shape (piece : str) :
  (exists mid, written (chunk_with piece) = 123%N :: mid)
  /\ (exists mid, written (chunk_with piece) = mid ++ [125%N]).
Proof.
  unfold dumps, chunk_with. rewrite encode_dict. split; [eauto|].
  change (123%N :: ?x) with ([123%N] ++ x).
  repeat (apply ends_with_app). exists []. reflexivity.
Qed.

Lemma frame_of_event (piece : str) :
  frame_of (event (chunk_with piece)) = written (chunk_with piece).
Proof.
  unfold event_of.
  change (py "data: " ++ written (chunk_with piece))
    with (py "data:" ++ [32%N] ++ written (chunk_with piece)).
  rewrite frame_of_data.
  destruct (written_chunk_shape piece) as [[mid Hmid] Hlast].
  rewrite <- (app_nil_r (written (chunk_with piece))) at 1.
  apply (@strip_padded [32%N] [] _ 123%N 125%N mid);
    try reflexivity; assumption.
Qed.

Lemma latin_cases (text : str) :
  (latin text = true /\ Forall (fun c => (c <= 255)%N) text)
  \/ (latin text = false /\ Exists (fun c => (255 < c)%N) text).
Proof.
  unfold latin. induction text as [|c text IH]; [left; split; constructor|].
  cbn [forallb]. destruct (N.leb_spec c 255) as [Hc|Hc]; cbn [andb].
  - destruct IH as [[-> IH] | [-> IH]].
    + left. split; [reflexivity | constructor; assumption].
    + right. split; [reflexivity | apply Exists_cons_tl; exact IH].
  - right. split; [reflexivity | apply Exists_cons_hd; exact Hc].
Qed.

(** The round of an event: the chunk is logged as it was written, and its
    piece goes through [normalize_stream_text]. *)
Lemma round_of_event (piece : str) :
  nonempty piece = true -> forallb scalar piece = true ->
  round_of (event (chunk_with piece))
  = Logged (written (chunk_with piece))
      (rbind (normalize_stream_text piece) (fun text => Ok (Some text))).
Proof.
  intros Hne Hs. unfold round_of.
  assert (Hev : exists tl, event (chunk_with piece) = 100%N :: tl)
    by (eexists; reflexivity).
  destruct Hev as [tl Hev]. rewrite Hev at 1. cbv zeta.
  rewrite frame_of_event.
  destruct (written_chunk_shape piece) as [[mid Hmid] _].
  assert (Hdone : str_eqb (written (chunk_with piece)) (py "[DONE]") = false)
    by (rewrite Hmid; reflexivity).
  rewrite Hdone.
  assert (Hload : Json.loads (written (chunk_with piece))
                  = Ok (chunk_with piece)).
  { unfold dumps. apply loads_encoded. cbn [encodable chunk_with forallb].
    unfold plain_text. cbn [negb orb]. rewrite Hs. reflexivity. }
  rewrite Hload. f_equal.
  unfold piece_of, chunk_with. cbn [py_get rbind dict_lookup].
  change (str_eqb (py "choices") (py "choices")) with true. cbv iota.
  cbn [truthy negb py_first list_item nth_error rbind py_get dict_lookup].
  change (str_eqb (py "delta") (py "delta")) with true. cbv iota.
  unfold py_or. cbn [truthy py_get dict_lookup rbind].
  change (str_eqb (py "content") (py "content")) with true. cbv iota.
  destruct piece as [|b bs]; [discriminate|]. reflexivity.
Qed.

Lemma round_of_latin_event (piece : str) :
  nonempty piece = true -> forallb scalar piece = true ->
  latin piece = true ->
  round_of (event (chunk_with piece))
  = Logged (written (chunk_with piece)) (Ok (Some (heard_as piece))).
Proof.
  intros Hne Hs Hl. rewrite (round_of_event piece Hne Hs). f_equal.
  destruct (latin_cases piece) as [[_ Hall] | [Hf _]]; [|congruence].
  destruct (normalize_within_latin1 Hall) as (data & _ & Hn).
  unfold heard_as. rewrite Hn. reflexivity.
Qed.

Lemma round_of_other_event (piece : str) :
  nonempty piece = true -> forallb scalar piece = true ->
  latin piece = false ->
  round_of (event (chunk_with piece))
  = Logged (written (chunk_with piece)) (Raise UnicodeEncodeError).
Proof.
  intros Hne Hs Hl. rewrite (round_of_event piece Hne Hs). f_equal.
  destruct (latin_cases piece) as [[Ht _] | [_ Hex]]; [congruence|].
  rewrite (normalize_beyond_latin1 Hex). reflexivity.
Qed.

Lemma for_lines_of_events (pieces : list str) (rest : line_source) :
  forallb (fun piece => nonempty piece && forallb scalar piece) pieces = true ->
  forallb latin pieces = true ->
  forall l p,
  exists q,
    for_lines
      (of_lines (map (fun piece => event (chunk_with piece)) pieces)
         (Yield frame_DONE rest)) l p
    = (Ok (mkLocals (text_buffer l ++ map heard_as pieces)
             (raw_lines l
              ++ map (fun piece => written (chunk_with piece)) pieces),
           rest), q)
    /\ elements q = elements p.
Proof.
  induction pieces as [|piece pieces IH]; intros H Hl l p; cbn [map of_lines].
  - exists p. rewrite for_lines_step.
    change (round_of frame_DONE) with Stopped. cbv iota.
    rewrite !app_nil_r. destruct l. split; reflexivity.
  - cbn [forallb] in H, Hl. apply andb_true_iff in H as [Ht Hrest].
    apply andb_true_iff in Ht as [Hne Hs].
    apply andb_true_iff in Hl as [Hl1 Hl2].
    rewrite for_lines_step, (round_of_latin_event piece Hne Hs Hl1).
    cbv zeta iota.
    destruct (IH Hrest Hl2
                (mkLocals (text_buffer l ++ [heard_as piece])
                   (raw_lines l ++ [written (chunk_with piece)]))
                (mkPage
                   (Some (display
                            (raw_lines l ++ [written (chunk_with piece)])))
                   (elements p)))
      as (q & Hq & He).
    exists q. rewrite Hq. cbn [text_buffer raw_lines elements] in *.
    rewrite <- !app_assoc. split; [reflexivity | exact He].
Qed.

Lemma for_lines_of_events_raises (pieces : list str) (rest : line_source) :
  forallb (fun piece => nonempty piece && forallb scalar piece) pieces = true ->
  forallb latin pieces = false ->
  forall l p,
  exists q,
    for_lines
      (of_lines (map (fun piece => event (chunk_with piece)) pieces)
         (Yield frame_DONE rest)) l p
    = (Raise UnicodeEncodeError, q)
    /\ elements q = elements p.
Proof.
  induction pieces as [|piece pieces IH]; intros H Hl l p; cbn [map of_lines].
  - discriminate Hl.
  - cbn [forallb] in H, Hl. apply andb_true_iff in H as [Ht Hrest].
    apply andb_true_iff in Ht as [Hne Hs].
    rewrite for_lines_step.
    destruct (latin piece) eqn:Hp; cbn [andb] in Hl.
    + rewrite (round_of_latin_event piece Hne Hs Hp). cbv zeta iota.
      destruct (IH Hrest Hl
                  (mkLocals (text_buffer l ++ [heard_as piece])
                     (raw_lines l ++ [written (chunk_with piece)]))
                  (mkPage
                     (Some (display
                              (raw_lines l ++ [written (chunk_with piece)])))
                     (elements p)))
        as (q & Hq & He).
      exists q. split; [exact Hq | exact He].
    + rewrite (round_of_other_event piece Hne Hs Hp). cbv zeta iota.
      eexists. split; reflexivity.
Qed.


End Service.

